(** * F1 telemetry store: the repository layer of [src/database]

    A shallow embedding of [src/database/models.py] and
    [src/database/repository.py], and the properties of the importers and
    exporters proved on it.

    - Every ORM class of [models.py] is a record of its columns; a table is
      the list of its rows in insertion (rowid) order and the database is the
      record of the seven tables.
    - [Integer] columns are [Z], [Float] columns are [Q] (the code only
      stores, compares and returns them; [int], [float] and [str] of a
      float are written out below), [String] columns are [string], nullable
      columns are [option], [JSON] columns hold [json] values.
    - Python dictionaries are association lists in the insertion order
      Python keeps.  A key of a payload is present with a value or missing:
      an [option] field is [None] for a missing key, and for Python's [None]
      in what the exporters return.
    - A unit of work is a pair of databases: what is committed (what every
      other reader sees) and the working copy of the open transaction.
      [add] puts the row in the working copy, under the rowid the next
      [flush] gives it.  [flush] and [commit] are the two calls that reach
      the storage engine; a storage fault is injected there by a fault plan.
      Queries are total functions of the database they read.
    - The primary keys are SQLite rowids ([Integer], [primary_key]): a new
      row gets the largest key of its table plus one.
    - A query returns its rows in rowid order, and [ORDER BY] is a stable
      sort of them (SQL leaves both open; the dictionaries Python builds
      from such rows are equal whatever the order). *)

From Stdlib Require Import List ZArith QArith Qround String Ascii Bool Lia.
From Stdlib Require Import Sorting.Sorted Permutation DecimalString.
Import ListNotations.

Set Implicit Arguments.

(* ------------------------------------------------------------------ *)
(** ** Python values used by the repository *)

(** Keys of dictionaries: strings (driver codes, segment names) and
    integers (primary keys). *)
Class Key (K : Type) := {
  key_eqb : K -> K -> bool;
  key_eqb_spec : forall a b, reflect (a = b) (key_eqb a b)
}.

#[export] Instance Key_string : Key string :=
  {| key_eqb := String.eqb; key_eqb_spec := String.eqb_spec |}.

#[export] Instance Key_Z : Key Z :=
  {| key_eqb := Z.eqb; key_eqb_spec := Z.eqb_spec |}.

(** [pydict K V]: a Python [dict], in insertion order. *)
Definition pydict (K V : Type) := list (K * V).

Section Dict.
Context {K V : Type} `{Key K}.

(** [d.get(k)] *)
Fixpoint dict_get (k : K) (d : pydict K V) : option V :=
  match d with
  | [] => None
  | (k', v) :: r => if key_eqb k k' then Some v else dict_get k r
  end.

(** [d.get(k, default)] *)
Definition dict_get_default (k : K) (default : V) (d : pydict K V) : V :=
  match dict_get k d with Some v => v | None => default end.

(** [d[k] = v]: an existing key keeps its place, a new key goes last. *)
Fixpoint dict_set (k : K) (v : V) (d : pydict K V) : pydict K V :=
  match d with
  | [] => [(k, v)]
  | (k', v') :: r =>
      if key_eqb k k' then (k', v) :: r else (k', v') :: dict_set k v r
  end.

(** [d.keys()] *)
Definition dict_keys (d : pydict K V) : list K := map fst d.

(** [k in d] *)
Definition dict_mem (k : K) (d : pydict K V) : bool :=
  match dict_get k d with Some _ => true | None => false end.

End Dict.

(** A JSON value, as a [JSON] column stores it. *)
Unset Elimination Schemes.
Inductive json : Type :=
| JNull
| JBool (b : bool)
| JNum (q : Q)
| JStr (s : string)
| JList (l : list json)
| JDict (d : list (string * json)).
Set Elimination Schemes.

(** Truth value of a float: [0.0] is false. *)
Definition float_truthy (q : Q) : bool := negb (Qeq_bool q 0).

(** Truth value of an optional float: [None] and [0.0] are false. *)
Definition opt_float_truthy (o : option Q) : bool :=
  match o with Some q => float_truthy q | None => false end.

(** Truth value of a string: the empty string is false. *)
Definition str_truthy (s : string) : bool :=
  match s with EmptyString => false | _ => true end.

(** [int(x)] of a float: truncation toward zero. *)
Definition py_int (q : Q) : Z := Z.quot (Qnum q) (Z.pos (Qden q)).

(** [float(n)] of an integer. *)
Definition py_float_of_int (n : Z) : Q := inject_Z n.

(** [a < b] and [a > b] on floats. *)
Definition Qltb (a b : Q) : bool := negb (Qle_bool b a).

(** *** The numbers a column holds

    The tables below have [Z] for an [Integer] column and [Q] for a [Float]
    column.  SQLite holds a signed 64-bit integer in the first (binding a
    larger [int] raises [OverflowError]) and a double in the second (an
    [int] bound to it is converted, and a number that no double holds is
    rounded).  [int64] and [float64] are the numbers on which the tables
    and SQLite agree; statements about what an import stores and what comes
    back are made for payloads of such numbers. *)

Definition int64 (n : Z) : bool :=
  ((- 2 ^ 63 <=? n) && (n <? 2 ^ 63))%Z.

(** [q] is the value of a double, of magnitude below [2^63]: its reduced
    denominator is a power of two no larger than [2^1074], and its
    numerator fits 53 bits once its trailing zero bits are dropped.  Such
    a number is stored unchanged whether the payload carries it as a
    [float] or as an [int]. *)
Definition float64 (q : Q) : bool :=
  let r := Qred q in
  let n := Z.abs (Qnum r) in
  let d := Z.pos (Qden r) in
  ((d =? 2 ^ Z.log2 d) && (Z.log2 d <=? 1074)
   && (n mod 2 ^ Z.max 0 (Z.log2 n + 1 - 53) =? 0)
   && (n <? 2 ^ 63 * d))%Z.

(** A key that may be missing: nothing to hold when it is. *)
Definition holds {A} (P : A -> bool) (o : option A) : bool :=
  match o with Some a => P a | None => true end.

Example float64_half : float64 (5 # 2) = true.
Proof. reflexivity. Qed.

Example float64_tenth : float64 (1 # 10) = false.
Proof. reflexivity. Qed.

Example float64_odd_above_53_bits : float64 (inject_Z (2 ^ 53 + 1)) = false.
Proof. reflexivity. Qed.

Example int64_bound : int64 (2 ^ 63) = false /\ int64 (2 ^ 63 - 1) = true.
Proof. split; reflexivity. Qed.

(** *** [float(s)] and [str(x)] on plain decimal literals

    [py_float] reads a literal [[sign] digits [. digits]] with at least one
    digit; the float is represented by the decimal it denotes.  [py_str]
    prints the shortest decimal of a float as [repr] does for magnitudes
    between [1e-4] and [1e16]: the integer part, a point and the fractional
    digits, [0] when there is none.  Literals with exponents, blanks or
    underscores, and [inf]/[nan], are outside this fragment. *)

Definition digit_of_ascii (c : ascii) : option Z :=
  let n := Z.of_nat (nat_of_ascii c) in
  if ((48 <=? n) && (n <=? 57))%Z then Some (n - 48)%Z else None.

(** Reads the digits of [s] into [(value, number of digits)]; any other
    character is a [ValueError]. *)
Fixpoint read_digits (s : string) (acc : Z) (n : nat) : option (Z * nat) :=
  match s with
  | EmptyString => Some (acc, n)
  | String c r =>
      match digit_of_ascii c with
      | Some d => read_digits r (10 * acc + d)%Z (S n)
      | None => None
      end
  end.

(** Splits [s] at its first point. *)
Fixpoint split_point (s : string) : string * option string :=
  match s with
  | EmptyString => (EmptyString, None)
  | String c r =>
      if Ascii.eqb c "."%char then (EmptyString, Some r)
      else let '(a, b) := split_point r in (String c a, b)
  end.

Definition read_unsigned (s : string) : option Q :=
  let '(ip, fp) := split_point s in
  match read_digits ip 0 0 with
  | None => None
  | Some (iv, il) =>
      match fp with
      | None => if Nat.eqb il 0 then None else Some (inject_Z iv)
      | Some f =>
          match read_digits f 0 0 with
          | None => None
          | Some (fv, fl) =>
              if Nat.eqb (il + fl) 0 then None
              else Some (Qmake (iv * 10 ^ Z.of_nat fl + fv)
                               (Z.to_pos (10 ^ Z.of_nat fl)))
          end
      end
  end.

(** [float(s)]: [None] is a [ValueError]. *)
Definition py_float (s : string) : option Q :=
  match s with
  | String "-" r => option_map Qopp (read_unsigned r)
  | String "+" r => read_unsigned r
  | _ => read_unsigned s
  end.

(** The fractional digits of [r / d], at most [fuel] of them. *)
Fixpoint frac_digits (fuel : nat) (r d : Z) : string :=
  match fuel with
  | O => EmptyString
  | S fuel' =>
      if (r =? 0)%Z then EmptyString
      else
        let r10 := (10 * r)%Z in
        String (ascii_of_nat (48 + Z.to_nat (r10 / d)))
               (frac_digits fuel' (r10 mod d) d)
  end.

Definition string_of_Z (n : Z) : string :=
  NilZero.string_of_int (Z.to_int n).

(** [str(x)] of a float. *)
Definition py_str (q : Q) : string :=
  let n := Z.abs (Qnum q) in
  let d := Z.pos (Qden q) in
  let fr := frac_digits 17 (n mod d) d in
  ((if (Qnum q <? 0)%Z then "-" else EmptyString) ++
   string_of_Z (n / d) ++ "." ++
   (match fr with EmptyString => "0" | _ => fr end))%string.

Example py_str_float_canonical :
  option_map py_str (py_float "87.123") = Some "87.123"%string.
Proof. reflexivity. Qed.

Example py_str_float_integer :
  option_map py_str (py_float "90") = Some "90.0"%string.
Proof. reflexivity. Qed.

Example py_float_clock_string : py_float "1:27.123" = None.
Proof. reflexivity. Qed.

(* ------------------------------------------------------------------ *)
(** ** The schema of [models.py]

    One module per ORM class; [row] is the record of its columns and the
    fields carry the column names. *)

Definition rgb : Type := (Z * Z * Z)%type.

Module Session.
Record row := mk {
  id : Z;
  year : Z;
  round_number : Z;
  session_type : string;
  event_name : string;
  circuit_name : option string;
  country : option string;
  event_date : option string;
  total_laps : option Z;
  circuit_rotation : option Q
}.
End Session.

Module Driver.
Record row := mk {
  id : Z;
  session_id : Z;
  driver_code : string;
  driver_number : option Z;
  full_name : option string;
  team : option string;
  color_r : Z;
  color_g : Z;
  color_b : Z
}.
End Driver.

Module TelemetryFrame.
Record row := mk {
  id : Z;
  session_id : Z;
  time : Q;
  lap : option Z;
  track_temp : option Q;
  air_temp : option Q;
  humidity : option Q;
  wind_speed : option Q;
  wind_direction : option Q;
  rain_state : option string
}.
End TelemetryFrame.

Module DriverTelemetry.
Record row := mk {
  id : Z;
  frame_id : Z;
  driver_id : Z;
  x : Q;
  y : Q;
  distance : option Q;
  relative_distance : option Q;
  position : option Z;
  lap : option Z;
  speed : option Q;
  gear : option Z;
  drs : option Z;
  throttle : option Q;
  brake : option Q;
  tyre_compound : option Z
}.
End DriverTelemetry.

Module TrackStatus.
Record row := mk {
  id : Z;
  session_id : Z;
  status : string;
  start_time : Q;
  end_time : option Q
}.
End TrackStatus.

Module QualifyingResult.
Record row := mk {
  id : Z;
  session_id : Z;
  driver_id : Z;
  position : Z;
  q1_time : option Q;
  q2_time : option Q;
  q3_time : option Q
}.
End QualifyingResult.

Module QualifyingTelemetry.
Record row := mk {
  id : Z;
  result_id : Z;
  segment : string;
  frames_json : list json;
  max_speed : option Q;
  min_speed : option Q;
  sector1_time : option Q;
  sector2_time : option Q;
  sector3_time : option Q;
  compound : option Z;
  drs_zones_json : option (list json)
}.
End QualifyingTelemetry.

(** The store: the seven tables, each in rowid order. *)
Record Database := mkDatabase {
  sessions : list Session.row;
  drivers : list Driver.row;
  telemetry_frames : list TelemetryFrame.row;
  driver_telemetry : list DriverTelemetry.row;
  track_statuses : list TrackStatus.row;
  qualifying_results : list QualifyingResult.row;
  qualifying_telemetry : list QualifyingTelemetry.row
}.

Definition empty_database : Database :=
  mkDatabase [] [] [] [] [] [] [].

(** The rowid a table gives its next row. *)
Definition next_id (ids : list Z) : Z := 1 + fold_right Z.max 0%Z ids.

(* ------------------------------------------------------------------ *)
(** ** The payloads the callers hand over and get back

    One module per dictionary shape; [dict] is the record of its keys. A key
    the code reads with [d[k]] or [d.get(k)] is an [option]: [None] when the
    key is missing. *)

Module Weather.
Record dict := mk {
  track_temp : option Q;
  air_temp : option Q;
  humidity : option Q;
  wind_speed : option Q;
  wind_direction : option Q;
  rain_state : option string
}.
End Weather.

Module DriverData.
Record dict := mk {
  x : option Q;
  y : option Q;
  dist : option Q;
  rel_dist : option Q;
  position : option Z;
  lap : option Z;
  speed : option Q;
  gear : option Z;
  drs : option Z;
  throttle : option Q;
  brake : option Q;
  tyre : option Q
}.
End DriverData.

Module FrameData.
Record dict := mk {
  t : option Q;
  lap : option Z;
  weather : option Weather.dict;
  drivers : pydict string DriverData.dict
}.
End FrameData.

Module StatusData.
Record dict := mk {
  status : option string;
  start_time : option Q;
  end_time : option Q
}.
End StatusData.

Module TelemetryData.
Record dict := mk {
  frames : list FrameData.dict;
  driver_colors : pydict string rgb;
  track_statuses : list StatusData.dict;
  total_laps : option Z
}.
End TelemetryData.

Module SessionInfo.
Record dict := mk {
  event_name : option string;
  circuit_name : option string;
  country : option string;
  date : option string;
  circuit_rotation : option Q
}.
End SessionInfo.

(* ------------------------------------------------------------------ *)
(** ** The unit of work: [get_session()], [flush], [commit], [rollback] *)

(** What the [try] blocks of the repository can raise. *)
Inductive exn : Type :=
| KeyError (key : string)
| ValueError (literal : string)
| TypeError
| OverflowError
| StorageFault.

(** [committed]: what every reader sees. [working]: the open transaction's
    view. [faults]: the fault plan, one entry per call that reaches the
    storage engine ([true]: that call fails); an exhausted plan never
    fails. *)
Record UnitOfWork := mkUnit {
  committed : Database;
  working : Database;
  faults : list bool
}.

Definition M (A : Type) : Type := UnitOfWork -> UnitOfWork * (exn + A).

Definition ret {A} (a : A) : M A := fun u => (u, inr a).

Definition bind {A B} (c : M A) (k : A -> M B) : M B :=
  fun u =>
    match c u with
    | (u', inr a) => k a u'
    | (u', inl e) => (u', inl e)
    end.

Definition raise {A} (e : exn) : M A := fun u => (u, inl e).

Notation "x <- c ;; k" := (bind c (fun x => k))
  (at level 61, c at next level, right associativity).
Notation "c ;; k" := (bind c (fun _ => k))
  (at level 61, right associativity).

(** [d[key]] *)
Definition subscript {A} (key : string) (o : option A) : M A :=
  match o with Some a => ret a | None => raise (KeyError key) end.

(** [for a in l: body] *)
Fixpoint for_each {A} (l : list A) (body : A -> M unit) : M unit :=
  match l with
  | [] => ret tt
  | a :: r => body a ;; for_each r body
  end.

(** [for a in l: body], threading the local the body rebinds. *)
Fixpoint for_fold {A S} (l : list A) (s : S) (body : S -> A -> M S) : M S :=
  match l with
  | [] => ret s
  | a :: r => s' <- body s a ;; for_fold r s' body
  end.

(** A call into the storage engine: succeeds or raises by the plan. *)
Definition storage_call : M unit :=
  fun u =>
    match faults u with
    | [] => (u, inr tt)
    | fails :: plan =>
        (mkUnit (committed u) (working u) plan,
         if fails then inl StorageFault else inr tt)
    end.

(** [db_session.flush()] *)
Definition flush : M unit := storage_call.

(** [db_session.commit()] *)
Definition commit : M unit :=
  storage_call ;;
  fun u => (mkUnit (working u) (working u) (faults u), inr tt).

(** [db_session.rollback()] *)
Definition rollback (u : UnitOfWork) : UnitOfWork :=
  mkUnit (committed u) (committed u) (faults u).

(** [close_session(db_session)]: what is not committed is dropped. *)
Definition close_session (u : UnitOfWork) : Database := committed u.

(** [get_session()] on the store [db]. *)
Definition get_session (plan : list bool) (db : Database) : UnitOfWork :=
  mkUnit db db plan.

Definition update_working (f : Database -> Database) : M unit :=
  fun u => (mkUnit (committed u) (f (working u)) (faults u), inr tt).

Definition read_working {A} (f : Database -> A) : M A :=
  fun u => (u, inr (f (working u))).

(** A row joining its table. *)
Definition with_session (r : Session.row) (db : Database) : Database :=
  mkDatabase (sessions db ++ [r]) (drivers db) (telemetry_frames db)
    (driver_telemetry db) (track_statuses db) (qualifying_results db)
    (qualifying_telemetry db).

Definition with_driver (r : Driver.row) (db : Database) : Database :=
  mkDatabase (sessions db) (drivers db ++ [r]) (telemetry_frames db)
    (driver_telemetry db) (track_statuses db) (qualifying_results db)
    (qualifying_telemetry db).

Definition with_frame (r : TelemetryFrame.row) (db : Database) : Database :=
  mkDatabase (sessions db) (drivers db) (telemetry_frames db ++ [r])
    (driver_telemetry db) (track_statuses db) (qualifying_results db)
    (qualifying_telemetry db).

Definition with_driver_telemetry (r : DriverTelemetry.row) (db : Database)
    : Database :=
  mkDatabase (sessions db) (drivers db) (telemetry_frames db)
    (driver_telemetry db ++ [r]) (track_statuses db) (qualifying_results db)
    (qualifying_telemetry db).

Definition with_track_status (r : TrackStatus.row) (db : Database)
    : Database :=
  mkDatabase (sessions db) (drivers db) (telemetry_frames db)
    (driver_telemetry db) (track_statuses db ++ [r]) (qualifying_results db)
    (qualifying_telemetry db).

Definition with_qualifying_result (r : QualifyingResult.row) (db : Database)
    : Database :=
  mkDatabase (sessions db) (drivers db) (telemetry_frames db)
    (driver_telemetry db) (track_statuses db) (qualifying_results db ++ [r])
    (qualifying_telemetry db).

Definition with_qualifying_telemetry (r : QualifyingTelemetry.row)
    (db : Database) : Database :=
  mkDatabase (sessions db) (drivers db) (telemetry_frames db)
    (driver_telemetry db) (track_statuses db) (qualifying_results db)
    (qualifying_telemetry db ++ [r]).

(** [db_session.add(record)]: the row joins its table under the next rowid,
    which the record carries from then on.  The engine receives the row
    with the next [flush] or [commit]; no query of the importers reads the
    table in between, and a [rollback] drops the row either way, so the
    working copy takes it at once. *)
Definition add_session (r : Z -> Session.row) : M Z :=
  i <- read_working (fun db => next_id (map Session.id (sessions db))) ;;
  update_working (with_session (r i)) ;;
  ret i.

Definition add_driver (r : Z -> Driver.row) : M Z :=
  i <- read_working (fun db => next_id (map Driver.id (drivers db))) ;;
  update_working (with_driver (r i)) ;;
  ret i.

Definition add_frame (r : Z -> TelemetryFrame.row) : M Z :=
  i <- read_working
         (fun db => next_id (map TelemetryFrame.id (telemetry_frames db))) ;;
  update_working (with_frame (r i)) ;;
  ret i.

Definition add_driver_telemetry (r : Z -> DriverTelemetry.row) : M Z :=
  i <- read_working
         (fun db => next_id (map DriverTelemetry.id (driver_telemetry db))) ;;
  update_working (with_driver_telemetry (r i)) ;;
  ret i.

Definition add_track_status (r : Z -> TrackStatus.row) : M Z :=
  i <- read_working
         (fun db => next_id (map TrackStatus.id (track_statuses db))) ;;
  update_working (with_track_status (r i)) ;;
  ret i.

Definition add_qualifying_result (r : Z -> QualifyingResult.row) : M Z :=
  i <- read_working
         (fun db => next_id (map QualifyingResult.id (qualifying_results db))) ;;
  update_working (with_qualifying_result (r i)) ;;
  ret i.

Definition add_qualifying_telemetry (r : Z -> QualifyingTelemetry.row) : M Z :=
  i <- read_working
         (fun db =>
            next_id (map QualifyingTelemetry.id (qualifying_telemetry db))) ;;
  update_working (with_qualifying_telemetry (r i)) ;;
  ret i.

(* ------------------------------------------------------------------ *)
(** ** Queries *)

(** The filter on the natural key [(year, round_number, session_type)]. *)
Definition session_matches (year round_number : Z) (session_type : string)
    (s : Session.row) : bool :=
  (Session.year s =? year)%Z && (Session.round_number s =? round_number)%Z
  && String.eqb (Session.session_type s) session_type.

(** [query(Session).filter(...).first()] *)
Definition find_session (db : Database) (year round_number : Z)
    (session_type : string) : option Session.row :=
  find (session_matches year round_number session_type) (sessions db).

(** [ORDER BY]: a stable insertion sort, rows with equal keys stay in rowid
    order. *)
Fixpoint insert_by {A} (le : A -> A -> bool) (a : A) (l : list A) : list A :=
  match l with
  | [] => [a]
  | b :: r => if le a b then a :: l else b :: insert_by le a r
  end.

Definition order_by {A} (le : A -> A -> bool) (l : list A) : list A :=
  fold_right (insert_by le) [] l.

(** [range(0, stop, step)] *)
Definition py_range (stop step : nat) : list nat :=
  map (fun k => k * step)%nat (seq 0 ((stop + step - 1) / step)).

(** [l[i:j]] *)
Definition py_slice {A} (l : list A) (i j : nat) : list A :=
  firstn (j - i) (skipn i l).

(** [check_session_exists], for a key the engine binds. *)
Definition check_session_exists (db : Database) (year round_number : Z)
    (session_type : string) : bool :=
  match find_session db year round_number session_type with
  | Some _ => true
  | None => false
  end.

(** *** A key the engine cannot bind

    The query on the natural key binds [year] and [round_number] as
    integers, and sqlite3 raises [OverflowError] for an [int] outside 64
    bits.  [check_session_exists] has [try ... finally] and no [except]:
    the exception reaches the caller.  The two exporters run the query
    inside [try ... except Exception] and answer [None]. *)

(** The natural key is bound to two [Integer] columns. *)
Definition storable_key (year round_number : Z) : bool :=
  int64 year && int64 round_number.



(* ------------------------------------------------------------------ *)
(** ** Race and sprint sessions: [save_race_telemetry] *)

Definition default_color : rgb := (128, 128, 128)%Z.

Definition batch_size : nat := 100.

Definition or_default {A} (default : A) (o : option A) : A :=
  match o with Some a => a | None => default end.

(** The body of the loop over [first_frame.get('drivers', {}).keys()]. *)
Definition save_driver (session_id : Z) (driver_colors : pydict string rgb)
    (driver_map : pydict string Z) (driver_code : string)
    : M (pydict string Z) :=
  let '(r, g, b) := dict_get_default driver_code default_color driver_colors in
  driver_id <- add_driver (fun i =>
    Driver.mk i session_id driver_code None None None r g b) ;;
  flush ;;
  ret (dict_set driver_code driver_id driver_map).

(** The body of the loop over [telemetry_data.get('track_statuses', [])]. *)
Definition save_track_status (session_id : Z) (status_data : StatusData.dict)
    : M unit :=
  status <- subscript "status" (StatusData.status status_data) ;;
  start_time <- subscript "start_time" (StatusData.start_time status_data) ;;
  add_track_status (fun i =>
    TrackStatus.mk i session_id status start_time
      (StatusData.end_time status_data)) ;;
  ret tt.

(** The body of the loop over [frame_data.get('drivers', {}).items()]. *)
Definition save_driver_data (frame_id : Z) (driver_map : pydict string Z)
    (item : string * DriverData.dict) : M unit :=
  let '(driver_code, driver_data) := item in
  match dict_get driver_code driver_map with
  | Some driver_id =>
      x <- subscript "x" (DriverData.x driver_data) ;;
      y <- subscript "y" (DriverData.y driver_data) ;;
      add_driver_telemetry (fun i =>
        DriverTelemetry.mk i frame_id driver_id x y
          (DriverData.dist driver_data)
          (DriverData.rel_dist driver_data)
          (DriverData.position driver_data)
          (DriverData.lap driver_data)
          (DriverData.speed driver_data)
          (DriverData.gear driver_data)
          (DriverData.drs driver_data)
          (DriverData.throttle driver_data)
          (DriverData.brake driver_data)
          (Some (py_int (or_default 0%Q (DriverData.tyre driver_data))))) ;;
      ret tt
  | None => ret tt
  end.

Definition empty_weather : Weather.dict :=
  Weather.mk None None None None None None.

(** The body of the loop over [batch_frames]. *)
Definition save_frame (session_id : Z) (driver_map : pydict string Z)
    (frame_data : FrameData.dict) : M unit :=
  let weather := or_default empty_weather (FrameData.weather frame_data) in
  t <- subscript "t" (FrameData.t frame_data) ;;
  frame_id <- add_frame (fun i =>
    TelemetryFrame.mk i session_id t (FrameData.lap frame_data)
      (Weather.track_temp weather) (Weather.air_temp weather)
      (Weather.humidity weather) (Weather.wind_speed weather)
      (Weather.wind_direction weather) (Weather.rain_state weather)) ;;
  flush ;;
  for_each (FrameData.drivers frame_data)
    (save_driver_data frame_id driver_map).

(** The [Session(...)] record of a race import, before its rowid. *)
Definition race_session (year round_number : Z) (session_type : string)
    (session_info : SessionInfo.dict) (telemetry_data : TelemetryData.dict)
    (i : Z) : Session.row :=
  Session.mk i year round_number session_type
    (or_default EmptyString (SessionInfo.event_name session_info))
    (Some (or_default EmptyString (SessionInfo.circuit_name session_info)))
    (Some (or_default EmptyString (SessionInfo.country session_info)))
    (Some (or_default EmptyString (SessionInfo.date session_info)))
    (Some (or_default 0%Z (TelemetryData.total_laps telemetry_data)))
    (Some (or_default 0%Q (SessionInfo.circuit_rotation session_info))).

(** The loop over the batches: [for i in range(0, len(frames), batch_size)]
    with its [commit] at the end of every turn. *)
Definition save_batches (session_id : Z) (driver_map : pydict string Z)
    (frames : list FrameData.dict) : M unit :=
  for_each (py_range (List.length frames) batch_size) (fun i =>
    let batch_frames := py_slice frames i (i + batch_size) in
    for_each batch_frames (save_frame session_id driver_map) ;;
    commit).

(** The [try] block of [save_race_telemetry] once the session row is
    flushed: drivers of the first frame, track statuses, batches. *)
Definition save_race_rows (session_id : Z)
    (telemetry_data : TelemetryData.dict) : M unit :=
  let driver_colors := TelemetryData.driver_colors telemetry_data in
  let frames := TelemetryData.frames telemetry_data in
  driver_map <-
    match frames with
    | first_frame :: _ =>
        for_fold (dict_keys (FrameData.drivers first_frame)) []
          (save_driver session_id driver_colors)
    | [] => ret []
    end ;;
  for_each (TelemetryData.track_statuses telemetry_data)
    (save_track_status session_id) ;;
  save_batches session_id driver_map frames.

(** The [try] block of [save_race_telemetry]. *)
Definition save_race_body (year round_number : Z) (session_type : string)
    (session_info : SessionInfo.dict) (telemetry_data : TelemetryData.dict)
    : M Z :=
  existing_session <-
    read_working (fun db => find_session db year round_number session_type) ;;
  match existing_session with
  | Some existing => ret (Session.id existing)
  | None =>
      session_id <- add_session
        (race_session year round_number session_type session_info
           telemetry_data) ;;
      flush ;;
      save_race_rows session_id telemetry_data ;;
      ret session_id
  end.

(** [save_race_telemetry]: the session identifier or [None], and the store
    as every reader sees it once the call has returned. *)
Definition save_race_telemetry (plan : list bool) (db : Database)
    (year round_number : Z) (session_type : string)
    (session_info : SessionInfo.dict) (telemetry_data : TelemetryData.dict)
    : option Z * Database :=
  match save_race_body year round_number session_type session_info
          telemetry_data (get_session plan db) with
  | (u, inr session_id) => (Some session_id, close_session u)
  | (u, inl _) => (None, close_session (rollback u))
  end.

(* ------------------------------------------------------------------ *)
(** ** Race and sprint sessions: [load_race_telemetry] *)

(** A loop whose body may raise; the enclosing [except Exception] turns the
    exception into [None]. *)
Fixpoint try_fold {A S} (l : list A) (s : S) (body : S -> A -> option S)
    : option S :=
  match l with
  | [] => Some s
  | a :: r =>
      match body s a with
      | Some s' => try_fold r s' body
      | None => None
      end
  end.

Fixpoint try_map {A B} (f : A -> option B) (l : list A) : option (list B) :=
  match l with
  | [] => Some []
  | a :: r =>
      match f a with
      | Some b =>
          match try_map f r with
          | Some bs => Some (b :: bs)
          | None => None
          end
      | None => None
      end
  end.

(** The body of the loop over [telemetry_points]; [float(None)] is a
    [TypeError]. *)
Definition load_point (driver_id_to_code : pydict Z string)
    (drivers_data : pydict string DriverData.dict)
    (point : DriverTelemetry.row) : option (pydict string DriverData.dict) :=
  match dict_get (DriverTelemetry.driver_id point) driver_id_to_code with
  | Some driver_code =>
      if str_truthy driver_code then
        match DriverTelemetry.tyre_compound point with
        | Some tyre =>
            Some (dict_set driver_code
              (DriverData.mk
                 (Some (DriverTelemetry.x point))
                 (Some (DriverTelemetry.y point))
                 (DriverTelemetry.distance point)
                 (DriverTelemetry.relative_distance point)
                 (DriverTelemetry.position point)
                 (DriverTelemetry.lap point)
                 (DriverTelemetry.speed point)
                 (DriverTelemetry.gear point)
                 (DriverTelemetry.drs point)
                 (DriverTelemetry.throttle point)
                 (DriverTelemetry.brake point)
                 (Some (py_float_of_int tyre)))
              drivers_data)
        | None => None
        end
      else Some drivers_data
  | None => Some drivers_data
  end.

(** The body of the loop over [frame_records]. *)
Definition load_frame (db : Database) (driver_id_to_code : pydict Z string)
    (frame_record : TelemetryFrame.row) : option FrameData.dict :=
  let weather :=
    match TelemetryFrame.track_temp frame_record with
    | Some _ =>
        Some (Weather.mk
                (TelemetryFrame.track_temp frame_record)
                (TelemetryFrame.air_temp frame_record)
                (TelemetryFrame.humidity frame_record)
                (TelemetryFrame.wind_speed frame_record)
                (TelemetryFrame.wind_direction frame_record)
                (TelemetryFrame.rain_state frame_record))
    | None => None
    end in
  let telemetry_points :=
    filter (fun p =>
              (DriverTelemetry.frame_id p =? TelemetryFrame.id frame_record)%Z)
           (driver_telemetry db) in
  match try_fold telemetry_points [] (load_point driver_id_to_code) with
  | Some drivers_data =>
      Some (FrameData.mk (Some (TelemetryFrame.time frame_record))
              (TelemetryFrame.lap frame_record) weather drivers_data)
  | None => None
  end.

Definition load_track_status (status : TrackStatus.row) : StatusData.dict :=
  StatusData.mk (Some (TrackStatus.status status))
    (Some (TrackStatus.start_time status)) (TrackStatus.end_time status).

(** The loop over [drivers]: the two dictionaries it fills. *)
Definition load_driver_colors (driver_rows : list Driver.row)
    : pydict string rgb :=
  fold_left (fun acc d =>
    dict_set (Driver.driver_code d)
      (Driver.color_r d, Driver.color_g d, Driver.color_b d) acc)
    driver_rows [].

Definition load_driver_id_to_code (driver_rows : list Driver.row)
    : pydict Z string :=
  fold_left (fun acc d => dict_set (Driver.id d) (Driver.driver_code d) acc)
    driver_rows [].

(** [load_race_telemetry]: the payload, or [None] when the session is not
    stored or the [try] block raised. *)
Definition load_race_telemetry (db : Database) (year round_number : Z)
    (session_type : string) : option TelemetryData.dict :=
  match find_session db year round_number session_type with
  | None => None
  | Some session_record =>
      let driver_rows :=
        filter (fun d => (Driver.session_id d =? Session.id session_record)%Z)
               (drivers db) in
      let driver_colors := load_driver_colors driver_rows in
      let driver_id_to_code := load_driver_id_to_code driver_rows in
      let statuses :=
        order_by (fun a b =>
                    Qle_bool (TrackStatus.start_time a)
                             (TrackStatus.start_time b))
          (filter (fun s =>
                     (TrackStatus.session_id s =? Session.id session_record)%Z)
                  (track_statuses db)) in
      let frame_records :=
        order_by (fun a b =>
                    Qle_bool (TelemetryFrame.time a) (TelemetryFrame.time b))
          (filter (fun f =>
                     (TelemetryFrame.session_id f
                      =? Session.id session_record)%Z)
                  (telemetry_frames db)) in
      match try_map (load_frame db driver_id_to_code) frame_records with
      | Some frames =>
          Some (TelemetryData.mk frames driver_colors
                  (map load_track_status statuses)
                  (Session.total_laps session_record))
      | None => None
      end
  end.

(* ------------------------------------------------------------------ *)
(** ** Qualifying sessions: payloads *)

Module ResultData.
Record dict := mk {
  code : option string;
  full_name : option string;
  position : option Z;
  color : option rgb;
  Q1 : option string;
  Q2 : option string;
  Q3 : option string
}.
End ResultData.

Module SectorTimes.
Record dict := mk {
  sector1 : option Q;
  sector2 : option Q;
  sector3 : option Q
}.
End SectorTimes.

Module SegmentData.
Record dict := mk {
  frames : list json;
  track_statuses : list json;
  drs_zones : option (list json);
  max_speed : option Q;
  min_speed : option Q;
  sector_times : option SectorTimes.dict;
  compound : option Z
}.
End SegmentData.

(** One driver's entry of [telemetry]: the segments by name, beside the
    [full_name] key the exporter adds. *)
Module DriverSegments.
Record dict := mk {
  full_name : option string;
  segments : pydict string SegmentData.dict
}.
End DriverSegments.

Module QualiData.
Record dict := mk {
  results : list ResultData.dict;
  telemetry : pydict string DriverSegments.dict;
  max_speed : option Q;
  min_speed : option Q
}.
End QualiData.

Module CatalogEntry.
Record dict := mk {
  year : Z;
  round : Z;
  session_type : string;
  event_name : string;
  country : option string;
  date : option string
}.
End CatalogEntry.

(* ------------------------------------------------------------------ *)
(** ** Qualifying sessions: [save_qualifying_telemetry] *)

Definition empty_segment : SegmentData.dict :=
  SegmentData.mk [] [] None None None None None.

Definition empty_sector_times : SectorTimes.dict :=
  SectorTimes.mk None None None.

Definition empty_driver_segments : DriverSegments.dict :=
  DriverSegments.mk None [].

(** [float(result_data[q]) if result_data.get(q) else None] *)
Definition lap_time_of (q : option string) : M (option Q) :=
  match q with
  | Some s =>
      if str_truthy s then
        match py_float s with
        | Some x => ret (Some x)
        | None => raise (ValueError s)
        end
      else ret None
  | None => ret None
  end.

(** The body of the loop over [['Q1', 'Q2', 'Q3']]. *)
Definition save_segment (result_id : Z)
    (telemetry : pydict string SegmentData.dict) (segment : string)
    : M unit :=
  let segment_data := dict_get_default segment empty_segment telemetry in
  let frames := SegmentData.frames segment_data in
  match frames with
  | _ :: _ =>
      let sector_times :=
        or_default empty_sector_times
          (SegmentData.sector_times segment_data) in
      add_qualifying_telemetry (fun i =>
        QualifyingTelemetry.mk i result_id segment frames
          (SegmentData.max_speed segment_data)
          (SegmentData.min_speed segment_data)
          (SectorTimes.sector1 sector_times)
          (SectorTimes.sector2 sector_times)
          (SectorTimes.sector3 sector_times)
          (SegmentData.compound segment_data)
          (Some (or_default [] (SegmentData.drs_zones segment_data)))) ;;
      ret tt
  | [] => ret tt
  end.

(** The body of the loop over [quali_data.get('results', [])]. *)
Definition save_result (session_id : Z) (quali_data : QualiData.dict)
    (result_data : ResultData.dict) : M unit :=
  driver_code <- subscript "code" (ResultData.code result_data) ;;
  let '(r, g, b) := or_default default_color (ResultData.color result_data) in
  driver_id <- add_driver (fun i =>
    Driver.mk i session_id driver_code None
      (ResultData.full_name result_data) None r g b) ;;
  flush ;;
  position <- subscript "position" (ResultData.position result_data) ;;
  q1_time <- lap_time_of (ResultData.Q1 result_data) ;;
  q2_time <- lap_time_of (ResultData.Q2 result_data) ;;
  q3_time <- lap_time_of (ResultData.Q3 result_data) ;;
  result_id <- add_qualifying_result (fun i =>
    QualifyingResult.mk i session_id driver_id position
      q1_time q2_time q3_time) ;;
  flush ;;
  let telemetry :=
    DriverSegments.segments
      (dict_get_default driver_code empty_driver_segments
         (QualiData.telemetry quali_data)) in
  for_each ["Q1"; "Q2"; "Q3"]%string (save_segment result_id telemetry).

(** The [Session(...)] record of a qualifying import, before its rowid. *)
Definition qualifying_session (year round_number : Z) (session_type : string)
    (session_info : SessionInfo.dict) (i : Z) : Session.row :=
  Session.mk i year round_number session_type
    (or_default EmptyString (SessionInfo.event_name session_info))
    (Some (or_default EmptyString (SessionInfo.circuit_name session_info)))
    (Some (or_default EmptyString (SessionInfo.country session_info)))
    (Some (or_default EmptyString (SessionInfo.date session_info)))
    None None.

(** The [try] block of [save_qualifying_telemetry]. *)
Definition save_qualifying_body (year round_number : Z)
    (session_type : string) (session_info : SessionInfo.dict)
    (quali_data : QualiData.dict) : M Z :=
  existing_session <-
    read_working (fun db => find_session db year round_number session_type) ;;
  match existing_session with
  | Some existing => ret (Session.id existing)
  | None =>
      session_id <- add_session
        (qualifying_session year round_number session_type session_info) ;;
      flush ;;
      for_each (QualiData.results quali_data)
        (save_result session_id quali_data) ;;
      commit ;;
      ret session_id
  end.

(** [save_qualifying_telemetry] *)
Definition save_qualifying_telemetry (plan : list bool) (db : Database)
    (year round_number : Z) (session_type : string)
    (session_info : SessionInfo.dict) (quali_data : QualiData.dict)
    : option Z * Database :=
  match save_qualifying_body year round_number session_type session_info
          quali_data (get_session plan db) with
  | (u, inr session_id) => (Some session_id, close_session u)
  | (u, inl _) => (None, close_session (rollback u))
  end.

(* ------------------------------------------------------------------ *)
(** ** Qualifying sessions: [load_qualifying_telemetry] *)

(** [str(t) if t else None] *)
Definition lap_time_str (t : option Q) : option string :=
  match t with
  | Some x => if float_truthy x then Some (py_str x) else None
  | None => None
  end.

(** The two updates of the running [max_speed] and [min_speed]. *)
Definition update_max_speed (max_speed : Q)
    (segment_telemetry : QualifyingTelemetry.row) : Q :=
  match QualifyingTelemetry.max_speed segment_telemetry with
  | Some m =>
      if float_truthy m && Qltb max_speed m then m else max_speed
  | None => max_speed
  end.

Definition update_min_speed (min_speed : Q)
    (segment_telemetry : QualifyingTelemetry.row) : Q :=
  match QualifyingTelemetry.min_speed segment_telemetry with
  | Some m =>
      if float_truthy m && (Qltb m min_speed || Qeq_bool min_speed 0)
      then m else min_speed
  | None => min_speed
  end.

Definition load_segment (segment_telemetry : QualifyingTelemetry.row)
    : SegmentData.dict :=
  SegmentData.mk
    (QualifyingTelemetry.frames_json segment_telemetry)
    []
    (Some (match QualifyingTelemetry.drs_zones_json segment_telemetry with
           | Some (z :: zs) => z :: zs
           | _ => []
           end))
    (QualifyingTelemetry.max_speed segment_telemetry)
    (QualifyingTelemetry.min_speed segment_telemetry)
    (Some (SectorTimes.mk
             (QualifyingTelemetry.sector1_time segment_telemetry)
             (QualifyingTelemetry.sector2_time segment_telemetry)
             (QualifyingTelemetry.sector3_time segment_telemetry)))
    (QualifyingTelemetry.compound segment_telemetry).

(** What the loop over [quali_results] carries from one turn to the next. *)
Record QualiLoad := mkQualiLoad {
  ql_results : list ResultData.dict;
  ql_telemetry : pydict string DriverSegments.dict;
  ql_max_speed : Q;
  ql_min_speed : Q
}.

(** The body of the loop over [result.telemetry_data]: the driver's segment
    dictionary and the two running speeds. *)
Definition load_segment_step
    (acc : pydict string SegmentData.dict * Q * Q)
    (segment_telemetry : QualifyingTelemetry.row)
    : pydict string SegmentData.dict * Q * Q :=
  let '(driver_telemetry, max_speed, min_speed) := acc in
  (dict_set (QualifyingTelemetry.segment segment_telemetry)
     (load_segment segment_telemetry) driver_telemetry,
   update_max_speed max_speed segment_telemetry,
   update_min_speed min_speed segment_telemetry).

(** The entry of [results] for one result row and its driver. *)
Definition load_result_entry (driver : Driver.row)
    (result : QualifyingResult.row) : ResultData.dict :=
  ResultData.mk
    (Some (Driver.driver_code driver))
    (Driver.full_name driver)
    (Some (QualifyingResult.position result))
    (Some (Driver.color_r driver, Driver.color_g driver,
           Driver.color_b driver))
    (lap_time_str (QualifyingResult.q1_time result))
    (lap_time_str (QualifyingResult.q2_time result))
    (lap_time_str (QualifyingResult.q3_time result)).

(** The body of the loop over [quali_results]; a result whose driver row is
    missing raises ([result.driver] is [None]). *)
Definition load_result (db : Database) (acc : QualiLoad)
    (result : QualifyingResult.row) : option QualiLoad :=
  match find (fun d => (Driver.id d =? QualifyingResult.driver_id result)%Z)
             (drivers db) with
  | None => None
  | Some driver =>
      let telemetry_data :=
        filter (fun qt =>
                  (QualifyingTelemetry.result_id qt
                   =? QualifyingResult.id result)%Z)
               (qualifying_telemetry db) in
      let '(driver_telemetry, max_speed, min_speed) :=
        fold_left load_segment_step telemetry_data
          ([], ql_max_speed acc, ql_min_speed acc) in
      Some (mkQualiLoad
              (ql_results acc ++ [load_result_entry driver result])
              (dict_set (Driver.driver_code driver)
                 (DriverSegments.mk (Driver.full_name driver)
                    driver_telemetry)
                 (ql_telemetry acc))
              max_speed min_speed)
  end.

(** [load_qualifying_telemetry] *)
Definition load_qualifying_telemetry (db : Database) (year round_number : Z)
    (session_type : string) : option QualiData.dict :=
  match find_session db year round_number session_type with
  | None => None
  | Some session_record =>
      let quali_results :=
        order_by (fun a b =>
                    (QualifyingResult.position a
                     <=? QualifyingResult.position b)%Z)
          (filter (fun r =>
                     (QualifyingResult.session_id r
                      =? Session.id session_record)%Z)
                  (qualifying_results db)) in
      match try_fold quali_results (mkQualiLoad [] [] 0 0) (load_result db)
      with
      | Some acc =>
          Some (QualiData.mk (ql_results acc) (ql_telemetry acc)
                  (Some (ql_max_speed acc)) (Some (ql_min_speed acc)))
      | None => None
      end
  end.

(* ------------------------------------------------------------------ *)
(** ** The catalogue: [get_all_sessions] *)

(** [ORDER BY year DESC, round_number DESC] *)
Definition catalog_le (a b : Session.row) : bool :=
  (Session.year b <? Session.year a)%Z
  || ((Session.year a =? Session.year b)%Z
      && (Session.round_number b <=? Session.round_number a)%Z).

Definition catalog_entry (s : Session.row) : CatalogEntry.dict :=
  CatalogEntry.mk (Session.year s) (Session.round_number s)
    (Session.session_type s) (Session.event_name s) (Session.country s)
    (Session.event_date s).

Definition get_all_sessions (db : Database) : list CatalogEntry.dict :=
  map catalog_entry (order_by catalog_le (sessions db)).

(* ================================================================== *)
(** * Properties *)

(** ** The unit of work on its success and failure paths *)

Lemma bind_inr {A B} (c : M A) (k : A -> M B) u u' b :
  bind c k u = (u', inr b) ->
  exists u1 a, c u = (u1, inr a) /\ k a u1 = (u', inr b).
Proof.
  unfold bind. destruct (c u) as [u1 [e | a]]; intros E.
  - discriminate.
  - eauto.
Qed.

Lemma bind_inl {A B} (c : M A) (k : A -> M B) u u' e :
  bind c k u = (u', inl e) ->
  c u = (u', inl e) \/ exists u1 a, c u = (u1, inr a) /\ k a u1 = (u', inl e).
Proof.
  unfold bind. destruct (c u) as [u1 [e1 | a]]; intros E.
  - left. inversion E; subst. reflexivity.
  - right. eauto.
Qed.

(** A property of the unit of work that a computation keeps, however it
    ends. *)
Definition preserves {A} (I : UnitOfWork -> Prop) (c : M A) : Prop :=
  forall u, I u -> I (fst (c u)).

Lemma preserves_ret {A} I (a : A) : preserves I (ret a).
Proof. intros u Hu. exact Hu. Qed.

Lemma preserves_raise {A} I e : preserves I (@raise A e).
Proof. intros u Hu. exact Hu. Qed.

Lemma preserves_bind {A B} I (c : M A) (k : A -> M B) :
  preserves I c -> (forall a, preserves I (k a)) -> preserves I (bind c k).
Proof.
  intros Hc Hk u Hu. unfold bind.
  specialize (Hc u Hu). destruct (c u) as [u1 [e | a]]; simpl in *.
  - exact Hc.
  - apply Hk. exact Hc.
Qed.

Lemma preserves_subscript {A} I key (o : option A) :
  preserves I (subscript key o).
Proof. destruct o; [apply preserves_ret | apply preserves_raise]. Qed.

Lemma preserves_for_each {A} I (l : list A) body :
  (forall a, preserves I (body a)) -> preserves I (for_each l body).
Proof.
  intros Hb. induction l as [| a r IH]; simpl.
  - apply preserves_ret.
  - apply preserves_bind; auto.
Qed.

Lemma preserves_for_fold {A S} I (l : list A) (s : S) body :
  (forall s a, preserves I (body s a)) -> preserves I (for_fold l s body).
Proof.
  intros Hb. revert s. induction l as [| a r IH]; intros s; simpl.
  - apply preserves_ret.
  - apply preserves_bind; auto.
Qed.

Lemma preserves_read_working {A} I (f : Database -> A) :
  preserves I (read_working f).
Proof. intros u Hu. exact Hu. Qed.

(** Properties that only look at the two databases are kept by a call into
    the storage engine whatever the plan says. *)
Definition plan_blind (I : UnitOfWork -> Prop) : Prop :=
  forall c w p p', I (mkUnit c w p) -> I (mkUnit c w p').

Lemma preserves_storage_call I : plan_blind I -> preserves I storage_call.
Proof.
  intros Hb [c w p] Hu. unfold storage_call; simpl.
  destruct p as [| f p]; simpl.
  - exact Hu.
  - eapply Hb. exact Hu.
Qed.

Lemma preserves_update_working I f :
  (forall c w p, I (mkUnit c w p) -> I (mkUnit c (f w) p)) ->
  preserves I (update_working f).
Proof. intros Hf [c w p] Hu. simpl. apply Hf. exact Hu. Qed.

Lemma preserves_commit I :
  plan_blind I ->
  (forall c w p, I (mkUnit c w p) -> I (mkUnit w w p)) ->
  preserves I commit.
Proof.
  intros Hb Hc. unfold commit. apply preserves_bind.
  - apply preserves_storage_call. exact Hb.
  - intros _ [c w p] Hu. simpl. apply Hc with (c := c). exact Hu.
Qed.

(** ** Lookup by natural key *)

Lemma find_session_none db year round_number session_type :
  (forall s, In s (sessions db) ->
             session_matches year round_number session_type s = false) ->
  find_session db year round_number session_type = None.
Proof.
  unfold find_session. induction (sessions db) as [| s r IH]; intros Hn.
  - reflexivity.
  - simpl. rewrite (Hn s (or_introl eq_refl)). apply IH.
    intros s' Hs'. apply Hn. right. exact Hs'.
Qed.

Lemma find_session_some db year round_number session_type :
  (exists s, In s (sessions db) /\
             session_matches year round_number session_type s = true) ->
  exists s, find_session db year round_number session_type = Some s /\
            In s (sessions db) /\
            session_matches year round_number session_type s = true.
Proof.
  unfold find_session. intros [s0 [Hin Hm]].
  destruct (find (session_matches year round_number session_type)
                 (sessions db)) as [s |] eqn:E.
  - exists s. apply find_some in E. tauto.
  - exfalso. eapply find_none in E; eauto. congruence.
Qed.

(** ** What the loop bodies keep

    The loop bodies of the two importers only add rows to tables other
    than [sessions] and call [flush]; a property that such steps keep is
    kept by every loop body, and by the loops once it survives [commit]. *)

Section Preservation.

Variable I : UnitOfWork -> Prop.
Hypothesis I_blind : plan_blind I.
Hypothesis I_update :
  forall f, (forall db, sessions (f db) = sessions db) ->
  forall c w p, I (mkUnit c w p) -> I (mkUnit c (f w) p).

Lemma preserves_flush : preserves I flush.
Proof. apply preserves_storage_call. exact I_blind. Qed.

Ltac keep :=
  repeat first
    [ apply preserves_ret
    | apply preserves_raise
    | apply preserves_subscript
    | apply preserves_read_working
    | apply preserves_flush
    | apply preserves_update_working; apply I_update; reflexivity
    | apply preserves_bind; [| intros ?] ].

Lemma preserves_add_driver r : preserves I (add_driver r).
Proof. unfold add_driver. keep. Qed.

Lemma preserves_add_frame r : preserves I (add_frame r).
Proof. unfold add_frame. keep. Qed.

Lemma preserves_add_driver_telemetry r :
  preserves I (add_driver_telemetry r).
Proof. unfold add_driver_telemetry. keep. Qed.

Lemma preserves_add_track_status r : preserves I (add_track_status r).
Proof. unfold add_track_status. keep. Qed.

Lemma preserves_add_qualifying_result r :
  preserves I (add_qualifying_result r).
Proof. unfold add_qualifying_result. keep. Qed.

Lemma preserves_add_qualifying_telemetry r :
  preserves I (add_qualifying_telemetry r).
Proof. unfold add_qualifying_telemetry. keep. Qed.

Lemma preserves_lap_time_of q : preserves I (lap_time_of q).
Proof.
  unfold lap_time_of. destruct q as [s |]; keep.
  destruct (str_truthy s); keep. destruct (py_float s); keep.
Qed.

Ltac keep_rows :=
  repeat first
    [ apply preserves_lap_time_of
    | apply preserves_add_driver
    | apply preserves_add_frame
    | apply preserves_add_driver_telemetry
    | apply preserves_add_track_status
    | apply preserves_add_qualifying_result
    | apply preserves_add_qualifying_telemetry
    | progress keep ].

Lemma preserves_save_driver sid colors dm code :
  preserves I (save_driver sid colors dm code).
Proof.
  unfold save_driver.
  destruct (dict_get_default code default_color colors) as [[r g] b].
  keep_rows.
Qed.

Lemma preserves_save_track_status sid sd :
  preserves I (save_track_status sid sd).
Proof. unfold save_track_status. keep_rows. Qed.

Lemma preserves_save_driver_data fid dm item :
  preserves I (save_driver_data fid dm item).
Proof.
  unfold save_driver_data. destruct item as [code d].
  destruct (dict_get code dm); keep_rows.
Qed.

Lemma preserves_save_frame sid dm f : preserves I (save_frame sid dm f).
Proof.
  unfold save_frame. keep_rows.
  apply preserves_for_each. intros item. apply preserves_save_driver_data.
Qed.

Lemma preserves_save_segment rid tel seg :
  preserves I (save_segment rid tel seg).
Proof.
  unfold save_segment.
  destruct (SegmentData.frames (dict_get_default seg empty_segment tel));
    keep_rows.
Qed.

Lemma preserves_save_result sid qd rd : preserves I (save_result sid qd rd).
Proof.
  unfold save_result. keep.
  destruct (or_default default_color (ResultData.color rd)) as [[r g] b].
  keep_rows; apply preserves_save_segment.
Qed.

(** Everything [save_race_body] does between the first [flush] and the
    batches. *)
Lemma preserves_race_drivers sid colors codes dm :
  preserves I (for_fold codes dm (save_driver sid colors)).
Proof. apply preserves_for_fold. intros. apply preserves_save_driver. Qed.

Lemma preserves_race_statuses sid sts :
  preserves I (for_each sts (save_track_status sid)).
Proof. apply preserves_for_each. intros. apply preserves_save_track_status. Qed.

Lemma preserves_race_batch sid dm fs :
  preserves I (for_each fs (save_frame sid dm)).
Proof. apply preserves_for_each. intros. apply preserves_save_frame. Qed.

Lemma preserves_quali_results sid qd rs :
  preserves I (for_each rs (save_result sid qd)).
Proof. apply preserves_for_each. intros. apply preserves_save_result. Qed.

End Preservation.

Section CommitPreservation.

Variable I : UnitOfWork -> Prop.
Hypothesis I_blind : plan_blind I.
Hypothesis I_update :
  forall f, (forall db, sessions (f db) = sessions db) ->
  forall c w p, I (mkUnit c w p) -> I (mkUnit c (f w) p).
Hypothesis I_commit : forall c w p, I (mkUnit c w p) -> I (mkUnit w w p).

Lemma preserves_save_batches sid dm frames :
  preserves I (save_batches sid dm frames).
Proof.
  unfold save_batches. apply preserves_for_each. intros i.
  apply preserves_bind.
  - apply preserves_race_batch; assumption.
  - intros _. apply preserves_commit; assumption.
Qed.

Lemma preserves_save_race_rows sid data :
  preserves I (save_race_rows sid data).
Proof.
  unfold save_race_rows. apply preserves_bind.
  - destruct (TelemetryData.frames data).
    + apply preserves_ret.
    + apply preserves_race_drivers; assumption.
  - intros dm. apply preserves_bind.
    + apply preserves_race_statuses; assumption.
    + intros _. apply preserves_save_batches.
Qed.

End CommitPreservation.

(** ** The [sessions] table across an import

    Once the session row is added, nothing the importers do touches the
    [sessions] table: what is committed is either the store as it was or a
    store with exactly that one more session. *)

Definition sessions_kept (db0 : Database) (S : list Session.row)
    (u : UnitOfWork) : Prop :=
  sessions (working u) = S /\
  (committed u = db0 \/ sessions (committed u) = S).

Lemma sessions_kept_blind db0 S : plan_blind (sessions_kept db0 S).
Proof. intros c w p p' H. exact H. Qed.

Lemma sessions_kept_update db0 S f :
  (forall db, sessions (f db) = sessions db) ->
  forall c w p, sessions_kept db0 S (mkUnit c w p) ->
                sessions_kept db0 S (mkUnit c (f w) p).
Proof.
  intros Hf c w p [Hw Hc]. split; simpl in *.
  - rewrite Hf. exact Hw.
  - exact Hc.
Qed.

Lemma sessions_kept_commit db0 S c w p :
  sessions_kept db0 S (mkUnit c w p) -> sessions_kept db0 S (mkUnit w w p).
Proof. intros [Hw Hc]. split; simpl in *; auto. Qed.

(** A computation that ends with [ret a] returns [a] when it returns. *)
Lemma then_ret_inr {A B} (c : M A) (b : B) u u' b' :
  (c ;; ret b) u = (u', inr b') -> b' = b.
Proof.
  intros E. apply bind_inr in E. destruct E as (u1 & a & _ & E).
  unfold ret in E. congruence.
Qed.

Lemma then_then_ret_inr {A B C} (c : M A) (d : M B) (x : C) u u' x' :
  (c ;; d ;; ret x) u = (u', inr x') -> x' = x.
Proof.
  intros E. apply bind_inr in E. destruct E as (u1 & a & _ & E).
  eapply then_ret_inr. exact E.
Qed.

Lemma add_session_run r u :
  add_session r u =
  (mkUnit (committed u)
     (with_session (r (next_id (map Session.id (sessions (working u)))))
        (working u))
     (faults u),
   inr (next_id (map Session.id (sessions (working u))))).
Proof. reflexivity. Qed.

Lemma save_race_body_fresh year round_number session_type info data u :
  find_session (working u) year round_number session_type = None ->
  let i := next_id (map Session.id (sessions (working u))) in
  save_race_body year round_number session_type info data u =
  (flush ;; save_race_rows i data ;; ret i)
    (mkUnit (committed u)
       (with_session
          (race_session year round_number session_type info data i)
          (working u))
       (faults u)).
Proof.
  intros Hfind i. unfold save_race_body.
  unfold bind at 1. unfold read_working at 1. rewrite Hfind.
  unfold bind at 1. rewrite add_session_run. reflexivity.
Qed.

Lemma save_race_body_existing year round_number session_type info data u s :
  find_session (working u) year round_number session_type = Some s ->
  save_race_body year round_number session_type info data u
  = (u, inr (Session.id s)).
Proof.
  intros Hfind. unfold save_race_body.
  unfold bind at 1. unfold read_working at 1. rewrite Hfind. reflexivity.
Qed.

Lemma save_qualifying_body_fresh year round_number session_type info qd u :
  find_session (working u) year round_number session_type = None ->
  let i := next_id (map Session.id (sessions (working u))) in
  save_qualifying_body year round_number session_type info qd u =
  (flush ;; for_each (QualiData.results qd) (save_result i qd) ;;
   commit ;; ret i)
    (mkUnit (committed u)
       (with_session
          (qualifying_session year round_number session_type info i)
          (working u))
       (faults u)).
Proof.
  intros Hfind i. unfold save_qualifying_body.
  unfold bind at 1. unfold read_working at 1. rewrite Hfind.
  unfold bind at 1. rewrite add_session_run. reflexivity.
Qed.

Lemma save_qualifying_body_existing year round_number session_type info qd
    u s :
  find_session (working u) year round_number session_type = Some s ->
  save_qualifying_body year round_number session_type info qd u
  = (u, inr (Session.id s)).
Proof.
  intros Hfind. unfold save_qualifying_body.
  unfold bind at 1. unfold read_working at 1. rewrite Hfind. reflexivity.
Qed.

Lemma save_race_sessions plan db year round_number session_type info data :
  find_session db year round_number session_type = None ->
  let new := race_session year round_number session_type info data
               (next_id (map Session.id (sessions db))) in
  let r := save_race_telemetry plan db year round_number session_type
             info data in
  (snd r = db \/ sessions (snd r) = sessions db ++ [new]) /\
  (forall sid, fst r = Some sid -> sid = Session.id new).
Proof.
  intros Hfind new r. subst r. unfold save_race_telemetry.
  rewrite save_race_body_fresh by exact Hfind. simpl working. simpl faults.
  simpl committed. fold new.
  set (i := next_id (map Session.id (sessions db))).
  set (u1 := mkUnit db (with_session new db) plan).
  assert (HI : sessions_kept db (sessions db ++ [new]) u1).
  { split; simpl; auto. }
  assert (HP : preserves (sessions_kept db (sessions db ++ [new]))
                 (flush ;; save_race_rows i data ;; ret i)).
  { apply preserves_bind.
    - apply preserves_flush. apply sessions_kept_blind.
    - intros _. apply preserves_bind.
      + apply preserves_save_race_rows.
        * apply sessions_kept_blind.
        * intros f Hf. apply sessions_kept_update. exact Hf.
        * apply sessions_kept_commit.
      + intros _. apply preserves_ret. }
  specialize (HP u1 HI).
  destruct ((flush ;; save_race_rows i data ;; ret i) u1)
    as [u2 [e | sid]] eqn:E; simpl in *.
  - split; [| discriminate]. destruct HP as [_ HP]. exact HP.
  - split.
    + destruct HP as [_ HP]. exact HP.
    + intros sid' Hs. inversion Hs; subst sid'.
      apply then_then_ret_inr in E. subst sid. reflexivity.
Qed.

Lemma save_qualifying_sessions plan db year round_number session_type info
    qd :
  find_session db year round_number session_type = None ->
  let new := qualifying_session year round_number session_type info
               (next_id (map Session.id (sessions db))) in
  let r := save_qualifying_telemetry plan db year round_number session_type
             info qd in
  (snd r = db \/ sessions (snd r) = sessions db ++ [new]) /\
  (forall sid, fst r = Some sid -> sid = Session.id new).
Proof.
  intros Hfind new r. subst r. unfold save_qualifying_telemetry.
  rewrite save_qualifying_body_fresh by exact Hfind. simpl working.
  simpl faults. simpl committed. fold new.
  set (i := next_id (map Session.id (sessions db))).
  set (u1 := mkUnit db (with_session new db) plan).
  set (T := (flush ;; for_each (QualiData.results qd) (save_result i qd) ;;
             commit ;; ret i)).
  assert (HI : sessions_kept db (sessions db ++ [new]) u1).
  { split; simpl; auto. }
  assert (HP : preserves (sessions_kept db (sessions db ++ [new])) T).
  { apply preserves_bind.
    - apply preserves_flush. apply sessions_kept_blind.
    - intros _. apply preserves_bind.
      + apply preserves_quali_results.
        * apply sessions_kept_blind.
        * intros f Hf. apply sessions_kept_update. exact Hf.
      + intros _. apply preserves_bind.
        * apply preserves_commit.
          -- apply sessions_kept_blind.
          -- apply sessions_kept_commit.
        * intros _. apply preserves_ret. }
  specialize (HP u1 HI).
  destruct (T u1) as [u2 [e | sid]] eqn:E; simpl in *.
  - split; [| discriminate]. destruct HP as [_ HP]. exact HP.
  - split.
    + destruct HP as [_ HP]. exact HP.
    + intros sid' Hs. inversion Hs; subst sid'. subst T.
      apply bind_inr in E. destruct E as (u3 & a & _ & E).
      apply then_then_ret_inr in E. subst sid. reflexivity.
Qed.

Lemma find_session_app_new db year round_number session_type new S :
  find_session db year round_number session_type = None ->
  sessions S = sessions db ++ [new] ->
  find_session S year round_number session_type =
  if session_matches year round_number session_type new then Some new
  else None.
Proof.
  unfold find_session. intros Hn HS. rewrite HS. clear HS. revert Hn.
  induction (sessions db) as [| s r IH]; simpl; intros Hn.
  - destruct (session_matches year round_number session_type new);
      reflexivity.
  - destruct (session_matches year round_number session_type s).
    + discriminate.
    + apply IH. exact Hn.
Qed.

Lemma race_session_matches year round_number session_type info data i :
  session_matches year round_number session_type
    (race_session year round_number session_type info data i) = true.
Proof.
  unfold session_matches, race_session; simpl.
  rewrite !Z.eqb_refl, String.eqb_refl. reflexivity.
Qed.

Lemma qualifying_session_matches year round_number session_type info i :
  session_matches year round_number session_type
    (qualifying_session year round_number session_type info i) = true.
Proof.
  unfold session_matches, qualifying_session; simpl.
  rewrite !Z.eqb_refl, String.eqb_refl. reflexivity.
Qed.

Lemma save_race_existing plan db year round_number session_type info data s :
  find_session db year round_number session_type = Some s ->
  save_race_telemetry plan db year round_number session_type info data
  = (Some (Session.id s), db).
Proof.
  intros Hfind. unfold save_race_telemetry.
  rewrite save_race_body_existing with (s := s) by exact Hfind.
  reflexivity.
Qed.

Lemma save_qualifying_existing plan db year round_number session_type info
    qd s :
  find_session db year round_number session_type = Some s ->
  save_qualifying_telemetry plan db year round_number session_type info qd
  = (Some (Session.id s), db).
Proof.
  intros Hfind. unfold save_qualifying_telemetry.
  rewrite save_qualifying_body_existing with (s := s) by exact Hfind.
  reflexivity.
Qed.

(** The identifier an import returned is the identifier of the session a
    later lookup of the key finds. *)
Lemma save_race_returns_stored plan db0 db year round_number session_type
    info data sid s :
  save_race_telemetry plan db0 year round_number session_type info data
  = (Some sid, db) ->
  find_session db year round_number session_type = Some s ->
  sid = Session.id s.
Proof.
  intros Hsave Hfind.
  destruct (find_session db0 year round_number session_type) as [s0 |] eqn:E0.
  - rewrite (@save_race_existing plan _ _ _ _ info data _ E0) in Hsave.
    inversion Hsave; subst. rewrite E0 in Hfind. congruence.
  - pose proof (@save_race_sessions plan _ _ _ _ info data E0) as H.
    cbv zeta in H. rewrite Hsave in H. simpl in H. destruct H as [Hdb Hid].
    destruct Hdb as [Hdb | Hdb].
    + subst db. congruence.
    + rewrite (@find_session_app_new _ _ _ _ _ _ E0 Hdb) in Hfind.
      rewrite race_session_matches in Hfind. inversion Hfind; subst s.
      apply Hid. reflexivity.
Qed.

Lemma save_qualifying_returns_stored plan db0 db year round_number
    session_type info qd sid s :
  save_qualifying_telemetry plan db0 year round_number session_type info qd
  = (Some sid, db) ->
  find_session db year round_number session_type = Some s ->
  sid = Session.id s.
Proof.
  intros Hsave Hfind.
  destruct (find_session db0 year round_number session_type) as [s0 |] eqn:E0.
  - rewrite (@save_qualifying_existing plan _ _ _ _ info qd _ E0) in Hsave.
    inversion Hsave; subst. rewrite E0 in Hfind. congruence.
  - pose proof (@save_qualifying_sessions plan _ _ _ _ info qd E0) as H.
    cbv zeta in H. rewrite Hsave in H. simpl in H. destruct H as [Hdb Hid].
    destruct Hdb as [Hdb | Hdb].
    + subst db. congruence.
    + rewrite (@find_session_app_new _ _ _ _ _ _ E0 Hdb) in Hfind.
      rewrite qualifying_session_matches in Hfind. inversion Hfind; subst s.
      apply Hid. reflexivity.
Qed.

(* ------------------------------------------------------------------ *)
(** ** Absent keys *)





(* ------------------------------------------------------------------ *)
(** ** Importing a key twice *)

(** C3: when a session is already stored under the natural key, an
    import (race or qualifying, any payload, any fault plan) returns the
    identifier of that session and leaves the store as it was; and when the
    store is itself what an earlier import of that key left, the identifier
    returned now is the one returned then. *)
Theorem reimport_is_a_noop plan db year round_number session_type info data
    qd :
  (exists s, In s (sessions db) /\
             session_matches year round_number session_type s = true) ->
  exists s,
    In s (sessions db) /\
    session_matches year round_number session_type s = true /\
    save_race_telemetry plan db year round_number session_type info data
    = (Some (Session.id s), db) /\
    save_qualifying_telemetry plan db year round_number session_type info qd
    = (Some (Session.id s), db) /\
    (forall plan0 db0 info0 data0 sid,
       save_race_telemetry plan0 db0 year round_number session_type info0
         data0 = (Some sid, db) -> sid = Session.id s) /\
    (forall plan0 db0 info0 qd0 sid,
       save_qualifying_telemetry plan0 db0 year round_number session_type
         info0 qd0 = (Some sid, db) -> sid = Session.id s).
Proof.
  intros Hex. apply find_session_some in Hex.
  destruct Hex as (s & Hfind & Hin & Hm). exists s.
  repeat split; auto.
  - apply save_race_existing. exact Hfind.
  - apply save_qualifying_existing. exact Hfind.
  - intros plan0 db0 info0 data0 sid Hsave.
    eapply save_race_returns_stored; eauto.
  - intros plan0 db0 info0 qd0 sid Hsave.
    eapply save_qualifying_returns_stored; eauto.
Qed.

(** *** A worked example: three frames, two drivers, one open-ended
    track status (scenario A of the specification) *)

Definition sample_point (x : Q) (position : Z) (tyre : Q) : DriverData.dict :=
  DriverData.mk (Some x) (Some 12%Q) (Some 100%Q) None (Some position)
    (Some 1%Z) (Some 281%Q) (Some 7%Z) None (Some 100%Q) (Some 0%Q)
    (Some tyre).

Definition sample_weather : Weather.dict :=
  Weather.mk (Some 41%Q) (Some 27%Q) (Some 40%Q) (Some 2%Q) (Some 180%Q)
    (Some "DRY"%string).

Definition sample_frame (t : Q) (w : option Weather.dict) : FrameData.dict :=
  FrameData.mk (Some t) (Some 1%Z) w
    [("VER"%string, sample_point (3 * t) 1 1);
     ("HAM"%string, sample_point (2 * t) 2 2)].

Definition sample_info : SessionInfo.dict :=
  SessionInfo.mk (Some "Monaco Grand Prix"%string) (Some "Monaco"%string)
    (Some "Monaco"%string) (Some "2024-05-26"%string) (Some 42%Q).

Definition sample_race : TelemetryData.dict :=
  TelemetryData.mk
    [sample_frame 0 (Some sample_weather); sample_frame 1 None;
     sample_frame 2 (Some sample_weather)]
    [("VER"%string, (6, 0, 255)%Z)]
    [StatusData.mk (Some "4"%string) (Some 1%Q) None]
    (Some 78%Z).

(** The store after the sample race is imported into an empty store. *)
Definition sample_store : Database :=
  Eval vm_compute in
    snd (save_race_telemetry [] empty_database 2024 5 "R" sample_info
           sample_race).



Lemma reimport_is_a_noop_witness :
  exists s,
    In s (sessions sample_store) /\
    session_matches 2024 5 "R" s = true /\
    save_race_telemetry [true] sample_store 2024 5 "R" sample_info sample_race
    = (Some (Session.id s), sample_store) /\
    save_qualifying_telemetry [true] sample_store 2024 5 "R" sample_info
      (QualiData.mk [] [] None None)
    = (Some (Session.id s), sample_store) /\
    (forall plan0 db0 info0 data0 sid,
       save_race_telemetry plan0 db0 2024 5 "R" info0 data0
       = (Some sid, sample_store) -> sid = Session.id s) /\
    (forall plan0 db0 info0 qd0 sid,
       save_qualifying_telemetry plan0 db0 2024 5 "R" info0 qd0
       = (Some sid, sample_store) -> sid = Session.id s).
Proof.
  apply (@reimport_is_a_noop [true] sample_store 2024 5 "R" sample_info
           sample_race (QualiData.mk [] [] None None)).
  eexists. split.
  - simpl. left. reflexivity.
  - reflexivity.
Defined.

(* ------------------------------------------------------------------ *)
(** ** [ORDER BY] *)

Section OrderBy.

Variable A : Type.
Variable le : A -> A -> bool.
Hypothesis le_total : forall a b, le a b = true \/ le b a = true.
Hypothesis le_trans :
  forall a b c, le a b = true -> le b c = true -> le a c = true.

Let R (a b : A) : Prop := le a b = true.

Lemma insert_by_perm a l : Permutation (insert_by le a l) (a :: l).
Proof.
  induction l as [| b r IH]; simpl.
  - apply Permutation_refl.
  - destruct (le a b).
    + apply Permutation_refl.
    + eapply Permutation_trans.
      * apply perm_skip. exact IH.
      * apply perm_swap.
Qed.

Lemma order_by_perm l : Permutation (order_by le l) l.
Proof.
  induction l as [| a r IH]; simpl.
  - apply Permutation_refl.
  - eapply Permutation_trans.
    + apply insert_by_perm.
    + apply perm_skip. exact IH.
Qed.

Lemma insert_by_hdrel a b l :
  R b a -> HdRel R b l -> HdRel R b (insert_by le a l).
Proof.
  intros Hba Hl. destruct l as [| c r]; simpl.
  - constructor. exact Hba.
  - destruct (le a c).
    + constructor. exact Hba.
    + constructor. inversion Hl; subst. assumption.
Qed.

Lemma insert_by_sorted a l : Sorted R l -> Sorted R (insert_by le a l).
Proof.
  induction l as [| b r IH]; simpl; intros Hs.
  - repeat constructor.
  - destruct (le a b) eqn:E.
    + constructor; [exact Hs | constructor; exact E].
    + inversion Hs; subst. constructor.
      * apply IH. assumption.
      * apply insert_by_hdrel; [| assumption].
        destruct (le_total a b) as [H | H]; [congruence | exact H].
Qed.

Lemma order_by_sorted l : Sorted R (order_by le l).
Proof.
  induction l as [| a r IH]; simpl.
  - constructor.
  - apply insert_by_sorted. exact IH.
Qed.

Lemma order_by_strongly_sorted l : StronglySorted R (order_by le l).
Proof.
  apply Sorted_StronglySorted.
  - intros a b c. apply le_trans.
  - apply order_by_sorted.
Qed.

(** Rows already in order stay as they are. *)
Lemma insert_by_head a l :
  HdRel R a l -> insert_by le a l = a :: l.
Proof.
  intros Hh. destruct l as [| b r]; simpl.
  - reflexivity.
  - inversion Hh; subst. unfold R in *.
    match goal with H : le a b = true |- _ => rewrite H end. reflexivity.
Qed.

Lemma order_by_id l : Sorted R l -> order_by le l = l.
Proof.
  induction l as [| a r IH]; simpl; intros Hs.
  - reflexivity.
  - inversion Hs; subst. rewrite IH by assumption.
    apply insert_by_head. assumption.
Qed.

End OrderBy.

(** The order of floats, of integers and of the catalogue. *)
Lemma Qle_bool_total a b : Qle_bool a b = true \/ Qle_bool b a = true.
Proof.
  rewrite !Qle_bool_iff. destruct (Qlt_le_dec a b) as [H | H].
  - left. apply Qlt_le_weak. exact H.
  - right. exact H.
Qed.

Lemma Qle_bool_trans a b c :
  Qle_bool a b = true -> Qle_bool b c = true -> Qle_bool a c = true.
Proof. rewrite !Qle_bool_iff. apply Qle_trans. Qed.

Lemma catalog_le_total a b : catalog_le a b = true \/ catalog_le b a = true.
Proof.
  unfold catalog_le.
  destruct (Z.ltb_spec (Session.year b) (Session.year a));
  destruct (Z.ltb_spec (Session.year a) (Session.year b));
  destruct (Z.eqb_spec (Session.year a) (Session.year b));
  destruct (Z.eqb_spec (Session.year b) (Session.year a));
  destruct (Z.leb_spec (Session.round_number b) (Session.round_number a));
  destruct (Z.leb_spec (Session.round_number a) (Session.round_number b));
  simpl; auto; lia.
Qed.

Lemma catalog_le_trans a b c :
  catalog_le a b = true -> catalog_le b c = true -> catalog_le a c = true.
Proof.
  unfold catalog_le.
  destruct (Z.ltb_spec (Session.year b) (Session.year a));
  destruct (Z.ltb_spec (Session.year c) (Session.year b));
  destruct (Z.ltb_spec (Session.year c) (Session.year a));
  destruct (Z.eqb_spec (Session.year a) (Session.year b));
  destruct (Z.eqb_spec (Session.year b) (Session.year c));
  destruct (Z.eqb_spec (Session.year a) (Session.year c));
  destruct (Z.leb_spec (Session.round_number b) (Session.round_number a));
  destruct (Z.leb_spec (Session.round_number c) (Session.round_number b));
  destruct (Z.leb_spec (Session.round_number c) (Session.round_number a));
  simpl; auto; try discriminate; lia.
Qed.

(* ------------------------------------------------------------------ *)
(** ** The order of what is exported *)

(** Two optional values in non-decreasing / increasing order; a missing
    value is in no order. *)
Definition opt_Qle (a b : option Q) : Prop :=
  match a, b with Some x, Some y => (x <= y)%Q | _, _ => False end.

Definition opt_Qlt (a b : option Q) : Prop :=
  match a, b with Some x, Some y => (x < y)%Q | _, _ => False end.

Definition opt_Zle (a b : option Z) : Prop :=
  match a, b with Some x, Some y => (x <= y)%Z | _, _ => False end.

(** [year] descending, then [round] descending. *)
Definition catalog_order (a b : CatalogEntry.dict) : Prop :=
  (CatalogEntry.year b < CatalogEntry.year a)%Z \/
  (CatalogEntry.year a = CatalogEntry.year b /\
   (CatalogEntry.round b <= CatalogEntry.round a)%Z).

Lemma StronglySorted_map_of {A B} (R : A -> A -> Prop) (S : B -> B -> Prop)
    (g : A -> B) l :
  (forall a b, R a b -> S (g a) (g b)) ->
  StronglySorted R l -> StronglySorted S (map g l).
Proof.
  intros HRS Hs. induction Hs as [| a l Hs IH Hall]; simpl.
  - constructor.
  - constructor; [exact IH |].
    rewrite Forall_forall in *. intros y Hy.
    apply in_map_iff in Hy. destruct Hy as (b & <- & Hb). auto.
Qed.

Lemma try_map_keys {A B C} (f : A -> option B) (ka : A -> C) (kb : B -> C)
    l l' :
  (forall a b, f a = Some b -> kb b = ka a) ->
  try_map f l = Some l' -> map kb l' = map ka l.
Proof.
  intros Hk. revert l'. induction l as [| a r IH]; simpl; intros l' E.
  - inversion E. reflexivity.
  - destruct (f a) as [b |] eqn:Ea; [| discriminate].
    destruct (try_map f r) as [bs |]; [| discriminate].
    inversion E; subst. simpl. rewrite (Hk _ _ Ea). f_equal. auto.
Qed.

Lemma load_frame_time db dtc row f :
  load_frame db dtc row = Some f ->
  FrameData.t f = Some (TelemetryFrame.time row).
Proof.
  unfold load_frame. intros E.
  destruct (try_fold _ _ _); [| discriminate]. inversion E. reflexivity.
Qed.

Lemma load_result_positions db rows : forall acc acc',
  try_fold rows acc (load_result db) = Some acc' ->
  map ResultData.position (ql_results acc') =
  map ResultData.position (ql_results acc) ++
  map (fun r => Some (QualifyingResult.position r)) rows.
Proof.
  induction rows as [| r rows IH]; simpl; intros acc acc' E.
  - inversion E. rewrite app_nil_r. reflexivity.
  - destruct (load_result db acc r) as [acc1 |] eqn:E1; [| discriminate].
    rewrite (IH _ _ E). unfold load_result in E1.
    destruct (find _ (drivers db)) as [d |]; [| discriminate].
    destruct (fold_left load_segment_step _ _) as [[dt mx] mn].
    inversion E1; subst acc1. simpl. rewrite map_app. simpl.
    rewrite <- app_assoc. reflexivity.
Qed.

Lemma frames_rows_sorted (rows : list TelemetryFrame.row) :
  StronglySorted opt_Qle
    (map (fun r => Some (TelemetryFrame.time r))
       (order_by (fun a b => Qle_bool (TelemetryFrame.time a)
                                      (TelemetryFrame.time b)) rows)).
Proof.
  eapply StronglySorted_map_of;
    [| apply order_by_strongly_sorted].
  - intros a b H. simpl. apply Qle_bool_iff. exact H.
  - intros a b. apply Qle_bool_total.
  - intros a b c. apply Qle_bool_trans.
Qed.

Lemma statuses_rows_sorted (rows : list TrackStatus.row) :
  StronglySorted opt_Qle
    (map StatusData.start_time
       (map load_track_status
          (order_by (fun a b => Qle_bool (TrackStatus.start_time a)
                                         (TrackStatus.start_time b)) rows))).
Proof.
  rewrite map_map.
  eapply StronglySorted_map_of;
    [| apply order_by_strongly_sorted].
  - intros a b H. simpl. apply Qle_bool_iff. exact H.
  - intros a b. apply Qle_bool_total.
  - intros a b c. apply Qle_bool_trans.
Qed.

Lemma results_rows_sorted (rows : list QualifyingResult.row) :
  StronglySorted opt_Zle
    (map (fun r => Some (QualifyingResult.position r))
       (order_by (fun a b => (QualifyingResult.position a
                              <=? QualifyingResult.position b)%Z) rows)).
Proof.
  eapply StronglySorted_map_of;
    [| apply order_by_strongly_sorted].
  - intros a b H. simpl. apply Z.leb_le. exact H.
  - intros a b. rewrite !Z.leb_le. lia.
  - intros a b c. rewrite !Z.leb_le. lia.
Qed.

Lemma catalog_sorted db : StronglySorted catalog_order (get_all_sessions db).
Proof.
  unfold get_all_sessions.
  eapply StronglySorted_map_of;
    [| apply order_by_strongly_sorted].
  - intros a b H. unfold catalog_order, catalog_le in *. simpl.
    apply orb_true_iff in H. destruct H as [H | H].
    + left. apply Z.ltb_lt. exact H.
    + right. apply andb_true_iff in H. destruct H as [H1 H2].
      apply Z.eqb_eq in H1. apply Z.leb_le in H2. auto.
  - apply catalog_le_total.
  - apply catalog_le_trans.
Qed.

(** C9 (as the code has it): for a stored session, the exported race
    frames are the stored frames of the session, each once, in
    non-decreasing order of time (frames stored with equal times are all
    exported); the exported track statuses are the stored ones of the
    session in non-decreasing order of start time; the exported
    qualifying results are the stored ones of the session in
    non-decreasing order of position; and the catalogue lists every
    stored session, by year descending then round descending. *)
Theorem exports_are_ordered db year round_number session_type
    year' round_number' session_type' :
  (forall s p,
     find_session db year round_number session_type = Some s ->
     load_race_telemetry db year round_number session_type = Some p ->
     StronglySorted opt_Qle (map FrameData.t (TelemetryData.frames p)) /\
     Permutation (map FrameData.t (TelemetryData.frames p))
       (map (fun r => Some (TelemetryFrame.time r))
          (filter (fun f =>
                     (TelemetryFrame.session_id f =? Session.id s)%Z)
             (telemetry_frames db))) /\
     StronglySorted opt_Qle
       (map StatusData.start_time (TelemetryData.track_statuses p)) /\
     Permutation (TelemetryData.track_statuses p)
       (map load_track_status
          (filter (fun t => (TrackStatus.session_id t =? Session.id s)%Z)
             (track_statuses db)))) /\
  (forall s q,
     find_session db year' round_number' session_type' = Some s ->
     load_qualifying_telemetry db year' round_number' session_type' = Some q ->
     StronglySorted opt_Zle (map ResultData.position (QualiData.results q))
     /\
     Permutation (map ResultData.position (QualiData.results q))
       (map (fun r => Some (QualifyingResult.position r))
          (filter (fun r =>
                     (QualifyingResult.session_id r =? Session.id s)%Z)
             (qualifying_results db))))
  /\ StronglySorted catalog_order (get_all_sessions db)
  /\ Permutation (get_all_sessions db) (map catalog_entry (sessions db)).
Proof.
  split; [intros s p Hs H | split; [intros s q Hs H | split]].
  - unfold load_race_telemetry in H. rewrite Hs in H.
    destruct (try_map _ _) as [fs |] eqn:E; [| discriminate].
    inversion H; subst p; simpl.
    rewrite (try_map_keys _ (fun r => Some (TelemetryFrame.time r))
               FrameData.t _ (@load_frame_time _ _) E).
    split; [apply frames_rows_sorted |].
    split; [apply Permutation_map; apply order_by_perm |].
    split; [apply statuses_rows_sorted |].
    apply Permutation_map. apply order_by_perm.
  - unfold load_qualifying_telemetry in H. rewrite Hs in H.
    destruct (try_fold _ _ _) as [acc |] eqn:E; [| discriminate].
    inversion H; subst q; simpl.
    rewrite (load_result_positions _ _ _ E). simpl.
    split; [apply results_rows_sorted |].
    apply Permutation_map. apply order_by_perm.
  - apply catalog_sorted.
  - unfold get_all_sessions. apply Permutation_map. apply order_by_perm.
Qed.

(** A race whose first two frames carry the same timestamp. *)
Definition tied_race : TelemetryData.dict :=
  TelemetryData.mk
    [sample_frame 1 None; sample_frame 1 None; sample_frame 2 None]
    [] [] (Some 78%Z).

Definition tied_store : Database :=
  Eval vm_compute in
    snd (save_race_telemetry [] empty_database 2024 6 "R" sample_info
           tied_race).

(** C9 (as stated) fails: the two frames stored with the same timestamp
    are both exported, so the exported times are not strictly ascending. *)
Lemma tied_frames_not_strictly_ordered :
  exists p,
    load_race_telemetry tied_store 2024 6 "R" = Some p /\
    map FrameData.t (TelemetryData.frames p)
    = [Some 1%Q; Some 1%Q; Some 2%Q] /\
    ~ StronglySorted opt_Qlt (map FrameData.t (TelemetryData.frames p)).
Proof.
  eexists. split; [vm_compute; reflexivity |]. split; [reflexivity |].
  simpl. intros Hs. inversion Hs as [| a l _ Hall]; subst.
  inversion Hall as [| b l' Hlt _]; subst.
  simpl in Hlt. revert Hlt. apply Qlt_irrefl.
Qed.


(* ------------------------------------------------------------------ *)
(** ** Qualifying sessions: worked examples *)

Definition sample_segment (max_speed min_speed : Q) : SegmentData.dict :=
  SegmentData.mk [JDict [("t"%string, JNum 0)]] [] None
    (Some max_speed) (Some min_speed)
    (Some (SectorTimes.mk (Some 28%Q) (Some 35%Q) (Some 24%Q)))
    (Some 1%Z).

(** Driver [ABC] ran Q1 and Q2 but not Q3 (scenario B of the
    specification); in Q1 the car stood still at some point, so the
    segment minimum is [0.0]. *)
Definition stopped_quali : QualiData.dict :=
  QualiData.mk
    [ResultData.mk (Some "ABC"%string) (Some "A. Bc"%string) (Some 1%Z) None
       (Some "90"%string) (Some "87.123"%string) None]
    [("ABC"%string,
      DriverSegments.mk None
        [("Q1"%string, sample_segment 300 0);
         ("Q2"%string, sample_segment 310 50)])]
    None None.

Definition stopped_store : Database :=
  Eval vm_compute in
    snd (save_qualifying_telemetry [] empty_database 2024 5 "Q" sample_info
           stopped_quali).

(** C4 (the code at the failing input): the stored segment minima are
    [0.0] and [50], their minimum is [0.0], and the export reports [50]:
    the truth test that skips a missing minimum also skips a minimum of
    [0.0], and [0.0] is what [min_speed == 0.0] takes for not yet set. *)
Lemma zero_minimum_is_skipped :
  map QualifyingTelemetry.min_speed (qualifying_telemetry stopped_store)
  = [Some 0%Q; Some 50%Q] /\
  map QualifyingTelemetry.max_speed (qualifying_telemetry stopped_store)
  = [Some 300%Q; Some 310%Q] /\
  exists q,
    load_qualifying_telemetry stopped_store 2024 5 "Q" = Some q /\
    QualiData.min_speed q = Some 50%Q /\
    QualiData.max_speed q = Some 310%Q.
Proof.
  split; [reflexivity |]. split; [reflexivity |].
  eexists. split; [vm_compute; reflexivity |]. split; reflexivity.
Qed.

(** C7 (as stated) fails: the lap time supplied as ["90"] is stored as
    the float [90.0] and exported as ["90.0"]. *)
Lemma lap_time_string_changes :
  map ResultData.Q1 (QualiData.results stopped_quali) = [Some "90"%string] /\
  exists q,
    load_qualifying_telemetry stopped_store 2024 5 "Q" = Some q /\
    map ResultData.Q1 (QualiData.results q) = [Some "90.0"%string].
Proof.
  split; [reflexivity |].
  eexists. split; [vm_compute; reflexivity |]. reflexivity.
Qed.

(* ------------------------------------------------------------------ *)
(** ** Race sessions: failures part way *)

(** A race of 250 frames. *)
Definition long_race : TelemetryData.dict :=
  TelemetryData.mk
    (map (fun k => sample_frame (inject_Z (Z.of_nat k)) None) (seq 0 250))
    [("VER"%string, (6, 0, 255)%Z)]
    [StatusData.mk (Some "4"%string) (Some 1%Q) None]
    (Some 78%Z).

(** The storage engine fails on its 155th call: the [flush] of the 151st
    frame, in the second batch (one [flush] for the session, two for the
    drivers, a hundred and a [commit] for the first batch, fifty more). *)
Definition fault_in_second_batch : list bool := repeat false 154 ++ [true].

(** C2 (the code at the failing input): the import reports the failure,
    and the first batch, committed before the fault, stays: readers see the
    session, its drivers and track status and 100 of the 250 frames, and a
    second import of the key takes the partial session for the stored one. *)
Lemma failed_batch_leaves_partial_session :
  exists db,
    save_race_telemetry fault_in_second_batch empty_database 2024 5 "R"
      sample_info long_race = (None, db) /\
    check_session_exists db 2024 5 "R" = true /\
    List.length (telemetry_frames db) = 100%nat /\
    List.length (driver_telemetry db) = 200%nat /\
    (exists p, load_race_telemetry db 2024 5 "R" = Some p /\
               List.length (TelemetryData.frames p) = 100%nat) /\
    save_race_telemetry [] db 2024 5 "R" sample_info long_race
    = (Some 1%Z, db).
Proof.
  eexists. split; [vm_compute; reflexivity |].
  split; [reflexivity |]. split; [reflexivity |]. split; [reflexivity |].
  split; [| vm_compute; reflexivity].
  eexists. split; [vm_compute; reflexivity |]. reflexivity.
Qed.

(** A race whose only frame has no timestamp. *)
Definition untimed_race : TelemetryData.dict :=
  TelemetryData.mk
    [FrameData.mk None (Some 1%Z) None
       [("VER"%string, sample_point 0 1 1)]]
    [("VER"%string, (6, 0, 255)%Z)]
    [StatusData.mk (Some "4"%string) (Some 1%Q) None]
    (Some 78%Z).

(** C6 (as stated) fails: when the [KeyError] for the missing ['t'] is
    raised, the session row and the driver row have been flushed into the
    open transaction, while what is committed is still the empty store. *)
Lemma rows_written_before_malformed_frame :
  exists u,
    save_race_body 2024 5 "R" sample_info untimed_race
      (get_session [] empty_database) = (u, inl (KeyError "t")) /\
    List.length (sessions (working u)) = 1%nat /\
    List.length (drivers (working u)) = 1%nat /\
    telemetry_frames (working u) = [] /\
    committed u = empty_database.
Proof.
  eexists. split; [vm_compute; reflexivity |]. repeat split.
Qed.

(* ------------------------------------------------------------------ *)
(** ** Batches *)

Lemma py_range_starts_at_zero stop step :
  (0 < stop)%nat -> (0 < step)%nat ->
  exists r, py_range stop step = 0%nat :: r.
Proof.
  intros Hstop Hstep. unfold py_range.
  assert (H : (0 < (stop + step - 1) / step)%nat).
  { apply Nat.div_str_pos. lia. }
  destruct ((stop + step - 1) / step)%nat as [| m]; [lia |].
  simpl. eexists. reflexivity.
Qed.

Lemma py_slice_first_batch {A} (l : list A) n :
  py_slice l 0 (0 + n) = firstn n l.
Proof. unfold py_slice. simpl. rewrite Nat.sub_0_r. reflexivity. Qed.

(** Every element of the list is in the batch of its index. *)
Lemma batches_cover {A} (l : list A) step k a :
  (0 < step)%nat -> nth_error l k = Some a ->
  exists i, In i (py_range (List.length l) step) /\
            In a (py_slice l i (i + step)).
Proof.
  intros Hstep Hk. exists (k / step * step)%nat.
  assert (Hlen : (k < List.length l)%nat).
  { apply nth_error_Some. congruence. }
  pose proof (Nat.Div0.mul_div_le k step) as Hle.
  pose proof (Nat.mul_succ_div_gt k step ltac:(lia)) as Hgt.
  split.
  - unfold py_range. apply in_map_iff. exists (k / step)%nat.
    split; [reflexivity |]. apply in_seq. split; [lia |]. simpl.
    apply Nat.Div0.div_lt_upper_bound.
    pose proof (Nat.mul_succ_div_gt (List.length l + step - 1) step
                  ltac:(lia)) as H.
    lia.
  - unfold py_slice. apply nth_error_In with (n := (k - k / step * step)%nat).
    rewrite nth_error_firstn.
    replace (k - k / step * step <? k / step * step + step - k / step * step)%nat
      with true by (symmetry; apply Nat.ltb_lt; lia).
    rewrite nth_error_skipn.
    replace (k / step * step + (k - k / step * step))%nat with k by lia.
    exact Hk.
Qed.

(** ** Loops on their success and failure paths *)

Lemma for_each_inr {A} (l : list A) body u u' x :
  for_each l body u = (u', inr x) ->
  forall a, In a l -> exists u1 u2, body a u1 = (u2, inr tt).
Proof.
  revert u. induction l as [| b r IH]; simpl; intros u E a Ha.
  - contradiction.
  - apply bind_inr in E. destruct E as (u1 & y & Eb & Er).
    destruct Ha as [-> | Ha].
    + destruct y. eauto.
    + eapply IH; eauto.
Qed.

Lemma save_frame_inr sid dm f u u' x :
  save_frame sid dm f u = (u', inr x) -> FrameData.t f <> None.
Proof.
  unfold save_frame. intros E. apply bind_inr in E.
  destruct E as (u1 & t & Et & _).
  destruct (FrameData.t f); [discriminate | discriminate Et].
Qed.

(** A successful import has met a timestamp in every frame. *)
Lemma save_batches_inr sid dm frames u u' x :
  save_batches sid dm frames u = (u', inr x) ->
  forall f, In f frames -> FrameData.t f <> None.
Proof.
  intros E f Hf. apply In_nth_error in Hf. destruct Hf as [k Hk].
  destruct (@batches_cover _ frames batch_size k f) as (i & Hi & Hin);
    [unfold batch_size; lia | exact Hk |].
  unfold save_batches in E.
  destruct (for_each_inr _ _ _ E i Hi) as (u1 & u2 & Eb).
  apply bind_inr in Eb. destruct Eb as (u3 & y & Eb & _).
  destruct (for_each_inr _ _ _ Eb f Hin) as (u4 & u5 & Ef).
  eapply save_frame_inr. exact Ef.
Qed.

Lemma save_race_rows_inr sid data u u' x :
  save_race_rows sid data u = (u', inr x) ->
  forall f, In f (TelemetryData.frames data) -> FrameData.t f <> None.
Proof.
  unfold save_race_rows. intros E.
  apply bind_inr in E. destruct E as (u1 & dm & _ & E).
  apply bind_inr in E. destruct E as (u2 & y & _ & E).
  eapply save_batches_inr. exact E.
Qed.

(** Until the first [commit], what is committed is what was committed. *)
Definition committed_is (db0 : Database) (u : UnitOfWork) : Prop :=
  committed u = db0.

Lemma committed_is_blind db0 : plan_blind (committed_is db0).
Proof. intros c w p p' H. exact H. Qed.

Lemma committed_is_update db0 (f : Database -> Database) :
  (forall db, sessions (f db) = sessions db) ->
  forall c w p, committed_is db0 (mkUnit c w p) ->
                committed_is db0 (mkUnit c (f w) p).
Proof. intros _ c w p H. exact H. Qed.

(** The first batch holds a frame without timestamp: the loop over the
    batches raises before its first [commit]. *)
Lemma save_batches_first_batch_raises sid dm frames n f u :
  nth_error frames n = Some f -> FrameData.t f = None ->
  (n < batch_size)%nat ->
  exists u' e, save_batches sid dm frames u = (u', inl e) /\
               committed u' = committed u.
Proof.
  intros Hn Ht Hlt.
  assert (Hlen : (n < List.length frames)%nat).
  { apply nth_error_Some. congruence. }
  destruct (@py_range_starts_at_zero (List.length frames) batch_size)
    as [r Hr]; [lia | unfold batch_size; lia |].
  unfold save_batches. rewrite Hr. cbn [for_each].
  rewrite py_slice_first_batch.
  assert (Hin : In f (firstn batch_size frames)).
  { apply nth_error_In with (n := n). rewrite nth_error_firstn.
    replace (n <? batch_size)%nat with true
      by (symmetry; apply Nat.ltb_lt; exact Hlt).
    exact Hn. }
  pose proof (@preserves_race_batch (committed_is (committed u))
                (@committed_is_blind _) (@committed_is_update _)
                sid dm (firstn batch_size frames) u eq_refl) as HP.
  unfold bind at 1. unfold bind at 1.
  destruct (for_each (firstn batch_size frames) (save_frame sid dm) u)
    as [u1 [e | y]] eqn:E.
  - exists u1, e. split; [reflexivity | exact HP].
  - exfalso. destruct (for_each_inr _ _ _ E f Hin) as (u2 & u3 & Ef).
    apply save_frame_inr in Ef. contradiction.
Qed.

(** A computation that keeps [I], followed by one that raises keeping [I],
    raises keeping [I]. *)
Definition raises_keeping {A} (I : UnitOfWork -> Prop) (c : M A) : Prop :=
  forall u, I u -> exists u' e, c u = (u', inl e) /\ I u'.

Lemma raises_keeping_bind {A B} I (c : M A) (k : A -> M B) :
  preserves I c -> (forall a, raises_keeping I (k a)) ->
  raises_keeping I (bind c k).
Proof.
  intros Hc Hk u Hu. specialize (Hc u Hu). unfold bind.
  destruct (c u) as [u1 [e | a]]; simpl in Hc.
  - exists u1, e. auto.
  - apply Hk. exact Hc.
Qed.

Lemma raises_keeping_bind_l {A B} I (c : M A) (k : A -> M B) :
  raises_keeping I c -> raises_keeping I (bind c k).
Proof.
  intros Hc u Hu. destruct (Hc u Hu) as (u' & e & E & HI).
  exists u', e. unfold bind. rewrite E. auto.
Qed.

Lemma save_race_rows_first_batch_raises db0 sid data n f :
  nth_error (TelemetryData.frames data) n = Some f ->
  FrameData.t f = None -> (n < batch_size)%nat ->
  raises_keeping (committed_is db0) (save_race_rows sid data).
Proof.
  intros Hn Ht Hlt. unfold save_race_rows.
  apply raises_keeping_bind.
  - destruct (TelemetryData.frames data).
    + apply preserves_ret.
    + apply preserves_race_drivers.
      * apply committed_is_blind.
      * exact (@committed_is_update _).
  - intros dm. apply raises_keeping_bind.
    + apply preserves_race_statuses. exact (@committed_is_update _).
    + intros _ u Hu.
      destruct (@save_batches_first_batch_raises sid dm _ n f u Hn Ht Hlt)
        as (u' & e & E & Hc).
      exists u', e. split; [exact E |].
      unfold committed_is in *. congruence.
Qed.

(* ------------------------------------------------------------------ *)
(** ** A frame without timestamp *)

(** A race payload with a frame that has no ['t'], imported under a key
    that is not stored, makes the import report a failure, whatever the
    storage engine does: the failure is raised when the loop reaches the
    frame.  When the frame is among the first [batch_size] frames, the
    rollback leaves the store as it was. *)
Theorem untimed_frame_fails_import plan db year round_number session_type
    info data n f :
  (forall s, In s (sessions db) ->
             session_matches year round_number session_type s = false) ->
  nth_error (TelemetryData.frames data) n = Some f ->
  FrameData.t f = None ->
  fst (save_race_telemetry plan db year round_number session_type info data)
  = None /\
  ((n < batch_size)%nat ->
   snd (save_race_telemetry plan db year round_number session_type info data)
   = db).
Proof.
  intros Habsent Hn Ht. apply find_session_none in Habsent.
  unfold save_race_telemetry.
  rewrite save_race_body_fresh by exact Habsent. simpl working.
  simpl committed. simpl faults.
  set (i := next_id (map Session.id (sessions db))).
  set (u1 := mkUnit db _ plan).
  split.
  - destruct ((flush ;; save_race_rows i data ;; ret i) u1)
      as [u2 [e | sid]] eqn:E; [reflexivity |].
    exfalso. apply bind_inr in E. destruct E as (u3 & y & _ & E).
    apply bind_inr in E. destruct E as (u4 & z & E & _).
    eapply save_race_rows_inr; eauto. eapply nth_error_In; eauto.
  - intros Hlt.
    assert (HR : raises_keeping (committed_is db)
                   (flush ;; save_race_rows i data ;; ret i)).
    { apply raises_keeping_bind.
      - apply preserves_flush. apply committed_is_blind.
      - intros _. apply raises_keeping_bind_l.
        eapply save_race_rows_first_batch_raises; eauto. }
    destruct (HR u1 eq_refl) as (u' & e & E & Hc).
    rewrite E. simpl. exact Hc.
Qed.

Lemma untimed_frame_fails_import_witness :
  fst (save_race_telemetry [] empty_database 2024 5 "R" sample_info
         untimed_race) = None /\
  ((0 < batch_size)%nat ->
   snd (save_race_telemetry [] empty_database 2024 5 "R" sample_info
          untimed_race) = empty_database).
Proof.
  apply (@untimed_frame_fails_import [] empty_database 2024 5 "R"
           sample_info untimed_race 0
           (FrameData.mk None (Some 1%Z) None
              [("VER"%string, sample_point 0 1 1)])).
  - simpl. intros s [].
  - reflexivity.
  - reflexivity.
Defined.

(* ------------------------------------------------------------------ *)
(** ** The steps of an import on their success path *)

Lemma ret_inr {A} (a : A) u u' a' :
  ret a u = (u', inr a') -> u' = u /\ a' = a.
Proof. unfold ret. intros E. inversion E. auto. Qed.

Lemma subscript_inr {A} key (o : option A) u u' a :
  subscript key o u = (u', inr a) -> o = Some a /\ u' = u.
Proof.
  destruct o as [x |]; simpl; intros E.
  - apply ret_inr in E. destruct E; subst. auto.
  - discriminate.
Qed.

Lemma storage_call_inr u u' x :
  storage_call u = (u', inr x) ->
  committed u' = committed u /\ working u' = working u.
Proof.
  unfold storage_call. destruct (faults u) as [| [|] plan]; intros E;
    inversion E; subst; auto.
Qed.

Lemma commit_inr u u' x :
  commit u = (u', inr x) ->
  committed u' = working u /\ working u' = working u.
Proof.
  unfold commit. intros E. apply bind_inr in E.
  destruct E as (u1 & y & E1 & E2). apply storage_call_inr in E1.
  inversion E2; subst. simpl. destruct E1 as [_ E1]. auto.
Qed.

Lemma add_driver_run r u :
  add_driver r u =
  (mkUnit (committed u)
     (with_driver (r (next_id (map Driver.id (drivers (working u)))))
        (working u))
     (faults u),
   inr (next_id (map Driver.id (drivers (working u))))).
Proof. reflexivity. Qed.

Lemma add_frame_run r u :
  add_frame r u =
  (mkUnit (committed u)
     (with_frame
        (r (next_id (map TelemetryFrame.id (telemetry_frames (working u)))))
        (working u))
     (faults u),
   inr (next_id (map TelemetryFrame.id (telemetry_frames (working u))))).
Proof. reflexivity. Qed.

Lemma add_driver_telemetry_run r u :
  add_driver_telemetry r u =
  (mkUnit (committed u)
     (with_driver_telemetry
        (r (next_id (map DriverTelemetry.id (driver_telemetry (working u)))))
        (working u))
     (faults u),
   inr (next_id (map DriverTelemetry.id (driver_telemetry (working u))))).
Proof. reflexivity. Qed.

Lemma add_track_status_run r u :
  add_track_status r u =
  (mkUnit (committed u)
     (with_track_status
        (r (next_id (map TrackStatus.id (track_statuses (working u)))))
        (working u))
     (faults u),
   inr (next_id (map TrackStatus.id (track_statuses (working u))))).
Proof. reflexivity. Qed.

Lemma add_qualifying_result_run r u :
  add_qualifying_result r u =
  (mkUnit (committed u)
     (with_qualifying_result
        (r (next_id (map QualifyingResult.id
                       (qualifying_results (working u)))))
        (working u))
     (faults u),
   inr (next_id (map QualifyingResult.id (qualifying_results (working u))))).
Proof. reflexivity. Qed.

Lemma add_qualifying_telemetry_run r u :
  add_qualifying_telemetry r u =
  (mkUnit (committed u)
     (with_qualifying_telemetry
        (r (next_id (map QualifyingTelemetry.id
                       (qualifying_telemetry (working u)))))
        (working u))
     (faults u),
   inr (next_id (map QualifyingTelemetry.id
                   (qualifying_telemetry (working u))))).
Proof. reflexivity. Qed.

(** What [QualifyingResult] stores for a lap time string. *)
Definition stored_lap_time (q : option string) : option Q :=
  match q with
  | Some s => if str_truthy s then py_float s else None
  | None => None
  end.

Lemma lap_time_of_inr q u u' t :
  lap_time_of q u = (u', inr t) -> u' = u /\ t = stored_lap_time q.
Proof.
  unfold lap_time_of, stored_lap_time. destruct q as [s |].
  - destruct (str_truthy s).
    + destruct (py_float s); intros E; [| discriminate].
      apply ret_inr in E. tauto.
    + intros E. apply ret_inr in E. tauto.
  - intros E. apply ret_inr in E. tauto.
Qed.

(** Fresh rowids. *)
Lemma next_id_above ids x : In x ids -> (x < next_id ids)%Z.
Proof.
  unfold next_id. induction ids as [| y r IH]; cbn [fold_right In];
    intros Hx.
  - contradiction.
  - destruct Hx as [-> | Hx]; [lia |]. specialize (IH Hx). lia.
Qed.

Lemma find_app_last {A} (p : A -> bool) l x :
  find p (l ++ [x]) =
  match find p l with
  | Some y => Some y
  | None => if p x then Some x else None
  end.
Proof.
  induction l as [| a r IH]; simpl.
  - reflexivity.
  - destruct (p a); [reflexivity | exact IH].
Qed.

Lemma find_fresh_driver (l : list Driver.row) :
  find (fun d => (Driver.id d =? next_id (map Driver.id l))%Z) l = None.
Proof.
  destruct (find _ l) as [d |] eqn:E; [| reflexivity].
  apply find_some in E. destruct E as [Hin Heq].
  apply Z.eqb_eq in Heq.
  pose proof (@next_id_above (map Driver.id l) (Driver.id d)
                (in_map _ _ _ Hin)).
  lia.
Qed.

(* ------------------------------------------------------------------ *)
(** ** Stores with referential integrity *)

Definition refers (ids : list Z) (i : Z) : bool := existsb (Z.eqb i) ids.

(** Every foreign key of the store names a row of the table it refers
    to. *)
Definition db_consistent (db : Database) : bool :=
  let session_ids := map Session.id (sessions db) in
  let driver_ids := map Driver.id (drivers db) in
  let frame_ids := map TelemetryFrame.id (telemetry_frames db) in
  let result_ids := map QualifyingResult.id (qualifying_results db) in
  forallb (fun d => refers session_ids (Driver.session_id d)) (drivers db)
  && forallb (fun f => refers session_ids (TelemetryFrame.session_id f))
       (telemetry_frames db)
  && forallb (fun p => refers frame_ids (DriverTelemetry.frame_id p)
                       && refers driver_ids (DriverTelemetry.driver_id p))
       (driver_telemetry db)
  && forallb (fun s => refers session_ids (TrackStatus.session_id s))
       (track_statuses db)
  && forallb (fun r => refers session_ids (QualifyingResult.session_id r)
                       && refers driver_ids (QualifyingResult.driver_id r))
       (qualifying_results db)
  && forallb (fun t => refers result_ids (QualifyingTelemetry.result_id t))
       (qualifying_telemetry db).

Lemma refers_below ids i : refers ids i = true -> (i < next_id ids)%Z.
Proof.
  unfold refers. intros H. apply existsb_exists in H.
  destruct H as (x & Hx & Heq). apply Z.eqb_eq in Heq. subst x.
  apply next_id_above. exact Hx.
Qed.

Lemma filter_nothing {A} (p : A -> bool) l :
  (forall x, In x l -> p x = false) -> filter p l = [].
Proof.
  induction l as [| a r IH]; simpl; intros H.
  - reflexivity.
  - rewrite (H a (or_introl eq_refl)). apply IH. auto.
Qed.

Lemma consistent_no_results_of_new_session db :
  db_consistent db = true ->
  filter (fun r => (QualifyingResult.session_id r
                    =? next_id (map Session.id (sessions db)))%Z)
    (qualifying_results db) = [].
Proof.
  intros Hc. apply filter_nothing. intros r Hr.
  unfold db_consistent in Hc. repeat rewrite andb_true_iff in Hc.
  destruct Hc as [[_ Hres] _]. rewrite forallb_forall in Hres.
  specialize (Hres r Hr). apply andb_true_iff in Hres.
  destruct Hres as [Hs _]. apply refers_below in Hs.
  apply Z.eqb_neq. lia.
Qed.

(* ------------------------------------------------------------------ *)
(** ** Qualifying sessions: what a successful import stored *)

Lemma save_segment_inr rid tel seg u u' x :
  save_segment rid tel seg u = (u', inr x) ->
  committed u' = committed u /\
  sessions (working u') = sessions (working u) /\
  drivers (working u') = drivers (working u) /\
  qualifying_results (working u') = qualifying_results (working u).
Proof.
  unfold save_segment.
  destruct (SegmentData.frames (dict_get_default seg empty_segment tel)).
  - intros E. apply ret_inr in E. destruct E; subst. auto.
  - intros E. apply bind_inr in E. destruct E as (u1 & i & E1 & E2).
    rewrite add_qualifying_telemetry_run in E1. inversion E1; subst.
    apply ret_inr in E2. destruct E2; subst. simpl. auto.
Qed.

Lemma save_segments_inr rid tel segs : forall u u' x,
  for_each segs (save_segment rid tel) u = (u', inr x) ->
  committed u' = committed u /\
  sessions (working u') = sessions (working u) /\
  drivers (working u') = drivers (working u) /\
  qualifying_results (working u') = qualifying_results (working u).
Proof.
  induction segs as [| s r IH]; simpl; intros u u' x E.
  - apply ret_inr in E. destruct E; subst. auto.
  - apply bind_inr in E. destruct E as (u1 & y & E1 & E2).
    apply save_segment_inr in E1. apply IH in E2.
    destruct E1 as (A1 & A2 & A3 & A4). destruct E2 as (B1 & B2 & B3 & B4).
    repeat split; congruence.
Qed.

(** The [Driver] and [QualifyingResult] rows of one entry of [results]. *)
Definition result_driver (sid : Z) (rd : ResultData.dict) (i : Z)
    : Driver.row :=
  let '(r, g, b) := or_default default_color (ResultData.color rd) in
  Driver.mk i sid (or_default EmptyString (ResultData.code rd)) None
    (ResultData.full_name rd) None r g b.

Definition result_row (sid : Z) (rd : ResultData.dict) (driver_id i : Z)
    : QualifyingResult.row :=
  QualifyingResult.mk i sid driver_id
    (or_default 0%Z (ResultData.position rd))
    (stored_lap_time (ResultData.Q1 rd))
    (stored_lap_time (ResultData.Q2 rd))
    (stored_lap_time (ResultData.Q3 rd)).

Lemma save_result_inr sid qd rd u u' x :
  save_result sid qd rd u = (u', inr x) ->
  let W := working u in
  let d := result_driver sid rd (next_id (map Driver.id (drivers W))) in
  let row := result_row sid rd (Driver.id d)
               (next_id (map QualifyingResult.id (qualifying_results W))) in
  ResultData.code rd <> None /\ ResultData.position rd <> None /\
  committed u' = committed u /\
  sessions (working u') = sessions W /\
  drivers (working u') = drivers W ++ [d] /\
  qualifying_results (working u') = qualifying_results W ++ [row].
Proof.
  unfold save_result, result_driver, result_row. intros E.
  apply bind_inr in E. destruct E as (u1 & c & E1 & E).
  apply subscript_inr in E1. destruct E1 as [Hc ->].
  destruct (or_default default_color (ResultData.color rd)) as [[r g] b].
  apply bind_inr in E. destruct E as (u2 & did & E2 & E).
  rewrite add_driver_run in E2. inversion E2; subst u2 did. clear E2.
  apply bind_inr in E. destruct E as (u3 & y & E3 & E).
  apply storage_call_inr in E3. simpl in E3. destruct E3 as [Hc3 Hw3].
  apply bind_inr in E. destruct E as (u4 & p & E4 & E).
  apply subscript_inr in E4. destruct E4 as [Hp ->].
  apply bind_inr in E. destruct E as (u5 & q1 & E5 & E).
  apply lap_time_of_inr in E5. destruct E5 as [-> ->].
  apply bind_inr in E. destruct E as (u6 & q2 & E6 & E).
  apply lap_time_of_inr in E6. destruct E6 as [-> ->].
  apply bind_inr in E. destruct E as (u7 & q3 & E7 & E).
  apply lap_time_of_inr in E7. destruct E7 as [-> ->].
  apply bind_inr in E. destruct E as (u8 & rid & E8 & E).
  rewrite add_qualifying_result_run in E8. inversion E8; subst u8 rid.
  clear E8.
  apply bind_inr in E. destruct E as (u9 & z & E9 & E).
  apply storage_call_inr in E9. simpl in E9. destruct E9 as [Hc9 Hw9].
  apply save_segments_inr in E.
  destruct E as (Ec & Es & Ed & Er).
  rewrite Hc, Hp. simpl.
  rewrite Ec, Es, Ed, Er, Hc9, Hw9, Hc3, Hw3. simpl.
  repeat split; congruence.
Qed.

(** The entry of [results] the exporter builds for an imported entry. *)
Definition export_result (rd : ResultData.dict) : ResultData.dict :=
  ResultData.mk (ResultData.code rd) (ResultData.full_name rd)
    (ResultData.position rd)
    (Some (or_default default_color (ResultData.color rd)))
    (lap_time_str (stored_lap_time (ResultData.Q1 rd)))
    (lap_time_str (stored_lap_time (ResultData.Q2 rd)))
    (lap_time_str (stored_lap_time (ResultData.Q3 rd))).

(** The order of the imported entries by position. *)
Definition result_le (a b : ResultData.dict) : bool :=
  (or_default 0 (ResultData.position a)
   <=? or_default 0 (ResultData.position b))%Z.

(** A stored result row from which the exporter rebuilds the entry [rd]. *)
Definition row_exports (W : Database) (row : QualifyingResult.row)
    (rd : ResultData.dict) : Prop :=
  QualifyingResult.position row = or_default 0%Z (ResultData.position rd) /\
  exists d,
    find (fun d => (Driver.id d =? QualifyingResult.driver_id row)%Z)
         (drivers W) = Some d /\
    load_result_entry d row = export_result rd.

Lemma row_exports_more_drivers W W' d row rd :
  drivers W' = drivers W ++ [d] ->
  row_exports W row rd -> row_exports W' row rd.
Proof.
  intros Hd (Hp & d0 & Hf & He). split; [exact Hp |].
  exists d0. split; [| exact He].
  rewrite Hd, find_app_last, Hf. reflexivity.
Qed.

Lemma new_row_exports W' W sid rd :
  ResultData.code rd <> None -> ResultData.position rd <> None ->
  let d := result_driver sid rd (next_id (map Driver.id (drivers W))) in
  drivers W' = drivers W ++ [d] ->
  forall i, row_exports W' (result_row sid rd (Driver.id d) i) rd.
Proof.
  intros Hc Hp d Hd i. split.
  - reflexivity.
  - exists d. split.
    + rewrite Hd, find_app_last. simpl QualifyingResult.driver_id.
      assert (Hid : Driver.id d = next_id (map Driver.id (drivers W))).
      { unfold d, result_driver.
        destruct (or_default default_color (ResultData.color rd))
          as [[r g] b]. reflexivity. }
      rewrite Hid, find_fresh_driver, Z.eqb_refl. reflexivity.
    + unfold d, result_driver, load_result_entry, export_result, result_row.
      destruct (or_default default_color (ResultData.color rd))
        as [[r g] b]. simpl.
      destruct (ResultData.code rd); [| contradiction].
      destruct (ResultData.position rd); [| contradiction].
      reflexivity.
Qed.

Lemma save_results_inr sid qd rds : forall u u' x rows done,
  for_each rds (save_result sid qd) u = (u', inr x) ->
  filter (fun r => (QualifyingResult.session_id r =? sid)%Z)
    (qualifying_results (working u)) = rows ->
  Forall2 (row_exports (working u)) rows done ->
  committed u' = committed u /\
  sessions (working u') = sessions (working u) /\
  exists rows',
    filter (fun r => (QualifyingResult.session_id r =? sid)%Z)
      (qualifying_results (working u')) = rows' /\
    Forall2 (row_exports (working u')) rows' (done ++ rds).
Proof.
  induction rds as [| rd rds IH]; simpl; intros u u' x rows done E Hf H2.
  - apply ret_inr in E. destruct E; subst u'. rewrite app_nil_r. eauto.
  - apply bind_inr in E. destruct E as (u1 & y & E1 & E2).
    apply save_result_inr in E1. cbv zeta in E1.
    destruct E1 as (Hc & Hp & Hcm & Hs & Hd & Hr).
    specialize (IH u1 u' x
                  (rows ++ [result_row sid rd
                     (Driver.id (result_driver sid rd
                        (next_id (map Driver.id (drivers (working u))))))
                     (next_id (map QualifyingResult.id
                        (qualifying_results (working u))))])
                  (done ++ [rd]) E2).
    destruct IH as (Ic & Is & rows' & If & I2).
    + rewrite Hr, filter_app, Hf. simpl. rewrite Z.eqb_refl. reflexivity.
    + apply Forall2_app.
      * eapply Forall2_impl; [| exact H2].
        intros row r0. eapply row_exports_more_drivers. exact Hd.
      * constructor; [| constructor].
        apply new_row_exports with (W := working u); assumption.
    + rewrite <- app_assoc in I2. simpl in I2.
      repeat split; try congruence. eauto.
Qed.

(** What the exporter does with rows it can rebuild. *)
Lemma load_results_entries db rows : forall rds acc,
  Forall2 (row_exports db) rows rds ->
  exists acc',
    try_fold rows acc (load_result db) = Some acc' /\
    ql_results acc' = ql_results acc ++ map export_result rds.
Proof.
  induction rows as [| row rows IH]; intros rds acc H2;
    inversion H2 as [| ? rd ? rds' Hrow Hrest]; subst; simpl.
  - exists acc. rewrite app_nil_r. auto.
  - destruct Hrow as (_ & d & Hf & He).
    unfold load_result at 1. rewrite Hf.
    destruct (fold_left load_segment_step _ _) as [[dt mx] mn].
    destruct (IH rds' (mkQualiLoad
                (ql_results acc ++ [load_result_entry d row])
                (dict_set (Driver.driver_code d)
                   (DriverSegments.mk (Driver.full_name d) dt)
                   (ql_telemetry acc)) mx mn) Hrest) as (acc' & Et & Er).
    exists acc'. split; [exact Et |].
    rewrite Er. simpl. rewrite He, <- app_assoc. reflexivity.
Qed.

(** [ORDER BY] on two lists related row by row, with the same keys. *)
Lemma insert_by_Forall2 {A B} (R : A -> B -> Prop) leA leB a b l l' :
  (forall a b a' b', R a b -> R a' b' -> leA a a' = leB b b') ->
  R a b -> Forall2 R l l' ->
  Forall2 R (insert_by leA a l) (insert_by leB b l').
Proof.
  intros Hle Hab H2. induction H2 as [| a' b' l l' Ha' H2 IH]; simpl.
  - repeat constructor. exact Hab.
  - rewrite (Hle _ _ _ _ Hab Ha'). destruct (leB b b').
    + repeat constructor; assumption.
    + constructor; assumption.
Qed.

Lemma order_by_Forall2 {A B} (R : A -> B -> Prop) leA leB l l' :
  (forall a b a' b', R a b -> R a' b' -> leA a a' = leB b b') ->
  Forall2 R l l' -> Forall2 R (order_by leA l) (order_by leB l').
Proof.
  intros Hle H2. induction H2; simpl.
  - constructor.
  - apply insert_by_Forall2; assumption.
Qed.

(** After a successful qualifying import under a key that was not stored,
    the export finds the session and returns the imported entries, rebuilt,
    in the order of their positions. *)
Lemma quali_results_after_import plan db year round_number session_type info
    qd sid db' :
  db_consistent db = true ->
  find_session db year round_number session_type = None ->
  save_qualifying_telemetry plan db year round_number session_type info qd
  = (Some sid, db') ->
  (exists q,
     load_qualifying_telemetry db' year round_number session_type = Some q /\
     QualiData.results q
     = map export_result (order_by result_le (QualiData.results qd))) /\
  (forall rd, In rd (QualiData.results qd) ->
     exists d, In d (drivers db') /\
               Some (Driver.driver_code d) = ResultData.code rd /\
               (Driver.color_r d, Driver.color_g d, Driver.color_b d)
               = or_default default_color (ResultData.color rd)).
Proof.
  intros Hcons Hfind Hsave. unfold save_qualifying_telemetry in Hsave.
  rewrite save_qualifying_body_fresh in Hsave by exact Hfind.
  simpl working in Hsave. simpl committed in Hsave. simpl faults in Hsave.
  set (i := next_id (map Session.id (sessions db))) in *.
  set (new := qualifying_session year round_number session_type info i) in *.
  destruct ((flush ;; for_each (QualiData.results qd) (save_result i qd) ;;
             commit ;; ret i) (mkUnit db (with_session new db) plan))
    as [u [e | sid']] eqn:E; [discriminate |].
  inversion Hsave; subst sid' db'. clear Hsave.
  apply bind_inr in E. destruct E as (u1 & y1 & E1 & E).
  apply storage_call_inr in E1. simpl in E1. destruct E1 as [Hc1 Hw1].
  apply bind_inr in E. destruct E as (u2 & y2 & E2 & E).
  apply bind_inr in E. destruct E as (u3 & y3 & E3 & E).
  apply ret_inr in E. destruct E as [-> ->].
  apply commit_inr in E3. destruct E3 as [Hc3 Hw3].
  apply save_results_inr with (rows := []) (done := []) in E2.
  - destruct E2 as (_ & Hs & rows & Hf & H2). simpl in H2.
    unfold close_session. rewrite Hc3.
    assert (Hsess : sessions (working u2) = sessions db ++ [new]).
    { rewrite Hs, Hw1. reflexivity. }
    unfold load_qualifying_telemetry.
    rewrite (@find_session_app_new _ _ _ _ _ _ Hfind Hsess).
    unfold new at 1. rewrite qualifying_session_matches.
    change (Session.id new) with i. rewrite Hf.
    assert (H2s : Forall2 (row_exports (working u2))
                    (order_by (fun a b =>
                       (QualifyingResult.position a
                        <=? QualifyingResult.position b)%Z) rows)
                    (order_by result_le (QualiData.results qd))).
    { apply order_by_Forall2; [| exact H2].
      intros a b a' b' (Ha & _) (Ha' & _). unfold result_le.
      rewrite Ha, Ha'. reflexivity. }
    destruct (@load_results_entries (working u2) _ _
                (mkQualiLoad [] [] 0 0) H2s) as (acc & Et & Er).
    rewrite Et. split.
    + eexists. split; [reflexivity |]. simpl. exact Er.
    + intros rd Hin. clear - H2 Hin. revert Hin.
      induction H2 as [| row rd0 rows rds Hrow _ IH]; intros Hin.
      * contradiction.
      * destruct Hin as [<- | Hin]; [| exact (IH Hin)].
        destruct Hrow as (_ & d & Hf & He). exists d.
        apply find_some in Hf. destruct Hf as [Hf _].
        split; [exact Hf |].
        unfold load_result_entry, export_result in He.
        injection He as Hcode _ _ Hcol _ _ _.
        split; [exact Hcode | exact Hcol].
  - rewrite Hw1. simpl. fold i.
    apply consistent_no_results_of_new_session. exact Hcons.
  - constructor.
Qed.

(* ------------------------------------------------------------------ *)
(** ** Payloads of numbers the store holds *)

Definition storable_info (session_info : SessionInfo.dict) : bool :=
  holds float64 (SessionInfo.circuit_rotation session_info).

Definition storable_color (color : rgb) : bool :=
  let '(r, g, b) := color in int64 r && int64 g && int64 b.

(** The number of decimal digits in [s]. *)
Fixpoint count_digits (s : string) : nat :=
  match s with
  | EmptyString => O
  | String c r =>
      match digit_of_ascii c with
      | Some _ => S (count_digits r)
      | None => count_digits r
      end
  end.

(** The lap-time literals on which [py_float] and [py_str] are [float] and
    [str]: a plain decimal [[sign] digits [. digits]] of at most 15 digits
    that is zero or at least [0.0001] in magnitude.  [float] reads such a
    literal into the nearest double, and [str] prints that double as the
    shortest decimal that reads back into it, which has the digits of the
    literal and no exponent. *)
Definition short_decimal (s : string) : bool :=
  match py_float s with
  | Some q =>
      (count_digits s <=? 15)%nat
      && (Qeq_bool q 0 || Qle_bool (1 # 10000) q
          || Qle_bool q (- (1 # 10000)))
  | None => false
  end.

(** A lap time that is missing, empty or such a literal. *)
Definition plain_lap_time (q : option string) : bool :=
  holds (fun s => negb (str_truthy s) || short_decimal s) q.

(** A number of a [JSON] column: an [int] of any size or a double. *)
Definition json_number (q : Q) : bool :=
  (Qden (Qred q) =? 1)%positive || float64 q.

Fixpoint storable_json (j : json) : bool :=
  match j with
  | JNum q => json_number q
  | JList l => forallb storable_json l
  | JDict d => forallb (fun item => storable_json (snd item)) d
  | _ => true
  end.

Definition storable_result (rd : ResultData.dict) : bool :=
  holds int64 (ResultData.position rd)
  && holds storable_color (ResultData.color rd).

(** An entry of [results] whose three lap times are such literals. *)
Definition short_lap_times (rd : ResultData.dict) : bool :=
  plain_lap_time (ResultData.Q1 rd) && plain_lap_time (ResultData.Q2 rd)
  && plain_lap_time (ResultData.Q3 rd).

Definition storable_sector_times (st : SectorTimes.dict) : bool :=
  holds float64 (SectorTimes.sector1 st)
  && holds float64 (SectorTimes.sector2 st)
  && holds float64 (SectorTimes.sector3 st).

Definition storable_segment (sd : SegmentData.dict) : bool :=
  forallb storable_json (SegmentData.frames sd)
  && holds (forallb storable_json) (SegmentData.drs_zones sd)
  && holds float64 (SegmentData.max_speed sd)
  && holds float64 (SegmentData.min_speed sd)
  && holds storable_sector_times (SegmentData.sector_times sd)
  && holds int64 (SegmentData.compound sd).

(** A qualifying payload of numbers the store holds. *)
Definition storable_quali (qd : QualiData.dict) : bool :=
  forallb storable_result (QualiData.results qd)
  && forallb (fun item : string * DriverSegments.dict =>
                forallb (fun seg : string * SegmentData.dict =>
                           storable_segment (snd seg))
                  (DriverSegments.segments (snd item)))
       (QualiData.telemetry qd).

Example short_decimal_lap : short_decimal "87.123" = true.
Proof. reflexivity. Qed.

Example short_decimal_small : short_decimal "0.00001" = false.
Proof. reflexivity. Qed.

Example short_decimal_exponent : short_decimal "1e2" = false.
Proof. reflexivity. Qed.

Example short_decimal_long :
  short_decimal "87.12345678901234567" = false.
Proof. reflexivity. Qed.

(* ------------------------------------------------------------------ *)
(** ** Lap times across a qualifying import and export *)

(** A lap time that comes back as it went in: absent, or a string that
    [float] reads as a non-zero number which [str] prints as that same
    string. *)
Definition lap_time_in_float_form (q : option string) : bool :=
  match q with
  | None => true
  | Some s =>
      match py_float s with
      | Some x => float_truthy x && String.eqb (py_str x) s
      | None => false
      end
  end.

Lemma lap_time_in_float_form_round_trip q :
  lap_time_in_float_form q = true ->
  lap_time_str (stored_lap_time q) = q.
Proof.
  unfold lap_time_in_float_form, lap_time_str, stored_lap_time.
  destruct q as [s |]; [| reflexivity].
  destruct (py_float s) as [x |] eqn:Ef; [| discriminate].
  intros H. apply andb_true_iff in H. destruct H as [Ht Hs].
  apply String.eqb_eq in Hs.
  destruct (str_truthy s) eqn:Es.
  - rewrite Ht, Hs. reflexivity.
  - destruct s; [| discriminate]. vm_compute in Ef. discriminate.
Qed.

(** C7 (as the code has it): lap times are stored as floats and exported
    as [str] of the stored float.  For lap times that are plain decimal
    literals of at most 15 digits (zero, or at least [0.0001] in
    magnitude) and a payload of numbers the store holds: after a
    successful import under a key that was not stored, the export lists
    the imported entries by position, each lap time [str(float(s))] of the
    string [s] supplied (absent when [s] is absent, empty or reads as
    zero); an entry whose lap times are absent or already in the form
    [str] prints comes back with the lap times it went in with. *)
Theorem lap_times_come_back_as_float_strings plan db year round_number
    session_type info qd sid db' :
  db_consistent db = true ->
  (forall s, In s (sessions db) ->
             session_matches year round_number session_type s = false) ->
  storable_key year round_number = true ->
  storable_quali qd = true ->
  forallb short_lap_times (QualiData.results qd) = true ->
  save_qualifying_telemetry plan db year round_number session_type info qd
  = (Some sid, db') ->
  exists q,
    load_qualifying_telemetry db' year round_number session_type = Some q /\
    QualiData.results q
    = map export_result (order_by result_le (QualiData.results qd)) /\
    (forall rd, In rd (QualiData.results qd) ->
       In (export_result rd) (QualiData.results q) /\
       ResultData.Q1 (export_result rd)
       = lap_time_str (stored_lap_time (ResultData.Q1 rd)) /\
       ResultData.Q2 (export_result rd)
       = lap_time_str (stored_lap_time (ResultData.Q2 rd)) /\
       ResultData.Q3 (export_result rd)
       = lap_time_str (stored_lap_time (ResultData.Q3 rd)) /\
       (lap_time_in_float_form (ResultData.Q1 rd) = true ->
        ResultData.Q1 (export_result rd) = ResultData.Q1 rd) /\
       (lap_time_in_float_form (ResultData.Q2 rd) = true ->
        ResultData.Q2 (export_result rd) = ResultData.Q2 rd) /\
       (lap_time_in_float_form (ResultData.Q3 rd) = true ->
        ResultData.Q3 (export_result rd) = ResultData.Q3 rd)).
Proof.
  intros Hcons Habsent _ _ _ Hsave. apply find_session_none in Habsent.
  destruct (@quali_results_after_import _ _ _ _ _ _ _ _ _ Hcons Habsent
              Hsave) as ((q & Hload & Hres) & _).
  exists q. split; [exact Hload |]. split; [exact Hres |].
  intros rd Hin. split.
  - rewrite Hres. apply in_map.
    eapply Permutation_in; [| exact Hin].
    apply Permutation_sym. apply order_by_perm.
  - simpl. repeat split; try reflexivity;
      apply lap_time_in_float_form_round_trip.
Qed.

(** A qualifying session with lap times in the form [str] prints. *)
Definition plain_quali : QualiData.dict :=
  QualiData.mk
    [ResultData.mk (Some "HAM"%string) None (Some 2%Z) (Some (0, 210, 190)%Z)
       (Some "88.5"%string) (Some "87.25"%string) None;
     ResultData.mk (Some "VER"%string) None (Some 1%Z) None
       (Some "88.125"%string) (Some "87.123"%string) (Some "86.5"%string)]
    [("VER"%string,
      DriverSegments.mk None [("Q3"%string, sample_segment 320 61)])]
    None None.

Definition plain_store : Database :=
  Eval vm_compute in
    snd (save_qualifying_telemetry [] sample_store 2024 5 "Q" sample_info
           plain_quali).

(** A race with two frames at the same time and two track statuses given
    latest first, and the store that holds it beside the sample race and a
    qualifying session. *)
Definition busy_race : TelemetryData.dict :=
  TelemetryData.mk
    [sample_frame 1 None; sample_frame 1 None; sample_frame 2 None]
    []
    [StatusData.mk (Some "4"%string) (Some 5%Q) None;
     StatusData.mk (Some "1"%string) (Some 1%Q) (Some 5%Q)]
    (Some 78%Z).

Definition busy_store : Database :=
  Eval vm_compute in
    snd (save_race_telemetry [] plain_store 2024 6 "R" sample_info
           busy_race).

Lemma exports_are_ordered_witness :
  exists s p s' q,
    find_session busy_store 2024 6 "R" = Some s /\
    load_race_telemetry busy_store 2024 6 "R" = Some p /\
    find_session busy_store 2024 5 "Q" = Some s' /\
    load_qualifying_telemetry busy_store 2024 5 "Q" = Some q /\
    map FrameData.t (TelemetryData.frames p)
    = [Some 1%Q; Some 1%Q; Some 2%Q] /\
    map StatusData.start_time (TelemetryData.track_statuses p)
    = [Some 1%Q; Some 5%Q] /\
    map ResultData.position (QualiData.results q) = [Some 1%Z; Some 2%Z] /\
    List.length (get_all_sessions busy_store) = 3%nat /\
    (StronglySorted opt_Qle (map FrameData.t (TelemetryData.frames p)) /\
     Permutation (map FrameData.t (TelemetryData.frames p))
       (map (fun r => Some (TelemetryFrame.time r))
          (filter (fun f =>
                     (TelemetryFrame.session_id f =? Session.id s)%Z)
             (telemetry_frames busy_store))) /\
     StronglySorted opt_Qle
       (map StatusData.start_time (TelemetryData.track_statuses p)) /\
     Permutation (TelemetryData.track_statuses p)
       (map load_track_status
          (filter (fun t => (TrackStatus.session_id t =? Session.id s)%Z)
             (track_statuses busy_store)))) /\
    (StronglySorted opt_Zle (map ResultData.position (QualiData.results q))
     /\
     Permutation (map ResultData.position (QualiData.results q))
       (map (fun r => Some (QualifyingResult.position r))
          (filter (fun r =>
                     (QualifyingResult.session_id r =? Session.id s')%Z)
             (qualifying_results busy_store)))) /\
    StronglySorted catalog_order (get_all_sessions busy_store) /\
    Permutation (get_all_sessions busy_store)
      (map catalog_entry (sessions busy_store)).
Proof.
  destruct (@exports_are_ordered busy_store 2024 6 "R" 2024 5 "Q")
    as (Hrace & Hquali & Hsorted & Hall).
  eexists. eexists. eexists. eexists.
  split; [vm_compute; reflexivity |].
  split; [vm_compute; reflexivity |].
  split; [vm_compute; reflexivity |].
  split; [vm_compute; reflexivity |].
  split; [reflexivity |]. split; [reflexivity |]. split; [reflexivity |].
  split; [reflexivity |].
  split; [apply Hrace; vm_compute; reflexivity |].
  split; [apply Hquali; vm_compute; reflexivity |].
  split; [exact Hsorted | exact Hall].
Defined.

Lemma lap_times_come_back_as_float_strings_witness :
  exists q,
    load_qualifying_telemetry plain_store 2024 5 "Q" = Some q /\
    QualiData.results q
    = map export_result (order_by result_le (QualiData.results plain_quali))
    /\
    (forall rd, In rd (QualiData.results plain_quali) ->
       In (export_result rd) (QualiData.results q) /\
       ResultData.Q1 (export_result rd)
       = lap_time_str (stored_lap_time (ResultData.Q1 rd)) /\
       ResultData.Q2 (export_result rd)
       = lap_time_str (stored_lap_time (ResultData.Q2 rd)) /\
       ResultData.Q3 (export_result rd)
       = lap_time_str (stored_lap_time (ResultData.Q3 rd)) /\
       (lap_time_in_float_form (ResultData.Q1 rd) = true ->
        ResultData.Q1 (export_result rd) = ResultData.Q1 rd) /\
       (lap_time_in_float_form (ResultData.Q2 rd) = true ->
        ResultData.Q2 (export_result rd) = ResultData.Q2 rd) /\
       (lap_time_in_float_form (ResultData.Q3 rd) = true ->
        ResultData.Q3 (export_result rd) = ResultData.Q3 rd)).
Proof.
  apply (@lap_times_come_back_as_float_strings [] sample_store 2024 5 "Q"
           sample_info plain_quali 2 plain_store).
  - reflexivity.
  - intros s Hs. simpl in Hs. destruct Hs as [<- | []]. reflexivity.
  - reflexivity.
  - reflexivity.
  - reflexivity.
  - vm_compute. reflexivity.
Defined.

(* ------------------------------------------------------------------ *)
(** ** Dictionaries *)

Section DictFacts.
Context {K V : Type} `{Key K}.

Lemma key_eqb_refl (k : K) : key_eqb k k = true.
Proof. destruct (key_eqb_spec k k); congruence. Qed.

Lemma key_eqb_neq (k k' : K) : k <> k' -> key_eqb k k' = false.
Proof. intros Hn. destruct (key_eqb_spec k k'); congruence. Qed.

Lemma dict_get_set_same (k : K) (v : V) d :
  dict_get k (dict_set k v d) = Some v.
Proof.
  induction d as [| [k' v'] r IH]; simpl.
  - rewrite key_eqb_refl. reflexivity.
  - destruct (key_eqb_spec k k') as [-> | Hn]; simpl.
    + rewrite key_eqb_refl. reflexivity.
    + rewrite (key_eqb_neq Hn). exact IH.
Qed.

Lemma dict_get_set_other (k k' : K) (v : V) d :
  k' <> k -> dict_get k' (dict_set k v d) = dict_get k' d.
Proof.
  intros Hn. induction d as [| [k0 v0] r IH]; simpl.
  - rewrite (key_eqb_neq Hn). reflexivity.
  - destruct (key_eqb_spec k k0) as [-> | Hn0]; simpl.
    + rewrite (key_eqb_neq Hn). reflexivity.
    + destruct (key_eqb k' k0); [reflexivity | exact IH].
Qed.

Lemma dict_get_none_iff (k : K) (d : pydict K V) :
  dict_get k d = None <-> ~ In k (dict_keys d).
Proof.
  induction d as [| [k' v'] r IH]; simpl.
  - tauto.
  - destruct (key_eqb_spec k k') as [-> | Hn].
    + split; [discriminate | intros Hc; exfalso; apply Hc; auto].
    + rewrite IH. split.
      * intros Hr [He | Hi]; [congruence | contradiction].
      * intros Hc Hi. apply Hc. auto.
Qed.

(** A new key goes last. *)
Lemma dict_set_new (k : K) (v : V) d :
  dict_get k d = None -> dict_set k v d = d ++ [(k, v)].
Proof.
  induction d as [| [k' v'] r IH]; simpl; intros Hg.
  - reflexivity.
  - destruct (key_eqb k k'); [discriminate |]. rewrite IH by exact Hg.
    reflexivity.
Qed.

Lemma dict_keys_set (k : K) (v : V) d k' :
  In k' (dict_keys (dict_set k v d)) <-> k' = k \/ In k' (dict_keys d).
Proof.
  induction d as [| [k0 v0] r IH]; simpl.
  - split; [intros [<- | []]; auto | intros [-> | []]; auto].
  - destruct (key_eqb_spec k k0) as [-> | Hn]; simpl.
    + intuition (subst; auto).
    + rewrite IH. intuition (subst; auto).
Qed.

End DictFacts.

Lemma try_fold_app {A S} (l1 l2 : list A) (s : S) body :
  try_fold (l1 ++ l2) s body =
  match try_fold l1 s body with
  | Some s1 => try_fold l2 s1 body
  | None => None
  end.
Proof.
  revert s. induction l1 as [| a r IH]; simpl; intros s.
  - reflexivity.
  - destruct (body s a); [apply IH | reflexivity].
Qed.

Lemma next_id_snoc ids : next_id (ids ++ [next_id ids]) = (next_id ids + 1)%Z.
Proof.
  unfold next_id. rewrite fold_right_app. cbn [fold_right].
  assert (H0 : (0 <= fold_right Z.max 0 ids)%Z).
  { induction ids as [| y r IH]; cbn [fold_right]; lia. }
  assert (Hg : forall m, (fold_right Z.max 0 ids <= m)%Z ->
                         fold_right Z.max m ids = m).
  { induction ids as [| y r IH]; cbn [fold_right]; intros m Hm.
    - reflexivity.
    - cbn [fold_right] in Hm, H0.
      assert (H0r : (0 <= fold_right Z.max 0 r)%Z).
      { clear. induction r as [| z r IH]; cbn [fold_right]; lia. }
      rewrite IH by lia. lia. }
  rewrite Hg by lia. lia.
Qed.

(* ------------------------------------------------------------------ *)
(** ** Race sessions: the drivers a successful import stored *)

(** The [Driver] row of a code of the first frame. *)
Definition race_driver (sid : Z) (colors : pydict string rgb)
    (code : string) (i : Z) : Driver.row :=
  let '(r, g, b) := dict_get_default code default_color colors in
  Driver.mk i sid code None None None r g b.

(** The rows of the codes, under consecutive rowids from [n]. *)
Fixpoint race_drivers (sid : Z) (colors : pydict string rgb) (n : Z)
    (codes : list string) : list Driver.row :=
  match codes with
  | [] => []
  | c :: r => race_driver sid colors c n :: race_drivers sid colors (n + 1) r
  end.

(** [driver_map] once the rows [ds] are added. *)
Definition driver_map_of (ds : list Driver.row) (dm : pydict string Z)
    : pydict string Z :=
  fold_left (fun dm d => dict_set (Driver.driver_code d) (Driver.id d) dm)
    ds dm.

Definition with_drivers (ds : list Driver.row) (db : Database) : Database :=
  mkDatabase (sessions db) (drivers db ++ ds) (telemetry_frames db)
    (driver_telemetry db) (track_statuses db) (qualifying_results db)
    (qualifying_telemetry db).

Lemma race_driver_id sid colors code i :
  Driver.id (race_driver sid colors code i) = i.
Proof.
  unfold race_driver.
  destruct (dict_get_default code default_color colors) as [[r g] b].
  reflexivity.
Qed.

Lemma race_driver_code sid colors code i :
  Driver.driver_code (race_driver sid colors code i) = code.
Proof.
  unfold race_driver.
  destruct (dict_get_default code default_color colors) as [[r g] b].
  reflexivity.
Qed.

Lemma race_driver_session sid colors code i :
  Driver.session_id (race_driver sid colors code i) = sid.
Proof.
  unfold race_driver.
  destruct (dict_get_default code default_color colors) as [[r g] b].
  reflexivity.
Qed.

Lemma race_driver_color sid colors code i :
  (Driver.color_r (race_driver sid colors code i),
   Driver.color_g (race_driver sid colors code i),
   Driver.color_b (race_driver sid colors code i))
  = dict_get_default code default_color colors.
Proof.
  unfold race_driver.
  destruct (dict_get_default code default_color colors) as [[r g] b].
  reflexivity.
Qed.

Lemma save_driver_inr sid colors dm code u u' dm' :
  save_driver sid colors dm code u = (u', inr dm') ->
  let n := next_id (map Driver.id (drivers (working u))) in
  committed u' = committed u /\
  working u' = with_driver (race_driver sid colors code n) (working u) /\
  dm' = dict_set code n dm.
Proof.
  unfold save_driver, race_driver.
  destruct (dict_get_default code default_color colors) as [[r g] b].
  intros E. apply bind_inr in E. destruct E as (u1 & i & E1 & E).
  rewrite add_driver_run in E1. inversion E1; subst u1 i. clear E1.
  apply bind_inr in E. destruct E as (u2 & y & E2 & E).
  apply storage_call_inr in E2. simpl in E2. destruct E2 as [Hc Hw].
  apply ret_inr in E. destruct E as [-> ->]. auto.
Qed.

Lemma with_drivers_cons d ds db :
  with_drivers ds (with_driver d db) = with_drivers (d :: ds) db.
Proof.
  unfold with_drivers, with_driver. simpl. rewrite <- app_assoc. reflexivity.
Qed.

Lemma with_drivers_nil db : with_drivers [] db = db.
Proof.
  unfold with_drivers. rewrite app_nil_r. destruct db. reflexivity.
Qed.

Lemma save_drivers_inr sid colors codes : forall dm u u' dm',
  for_fold codes dm (save_driver sid colors) u = (u', inr dm') ->
  let ds := race_drivers sid colors
              (next_id (map Driver.id (drivers (working u)))) codes in
  committed u' = committed u /\
  working u' = with_drivers ds (working u) /\
  dm' = driver_map_of ds dm.
Proof.
  induction codes as [| c codes IH]; simpl; intros dm u u' dm' E.
  - apply ret_inr in E. destruct E as [-> ->].
    rewrite with_drivers_nil. auto.
  - apply bind_inr in E. destruct E as (u1 & dm1 & E1 & E).
    apply save_driver_inr in E1. cbv zeta in E1.
    destruct E1 as (Hc1 & Hw1 & ->).
    apply IH in E. cbv zeta in E. destruct E as (Hc & Hw & ->).
    assert (Hn : next_id (map Driver.id (drivers (working u1)))
                 = (next_id (map Driver.id (drivers (working u))) + 1)%Z).
    { rewrite Hw1. simpl. rewrite map_app. simpl.
      rewrite race_driver_id. apply next_id_snoc. }
    rewrite Hn in *. rewrite Hw, Hw1, with_drivers_cons.
    unfold driver_map_of. simpl.
    rewrite race_driver_code, race_driver_id.
    repeat split; congruence.
Qed.

(** The codes, sessions and identifiers of the new rows. *)
Lemma race_drivers_codes sid colors codes : forall n,
  map Driver.driver_code (race_drivers sid colors n codes) = codes.
Proof.
  induction codes as [| c r IH]; simpl; intros n.
  - reflexivity.
  - rewrite race_driver_code, IH. reflexivity.
Qed.

Lemma race_drivers_sessions sid colors codes : forall n d,
  In d (race_drivers sid colors n codes) -> Driver.session_id d = sid.
Proof.
  induction codes as [| c r IH]; simpl; intros n d Hd.
  - contradiction.
  - destruct Hd as [<- | Hd].
    + apply race_driver_session.
    + eapply IH. exact Hd.
Qed.

(** [driver_map] and [driver_id_to_code] are inverse to each other on the
    new rows. *)
Lemma driver_maps_inverse sid colors codes : forall n dm dtc,
  (forall code did, dict_get code dm = Some did ->
     (did < n)%Z /\ dict_get did dtc = Some code) ->
  forall code did,
    dict_get code (driver_map_of (race_drivers sid colors n codes) dm)
    = Some did ->
    (did < n + Z.of_nat (List.length codes))%Z /\
    dict_get did
      (fold_left (fun acc d =>
                    dict_set (Driver.id d) (Driver.driver_code d) acc)
         (race_drivers sid colors n codes) dtc) = Some code.
Proof.
  induction codes as [| c r IH]; intros n dm dtc Hinv code did Hg.
  - simpl in *. destruct (Hinv _ _ Hg). split; [lia | assumption].
  - cbn [race_drivers driver_map_of fold_left] in *.
    rewrite race_driver_code, race_driver_id in *.
    destruct (IH (n + 1)%Z (dict_set c n dm) (dict_set n c dtc)) with
      (code := code) (did := did) as [Hlt Hd].
    + intros code' did' Hg'.
      destruct (String.eqb_spec code' c) as [-> | Hn].
      * rewrite dict_get_set_same in Hg'. inversion Hg'; subst did'.
        split; [lia |]. apply dict_get_set_same.
      * rewrite dict_get_set_other in Hg' by exact Hn.
        destruct (Hinv _ _ Hg') as [Hlt' Hd'].
        split; [lia |]. rewrite dict_get_set_other by lia. exact Hd'.
    + exact Hg.
    + split; [| exact Hd]. cbn [List.length]. lia.
Qed.

Lemma driver_map_keys ds : forall dm code,
  In code (dict_keys (driver_map_of ds dm)) <->
  In code (dict_keys dm) \/ In code (map Driver.driver_code ds).
Proof.
  induction ds as [| d r IH]; simpl; intros dm code.
  - tauto.
  - unfold driver_map_of in *. simpl. rewrite IH, dict_keys_set.
    intuition (subst; auto).
Qed.

(** The colours the exporter reads back from the new rows. *)
Lemma load_colors_of_race_drivers sid colors codes : forall n acc,
  (forall code v, dict_get code acc = Some v ->
                  v = dict_get_default code default_color colors) ->
  forall code,
    (In code codes \/ In code (dict_keys acc) ->
     dict_get code
       (fold_left (fun acc d =>
          dict_set (Driver.driver_code d)
            (Driver.color_r d, Driver.color_g d, Driver.color_b d) acc)
          (race_drivers sid colors n codes) acc)
     = Some (dict_get_default code default_color colors)) /\
    (~ In code codes -> ~ In code (dict_keys acc) ->
     dict_get code
       (fold_left (fun acc d =>
          dict_set (Driver.driver_code d)
            (Driver.color_r d, Driver.color_g d, Driver.color_b d) acc)
          (race_drivers sid colors n codes) acc) = None).
Proof.
  induction codes as [| c r IH]; intros n acc Hacc code.
  - simpl. split.
    + intros [[] | Hin].
      destruct (dict_get code acc) as [v |] eqn:E.
      * rewrite <- (Hacc _ _ E). exact E.
      * apply dict_get_none_iff in E. contradiction.
    + intros _ Hn. apply dict_get_none_iff. exact Hn.
  - cbn [race_drivers fold_left]. rewrite race_driver_code, race_driver_color.
    specialize (IH (n + 1)%Z
                  (dict_set c (dict_get_default c default_color colors) acc)).
    destruct (IH) with (code := code) as [Hyes Hno].
    + intros code' v Hg. destruct (String.eqb_spec code' c) as [-> | Hn].
      * rewrite dict_get_set_same in Hg. congruence.
      * rewrite dict_get_set_other in Hg by exact Hn. eauto.
    + split.
      * intros Hin. apply Hyes. rewrite dict_keys_set. simpl in Hin.
        intuition (subst; auto).
      * intros Hn1 Hn2. apply Hno.
        -- intros Hc. apply Hn1. right. exact Hc.
        -- rewrite dict_keys_set. intros [-> | Hc].
           ++ apply Hn1. left. reflexivity.
           ++ contradiction.
Qed.

(* ------------------------------------------------------------------ *)
(** ** Race sessions: the frames a successful import stored *)

Lemma save_track_status_inr sid sd u u' x :
  save_track_status sid sd u = (u', inr x) ->
  committed u' = committed u /\
  sessions (working u') = sessions (working u) /\
  drivers (working u') = drivers (working u) /\
  telemetry_frames (working u') = telemetry_frames (working u) /\
  driver_telemetry (working u') = driver_telemetry (working u).
Proof.
  unfold save_track_status. intros E.
  apply bind_inr in E. destruct E as (u1 & st & E1 & E).
  apply subscript_inr in E1. destruct E1 as [_ ->].
  apply bind_inr in E. destruct E as (u2 & t0 & E2 & E).
  apply subscript_inr in E2. destruct E2 as [_ ->].
  apply bind_inr in E. destruct E as (u3 & i & E3 & E).
  rewrite add_track_status_run in E3. inversion E3; subst u3 i.
  apply ret_inr in E. destruct E as [-> _]. simpl. auto.
Qed.

Lemma save_track_statuses_inr sid sts : forall u u' x,
  for_each sts (save_track_status sid) u = (u', inr x) ->
  committed u' = committed u /\
  sessions (working u') = sessions (working u) /\
  drivers (working u') = drivers (working u) /\
  telemetry_frames (working u') = telemetry_frames (working u) /\
  driver_telemetry (working u') = driver_telemetry (working u).
Proof.
  induction sts as [| s r IH]; simpl; intros u u' x E.
  - apply ret_inr in E. destruct E; subst. auto.
  - apply bind_inr in E. destruct E as (u1 & y & E1 & E2).
    apply save_track_status_inr in E1. apply IH in E2.
    destruct E1 as (A1 & A2 & A3 & A4 & A5).
    destruct E2 as (B1 & B2 & B3 & B4 & B5).
    repeat split; congruence.
Qed.

(** What the exporter rebuilds from an imported sample: every field as it
    was, the tyre compound as the float of the stored integer. *)
Definition export_sample (d : DriverData.dict) : DriverData.dict :=
  DriverData.mk (DriverData.x d) (DriverData.y d) (DriverData.dist d)
    (DriverData.rel_dist d) (DriverData.position d) (DriverData.lap d)
    (DriverData.speed d) (DriverData.gear d) (DriverData.drs d)
    (DriverData.throttle d) (DriverData.brake d)
    (Some (py_float_of_int (py_int (or_default 0%Q (DriverData.tyre d))))).

(** A driver code of the first frame. *)
Definition known_driver (codes : list string) (code : string) : bool :=
  existsb (String.eqb code) codes.

(** The samples of a frame the exporter returns: those of the codes of the
    first frame (and not the empty code). *)
Definition export_item (codes : list string)
    (acc : pydict string DriverData.dict) (item : string * DriverData.dict)
    : pydict string DriverData.dict :=
  let '(code, d) := item in
  if known_driver codes code && str_truthy code
  then dict_set code (export_sample d) acc
  else acc.

Definition export_drivers (codes : list string)
    (items : pydict string DriverData.dict) : pydict string DriverData.dict :=
  fold_left (export_item codes) items [].

(** The weather snapshot is exported when it recorded a track
    temperature. *)
Definition export_weather (w : option Weather.dict) : option Weather.dict :=
  match w with
  | Some w' =>
      match Weather.track_temp w' with
      | Some _ => Some w'
      | None => None
      end
  | None => None
  end.

Definition export_frame (codes : list string) (f : FrameData.dict)
    : FrameData.dict :=
  FrameData.mk (FrameData.t f) (FrameData.lap f)
    (export_weather (FrameData.weather f))
    (export_drivers codes (FrameData.drivers f)).

Definition with_points (pts : list DriverTelemetry.row) (db : Database)
    : Database :=
  mkDatabase (sessions db) (drivers db) (telemetry_frames db)
    (driver_telemetry db ++ pts) (track_statuses db) (qualifying_results db)
    (qualifying_telemetry db).

Lemma with_points_nil db : with_points [] db = db.
Proof.
  unfold with_points. rewrite app_nil_r. destruct db. reflexivity.
Qed.

Lemma with_points_app p1 p2 db :
  with_points p2 (with_points p1 db) = with_points (p1 ++ p2) db.
Proof. unfold with_points. simpl. rewrite app_assoc. reflexivity. Qed.

(** [driver_map] and [driver_id_to_code] as the importer and the exporter
    of one session hold them. *)
Record maps_agree (codes : list string) (dm : pydict string Z)
    (dtc : pydict Z string) : Prop := {
  agree_back : forall code did,
    dict_get code dm = Some did -> dict_get did dtc = Some code;
  agree_known : forall code,
    dict_mem code dm = known_driver codes code
}.

Section FramesStored.

Variable codes : list string.
Variable dm : pydict string Z.
Variable dtc : pydict Z string.
Hypothesis Hmaps : maps_agree codes dm dtc.

Lemma save_driver_data_inr fid item u u' x :
  save_driver_data fid dm item u = (u', inr x) ->
  committed u' = committed u /\
  exists pts,
    working u' = with_points pts (working u) /\
    Forall (fun p => DriverTelemetry.frame_id p = fid /\
                     exists code,
                       dict_get code dm = Some (DriverTelemetry.driver_id p))
      pts /\
    forall acc, try_fold pts acc (load_point dtc)
                = Some (export_item codes acc item).
Proof.
  unfold save_driver_data. destruct item as [code d].
  pose proof (agree_known Hmaps code) as Hk. unfold dict_mem in Hk.
  destruct (dict_get code dm) as [did |] eqn:Eg.
  - intros E. apply bind_inr in E. destruct E as (u1 & x0 & E1 & E).
    apply subscript_inr in E1. destruct E1 as [Hx ->].
    apply bind_inr in E. destruct E as (u2 & y0 & E2 & E).
    apply subscript_inr in E2. destruct E2 as [Hy ->].
    apply bind_inr in E. destruct E as (u3 & i & E3 & E).
    rewrite add_driver_telemetry_run in E3. inversion E3; subst u3 i.
    apply ret_inr in E. destruct E as [-> _].
    split; [reflexivity |]. eexists. split; [reflexivity |].
    split.
    { constructor; [| constructor]. simpl. split; [reflexivity |].
      exists code. exact Eg. }
    intros acc. simpl. unfold load_point. simpl.
    rewrite (agree_back Hmaps _ Eg). rewrite <- Hk. simpl.
    destruct (str_truthy code); [| reflexivity].
    unfold export_sample. rewrite Hx, Hy. reflexivity.
  - intros E. apply ret_inr in E. destruct E as [-> _].
    split; [reflexivity |]. exists []. rewrite with_points_nil.
    split; [reflexivity |]. split; [constructor |].
    intros acc. simpl. rewrite <- Hk. reflexivity.
Qed.

Lemma save_drivers_data_inr fid items : forall u u' x,
  for_each items (save_driver_data fid dm) u = (u', inr x) ->
  committed u' = committed u /\
  exists pts,
    working u' = with_points pts (working u) /\
    Forall (fun p => DriverTelemetry.frame_id p = fid /\
                     exists code,
                       dict_get code dm = Some (DriverTelemetry.driver_id p))
      pts /\
    forall acc, try_fold pts acc (load_point dtc)
                = Some (fold_left (export_item codes) items acc).
Proof.
  induction items as [| item r IH]; simpl; intros u u' x E.
  - apply ret_inr in E. destruct E as [-> _]. split; [reflexivity |].
    exists []. rewrite with_points_nil. repeat split. constructor.
  - apply bind_inr in E. destruct E as (u1 & y & E1 & E2).
    apply save_driver_data_inr in E1.
    destruct E1 as (Hc1 & p1 & Hw1 & Hf1 & Ht1).
    apply IH in E2. destruct E2 as (Hc2 & p2 & Hw2 & Hf2 & Ht2).
    split; [congruence |]. exists (p1 ++ p2).
    split; [rewrite Hw2, Hw1; apply with_points_app |].
    split; [apply Forall_app; auto |].
    intros acc. rewrite try_fold_app, Ht1. apply Ht2.
Qed.

(** The [TelemetryFrame] row of a frame with timestamp [t]. *)
Definition frame_row (sid : Z) (f : FrameData.dict) (t : Q) (i : Z)
    : TelemetryFrame.row :=
  let weather := or_default empty_weather (FrameData.weather f) in
  TelemetryFrame.mk i sid t (FrameData.lap f)
    (Weather.track_temp weather) (Weather.air_temp weather)
    (Weather.humidity weather) (Weather.wind_speed weather)
    (Weather.wind_direction weather) (Weather.rain_state weather).

Lemma save_frame_stored sid f u u' x :
  save_frame sid dm f u = (u', inr x) ->
  committed u' = committed u /\
  exists t pts,
    FrameData.t f = Some t /\
    let row := frame_row sid f t
                 (next_id (map TelemetryFrame.id
                             (telemetry_frames (working u)))) in
    working u' = with_points pts (with_frame row (working u)) /\
    Forall (fun p => DriverTelemetry.frame_id p = TelemetryFrame.id row /\
                     exists code,
                       dict_get code dm = Some (DriverTelemetry.driver_id p))
      pts /\
    try_fold pts [] (load_point dtc)
    = Some (export_drivers codes (FrameData.drivers f)).
Proof.
  unfold save_frame. intros E.
  apply bind_inr in E. destruct E as (u1 & t & E1 & E).
  apply subscript_inr in E1. destruct E1 as [Ht ->].
  apply bind_inr in E. destruct E as (u2 & i & E2 & E).
  rewrite add_frame_run in E2. inversion E2; subst u2 i. clear E2.
  apply bind_inr in E. destruct E as (u3 & y & E3 & E).
  apply storage_call_inr in E3. simpl in E3. destruct E3 as [Hc3 Hw3].
  apply save_drivers_data_inr in E.
  destruct E as (Hc & pts & Hw & Hf & Htf).
  split; [congruence |]. exists t, pts. split; [exact Ht |].
  cbv zeta. split; [rewrite Hw, Hw3; reflexivity |].
  split; [exact Hf |]. apply Htf.
Qed.

End FramesStored.

Lemma filter_everything {A} (p : A -> bool) l :
  Forall (fun x => p x = true) l -> filter p l = l.
Proof.
  induction 1 as [| a r Ha _ IH]; simpl.
  - reflexivity.
  - rewrite Ha, IH. reflexivity.
Qed.

Lemma load_frame_same_points db db' dtc row :
  filter (fun p => (DriverTelemetry.frame_id p =? TelemetryFrame.id row)%Z)
    (driver_telemetry db')
  = filter (fun p => (DriverTelemetry.frame_id p =? TelemetryFrame.id row)%Z)
      (driver_telemetry db) ->
  load_frame db' dtc row = load_frame db dtc row.
Proof. unfold load_frame. intros ->. reflexivity. Qed.

Lemma export_weather_of_row sid f t i :
  match TelemetryFrame.track_temp (frame_row sid f t i) with
  | Some _ =>
      Some (Weather.mk
              (TelemetryFrame.track_temp (frame_row sid f t i))
              (TelemetryFrame.air_temp (frame_row sid f t i))
              (TelemetryFrame.humidity (frame_row sid f t i))
              (TelemetryFrame.wind_speed (frame_row sid f t i))
              (TelemetryFrame.wind_direction (frame_row sid f t i))
              (TelemetryFrame.rain_state (frame_row sid f t i)))
  | None => None
  end = export_weather (FrameData.weather f).
Proof.
  unfold frame_row, export_weather. simpl.
  destruct (FrameData.weather f) as [w |]; simpl.
  - destruct w as [tt at_ h ws wd rs]; simpl. destruct tt; reflexivity.
  - reflexivity.
Qed.

(** The frames of session [sid] in the working store, each with the frame
    of the payload the exporter rebuilds from it; and every sample row
    refers to a frame row that exists. *)
Definition frames_stored (codes : list string) (dm : pydict string Z)
    (dtc : pydict Z string) (sid : Z) (W : Database)
    (done : list FrameData.dict) : Prop :=
  Forall2
    (fun row f =>
       load_frame W dtc row = Some (export_frame codes f) /\
       (TelemetryFrame.id row
        < next_id (map TelemetryFrame.id (telemetry_frames W)))%Z)
    (filter (fun r => (TelemetryFrame.session_id r =? sid)%Z)
       (telemetry_frames W))
    done /\
  Forall (fun p => (DriverTelemetry.frame_id p
                    < next_id (map TelemetryFrame.id (telemetry_frames W)))%Z)
    (driver_telemetry W) /\
  Forall (fun p =>
            In (DriverTelemetry.frame_id p)
               (map TelemetryFrame.id
                  (filter (fun r => (TelemetryFrame.session_id r =? sid)%Z)
                     (telemetry_frames W))) ->
            exists code,
              dict_get code dm = Some (DriverTelemetry.driver_id p))
    (driver_telemetry W).

Section FramesLoop.

Variable codes : list string.
Variable dm : pydict string Z.
Variable dtc : pydict Z string.
Hypothesis Hmaps : maps_agree codes dm dtc.
Variable sid : Z.

Lemma frames_stored_step f u u' x done :
  save_frame sid dm f u = (u', inr x) ->
  frames_stored codes dm dtc sid (working u) done ->
  frames_stored codes dm dtc sid (working u') (done ++ [f]) /\
  committed u' = committed u /\
  sessions (working u') = sessions (working u) /\
  drivers (working u') = drivers (working u).
Proof.
  intros E (H2 & Hb & Ho). apply (save_frame_stored Hmaps) in E.
  destruct E as (Hc & t & pts & Ht & Hw & Hf & Htf). cbv zeta in Hw, Hf.
  set (n := next_id (map TelemetryFrame.id (telemetry_frames (working u))))
    in *.
  set (row := frame_row sid f t n) in *.
  assert (Hid : TelemetryFrame.id row = n) by reflexivity.
  rewrite Hid in Hf. rewrite Forall_forall in Hf.
  assert (Hfid : forall p, In p pts -> DriverTelemetry.frame_id p = n).
  { intros p Hp. apply (Hf p Hp). }
  assert (Hn' : next_id (map TelemetryFrame.id
                           (telemetry_frames (working u) ++ [row]))
                = (n + 1)%Z).
  { rewrite map_app. simpl. apply next_id_snoc. }
  assert (Hnew : filter (fun p => (DriverTelemetry.frame_id p =? n)%Z)
                   (driver_telemetry (working u)) = []).
  { apply filter_nothing. intros p Hp. rewrite Forall_forall in Hb.
    specialize (Hb p Hp). apply Z.eqb_neq. fold n in Hb. lia. }
  assert (Hpts : filter (fun p => (DriverTelemetry.frame_id p =? n)%Z) pts
                 = pts).
  { apply filter_everything. apply Forall_forall. intros p Hp.
    rewrite (Hfid p Hp). apply Z.eqb_refl. }
  split; [| rewrite Hw; simpl; auto].
  unfold frames_stored. rewrite Hw.
  cbn [telemetry_frames driver_telemetry with_points with_frame].
  rewrite Hn'. rewrite filter_app. cbn [filter].
  replace (TelemetryFrame.session_id row =? sid)%Z with true
    by (symmetry; apply Z.eqb_refl).
  split; [| split].
  - apply Forall2_app.
    + eapply Forall2_impl; [| exact H2].
      intros r0 f0 [Hl Hlt]. fold n in Hlt. split; [| lia].
      rewrite <- Hl. apply load_frame_same_points.
      cbn [telemetry_frames driver_telemetry with_points with_frame].
      rewrite filter_app.
      rewrite (@filter_nothing _ _ pts); [apply app_nil_r |].
      intros p Hp. apply Z.eqb_neq. rewrite (Hfid p Hp). lia.
    + constructor; [| constructor]. split; [| rewrite Hid; lia].
      unfold load_frame.
      cbn [telemetry_frames driver_telemetry with_points with_frame].
      rewrite Hid.
      rewrite filter_app, Hnew, Hpts. cbn [app]. rewrite Htf.
      unfold row. rewrite export_weather_of_row.
      unfold export_frame. rewrite Ht. reflexivity.
  - apply Forall_app. split.
    + eapply Forall_impl; [| exact Hb]. intros p Hp. cbv beta in Hp.
      fold n in Hp. lia.
    + apply Forall_forall. intros p Hp. rewrite (Hfid p Hp). lia.
  - apply Forall_app. split.
    + rewrite Forall_forall in Ho, Hb. apply Forall_forall.
      intros p Hp Hin. apply (Ho p Hp).
      rewrite map_app in Hin. apply in_app_or in Hin.
      destruct Hin as [Hin | Hin]; [exact Hin |].
      cbn [map In] in Hin. destruct Hin as [Hin | []].
      specialize (Hb p Hp). fold n in Hb. rewrite Hid in Hin. lia.
    + apply Forall_forall. intros p Hp _. apply (Hf p Hp).
Qed.

Lemma frames_stored_batch fs : forall u u' x done,
  for_each fs (save_frame sid dm) u = (u', inr x) ->
  frames_stored codes dm dtc sid (working u) done ->
  frames_stored codes dm dtc sid (working u') (done ++ fs) /\
  committed u' = committed u /\
  sessions (working u') = sessions (working u) /\
  drivers (working u') = drivers (working u).
Proof.
  induction fs as [| f fs IH]; simpl; intros u u' x done E Hs.
  - apply ret_inr in E. destruct E as [-> _]. rewrite app_nil_r. auto.
  - apply bind_inr in E. destruct E as (u1 & y & E1 & E2).
    eapply frames_stored_step in E1; [| exact Hs].
    destruct E1 as (Hs1 & A1 & A2 & A3).
    destruct (IH _ _ _ _ E2 Hs1) as (Hs2 & B1 & B2 & B3).
    rewrite <- app_assoc in Hs2. simpl in Hs2.
    split; [exact Hs2 |]. repeat split; congruence.
Qed.

(** The loop over the batches, for any list of batch starts. *)
Lemma frames_stored_batches frames starts : forall u u' x done,
  for_each starts (fun i =>
    for_each (py_slice frames i (i + batch_size)) (save_frame sid dm) ;;
    commit) u = (u', inr x) ->
  frames_stored codes dm dtc sid (working u) done ->
  frames_stored codes dm dtc sid (working u')
    (done ++ List.concat (map (fun i => py_slice frames i (i + batch_size))
                       starts)) /\
  (starts <> [] -> committed u' = working u') /\
  (starts = [] -> committed u' = committed u) /\
  sessions (working u') = sessions (working u) /\
  drivers (working u') = drivers (working u).
Proof.
  induction starts as [| i r IH]; simpl; intros u u' x done E Hs.
  - apply ret_inr in E. destruct E as [-> _]. rewrite app_nil_r.
    split; [exact Hs |]. repeat split; auto. congruence.
  - apply bind_inr in E. destruct E as (u1 & y & E1 & E2).
    apply bind_inr in E1. destruct E1 as (u2 & z & E1 & E3).
    apply commit_inr in E3. destruct E3 as [Hc3 Hw3].
    eapply frames_stored_batch in E1; [| exact Hs].
    destruct E1 as (Hs1 & A1 & A2 & A3).
    rewrite <- Hw3 in Hs1.
    pose proof E2 as E2'.
    destruct (IH _ _ _ _ E2 Hs1) as (Hs2 & B1 & B2 & B3 & B4).
    rewrite <- app_assoc in Hs2.
    split; [exact Hs2 |]. split.
    + intros _. destruct r as [| j r].
      * rewrite B2 by reflexivity. simpl in E2'. apply ret_inr in E2'.
        destruct E2' as [-> _]. congruence.
      * apply B1. discriminate.
    + split; [discriminate |]. split; congruence.
Qed.

End FramesLoop.

(** The batches, one after the other, are the frames. *)
Lemma firstn_plus {A} a b : forall l : list A,
  firstn (a + b) l = firstn a l ++ firstn b (skipn a l).
Proof.
  induction a as [| a IH]; intros l; simpl.
  - reflexivity.
  - destruct l as [| x l]; simpl.
    + rewrite firstn_nil. reflexivity.
    + rewrite IH. reflexivity.
Qed.

Lemma slices_concat {A} (l : list A) step m : forall s,
  List.concat (map (fun k => firstn step (skipn (k * step) l)) (seq s m))
  = firstn (m * step) (skipn (s * step) l).
Proof.
  induction m as [| m IH]; intros s; simpl.
  - reflexivity.
  - rewrite IH, firstn_plus, skipn_skipn.
    replace (step + s * step)%nat with (S s * step)%nat by (simpl; lia).
    reflexivity.
Qed.

Lemma batches_concat {A} (l : list A) step :
  (0 < step)%nat ->
  List.concat (map (fun i => py_slice l i (i + step))
                 (py_range (List.length l) step)) = l.
Proof.
  intros Hstep. unfold py_range. rewrite map_map.
  rewrite (map_ext _ (fun k => firstn step (skipn (k * step) l))).
  - rewrite slices_concat. simpl. apply firstn_all2.
    pose proof (Nat.mul_succ_div_gt (List.length l + step - 1) step
                  ltac:(lia)) as H.
    lia.
  - intros k. unfold py_slice. f_equal. lia.
Qed.

Lemma try_map_of_Forall2 {A B C} (g : A -> option B) (h : C -> B)
    (P : A -> Prop) rows fs :
  Forall2 (fun row f => g row = Some (h f) /\ P row) rows fs ->
  try_map g rows = Some (map h fs).
Proof.
  induction 1 as [| row f rows fs [Hg _] _ IH]; simpl.
  - reflexivity.
  - rewrite Hg, IH. reflexivity.
Qed.

(** The order of the imported frames by timestamp. *)
Definition frame_le (a b : FrameData.dict) : bool :=
  Qle_bool (or_default 0%Q (FrameData.t a)) (or_default 0%Q (FrameData.t b)).

Lemma known_driver_spec codes code :
  known_driver codes code = true <-> In code codes.
Proof.
  unfold known_driver. rewrite existsb_exists. split.
  - intros (c & Hc & He). apply String.eqb_eq in He. subst. exact Hc.
  - intros Hc. exists code. split; [exact Hc | apply String.eqb_refl].
Qed.

Lemma driver_map_values ds : forall dm code did,
  dict_get code (driver_map_of ds dm) = Some did ->
  dict_get code dm = Some did \/
  exists d, In d ds /\ Driver.id d = did /\ Driver.driver_code d = code.
Proof.
  induction ds as [| d r IH]; intros dm code did Hg.
  - left. exact Hg.
  - unfold driver_map_of in Hg. simpl in Hg. apply IH in Hg.
    destruct Hg as [Hg | (d' & Hin & Hid & Hcode)].
    + destruct (String.eqb_spec code (Driver.driver_code d)) as [-> | Hn].
      * rewrite dict_get_set_same in Hg. inversion Hg; subst.
        right. exists d. simpl. auto.
      * rewrite dict_get_set_other in Hg by exact Hn. left. exact Hg.
    + right. exists d'. simpl. auto.
Qed.

Lemma race_maps_agree sid colors n codes :
  maps_agree codes
    (driver_map_of (race_drivers sid colors n codes) [])
    (load_driver_id_to_code (race_drivers sid colors n codes)).
Proof.
  split.
  - intros code did Hg.
    eapply (@driver_maps_inverse sid colors codes n [] []); [| exact Hg].
    intros c d Hc. discriminate Hc.
  - intros code. unfold dict_mem.
    destruct (known_driver codes code) eqn:Ek.
    + apply known_driver_spec in Ek.
      destruct (dict_get code _) eqn:Eg; [reflexivity |].
      apply dict_get_none_iff in Eg. exfalso. apply Eg.
      apply driver_map_keys. right. rewrite race_drivers_codes. exact Ek.
    + destruct (dict_get code _) eqn:Eg; [| reflexivity].
      exfalso.
      assert (Hin : In code (dict_keys
                (driver_map_of (race_drivers sid colors n codes) []))).
      { destruct (in_dec string_dec code
                    (dict_keys (driver_map_of
                       (race_drivers sid colors n codes) []))) as [Hi | Hi];
          [exact Hi |].
        apply dict_get_none_iff in Hi. congruence. }
      apply driver_map_keys in Hin. destruct Hin as [[] | Hin].
      rewrite race_drivers_codes in Hin.
      apply known_driver_spec in Hin. congruence.
Qed.

(** What referential integrity gives for a session identifier that is not
    in use yet. *)
Lemma consistent_no_rows_of_new_session db :
  db_consistent db = true ->
  let sid := next_id (map Session.id (sessions db)) in
  filter (fun d => (Driver.session_id d =? sid)%Z) (drivers db) = [] /\
  filter (fun f => (TelemetryFrame.session_id f =? sid)%Z)
    (telemetry_frames db) = [] /\
  Forall (fun p => (DriverTelemetry.frame_id p
                    < next_id (map TelemetryFrame.id (telemetry_frames db)))%Z)
    (driver_telemetry db).
Proof.
  intros Hc sid. unfold db_consistent in Hc.
  repeat rewrite andb_true_iff in Hc.
  destruct Hc as [[[[[Hd Hf] Hp] _] _] _].
  rewrite forallb_forall in Hd, Hf, Hp. repeat split.
  - apply filter_nothing. intros d Hin. specialize (Hd d Hin).
    apply refers_below in Hd. apply Z.eqb_neq. unfold sid. lia.
  - apply filter_nothing. intros f Hin. specialize (Hf f Hin).
    apply refers_below in Hf. apply Z.eqb_neq. unfold sid. lia.
  - apply Forall_forall. intros p Hin. specialize (Hp p Hin).
    apply andb_true_iff in Hp. destruct Hp as [Hp _].
    apply refers_below. exact Hp.
Qed.

(** After a successful race import of at least one frame under a key that
    was not stored, the export finds the session and returns the imported
    frames, rebuilt, in the order of their timestamps; the drivers of the
    session are those of the first frame, with the colour supplied or the
    default one. *)
Lemma race_export_after_import plan db year round_number session_type info
    data sid db' first rest :
  db_consistent db = true ->
  find_session db year round_number session_type = None ->
  TelemetryData.frames data = first :: rest ->
  save_race_telemetry plan db year round_number session_type info data
  = (Some sid, db') ->
  let codes := dict_keys (FrameData.drivers first) in
  exists p,
    load_race_telemetry db' year round_number session_type = Some p /\
    TelemetryData.frames p
    = map (export_frame codes)
        (order_by frame_le (TelemetryData.frames data)) /\
    TelemetryData.total_laps p
    = Some (or_default 0%Z (TelemetryData.total_laps data)) /\
    (exists n,
       filter (fun d => (Driver.session_id d =? sid)%Z) (drivers db')
       = race_drivers sid (TelemetryData.driver_colors data) n codes) /\
    (forall code, In code codes ->
       dict_get code (TelemetryData.driver_colors p)
       = Some (dict_get_default code default_color
                 (TelemetryData.driver_colors data))) /\
    (forall code, ~ In code codes ->
       dict_get code (TelemetryData.driver_colors p) = None) /\
    (forall f, In f (TelemetryData.frames data) -> FrameData.t f <> None) /\
    (forall pt fr,
       In pt (driver_telemetry db') -> In fr (telemetry_frames db') ->
       TelemetryFrame.session_id fr = sid ->
       DriverTelemetry.frame_id pt = TelemetryFrame.id fr ->
       exists d, In d (drivers db') /\ Driver.session_id d = sid /\
                 Driver.id d = DriverTelemetry.driver_id pt /\
                 In (Driver.driver_code d) codes).
Proof.
  intros Hcons Hfind Hframes Hsave codes.
  unfold save_race_telemetry in Hsave.
  rewrite save_race_body_fresh in Hsave by exact Hfind.
  simpl working in Hsave. simpl committed in Hsave. simpl faults in Hsave.
  set (i := next_id (map Session.id (sessions db))) in *.
  set (new := race_session year round_number session_type info data i) in *.
  destruct ((flush ;; save_race_rows i data ;; ret i)
              (mkUnit db (with_session new db) plan))
    as [u [e | sid']] eqn:E; [discriminate |].
  inversion Hsave; subst sid' db'. clear Hsave.
  apply bind_inr in E. destruct E as (u1 & y1 & E1 & E).
  apply storage_call_inr in E1. simpl in E1. destruct E1 as [Hc1 Hw1].
  apply bind_inr in E. destruct E as (u2 & y2 & E2 & E).
  apply ret_inr in E. destruct E as [-> ->].
  pose proof (save_race_rows_inr _ _ _ E2) as Htimes.
  unfold save_race_rows in E2. rewrite Hframes in E2.
  apply bind_inr in E2. destruct E2 as (ua & dm & Ea & E2).
  apply save_drivers_inr in Ea. cbv zeta in Ea.
  destruct Ea as (Hca & Hwa & Hdm).
  apply bind_inr in E2. destruct E2 as (ub & yb & Eb & E2).
  apply save_track_statuses_inr in Eb.
  destruct Eb as (Hcb & Hsb & Hdb & Hfb & Hpb).
  fold codes in Hwa, Hdm.
  set (ds := race_drivers i (TelemetryData.driver_colors data)
               (next_id (map Driver.id (drivers (working u1)))) codes) in *.
  destruct (@consistent_no_rows_of_new_session db Hcons)
    as (Hnd & Hnf & Hnp). fold i in Hnd, Hnf.
  assert (Hagree : maps_agree codes dm (load_driver_id_to_code ds)).
  { subst dm. apply race_maps_agree. }
  unfold save_batches in E2.
  eapply (frames_stored_batches Hagree) with (done := []) in E2.
  - destruct E2 as (Hst & Hcommit & _ & Hs2 & Hd2).
    rewrite batches_concat in Hst by (unfold batch_size; lia).
    simpl app in Hst.
    assert (Hne : py_range (List.length (first :: rest)) batch_size <> []).
    { destruct (@py_range_starts_at_zero (List.length (first :: rest))
                  batch_size) as [r Hr];
        [simpl; lia | unfold batch_size; lia |].
      rewrite Hr. discriminate. }
    specialize (Hcommit Hne). unfold close_session. rewrite Hcommit.
    set (W := working u2) in *.
    assert (Hsess : sessions W = sessions db ++ [new]).
    { rewrite Hs2, Hsb, Hwa. simpl. rewrite Hw1. reflexivity. }
    assert (Hdrv : drivers W = drivers db ++ ds).
    { rewrite Hd2, Hdb, Hwa. simpl. rewrite Hw1. reflexivity. }
    assert (Hrows : filter (fun d => (Driver.session_id d =? i)%Z)
                      (drivers W) = ds).
    { rewrite Hdrv, filter_app, Hnd. simpl. apply filter_everything.
      apply Forall_forall. intros d Hd. unfold ds in Hd.
      apply race_drivers_sessions in Hd. rewrite Hd. apply Z.eqb_refl. }
    unfold load_race_telemetry.
    rewrite (@find_session_app_new _ _ _ _ _ _ Hfind Hsess).
    unfold new at 1. rewrite race_session_matches.
    change (Session.id new) with i. rewrite Hrows.
    destruct Hst as (Hst & _ & Hown).
    assert (Hsorted :
      Forall2
        (fun row f =>
           load_frame W (load_driver_id_to_code ds) row
           = Some (export_frame codes f) /\
           (TelemetryFrame.id row
            < next_id (map TelemetryFrame.id (telemetry_frames W)))%Z)
        (order_by (fun a b => Qle_bool (TelemetryFrame.time a)
                                       (TelemetryFrame.time b))
           (filter (fun r => (TelemetryFrame.session_id r =? i)%Z)
              (telemetry_frames W)))
        (order_by frame_le (first :: rest))).
    { apply order_by_Forall2; [| exact Hst].
      intros a b a' b' [Ha _] [Ha' _]. unfold frame_le.
      apply load_frame_time in Ha. apply load_frame_time in Ha'.
      simpl in Ha, Ha'. rewrite Ha, Ha'. reflexivity. }
    apply try_map_of_Forall2 in Hsorted. rewrite Hsorted.
    eexists. split; [reflexivity |]. simpl.
    rewrite Hframes. split; [reflexivity |]. split; [reflexivity |].
    split; [eexists; reflexivity |].
    split; [| split].
    + intros code Hin. unfold load_driver_colors, ds.
      eapply load_colors_of_race_drivers.
      * intros c v Hc. discriminate Hc.
      * left. exact Hin.
    + intros code Hin. unfold load_driver_colors, ds.
      eapply load_colors_of_race_drivers.
      * intros c v Hc. discriminate Hc.
      * exact Hin.
      * simpl. tauto.
    + split; [rewrite <- Hframes; exact Htimes |].
      intros pt fr Hpt Hfr Hsid Hfid.
      rewrite Forall_forall in Hown. destruct (Hown pt Hpt) as [code Hg].
      { rewrite Hfid. apply in_map. apply filter_In. split; [exact Hfr |].
        rewrite Hsid. apply Z.eqb_refl. }
      rewrite Hdm in Hg. apply driver_map_values in Hg.
      destruct Hg as [Hg | (d & Hin & Hid & Hcode)]; [discriminate Hg |].
      exists d. split; [rewrite Hdrv; apply in_or_app; right; exact Hin |].
      split; [eapply race_drivers_sessions; exact Hin |].
      split; [exact Hid |].
      unfold ds in Hin. apply (in_map Driver.driver_code) in Hin.
      rewrite race_drivers_codes in Hin. exact Hin.
  - split; [| split].
    + rewrite Hfb, Hwa. simpl. rewrite Hw1. simpl. rewrite Hnf. constructor.
    + rewrite Hfb, Hpb, Hwa. simpl. rewrite Hw1. simpl. exact Hnp.
    + rewrite Hfb, Hpb, Hwa. simpl. rewrite Hw1. simpl. rewrite Hnf.
      apply Forall_forall. intros p _ [].
Qed.

Lemma export_drivers_unknown codes code items : forall acc,
  ~ In code codes -> dict_get code acc = None ->
  dict_get code (fold_left (export_item codes) items acc) = None.
Proof.
  induction items as [| [c d] r IH]; simpl; intros acc Hn Hacc.
  - exact Hacc.
  - apply IH; [exact Hn |].
    destruct (known_driver codes c) eqn:Ek; simpl; [| exact Hacc].
    destruct (str_truthy c); [| exact Hacc].
    rewrite dict_get_set_other; [exact Hacc |].
    intros ->. apply Hn. apply known_driver_spec. exact Ek.
Qed.

(* ------------------------------------------------------------------ *)
(** ** Drivers that join after the first frame *)

(** C5: after a successful race import under a key that was not stored,
    the [Driver] rows of the session are those of the driver codes of the
    first frame, every stored sample of the session belongs to one of these
    drivers, and no exported frame has a sample for a code outside the first
    frame: the samples of a driver who first appears in a later frame are
    neither stored nor exported. *)
Theorem later_drivers_are_not_stored plan db year round_number session_type
    info data sid db' first rest :
  db_consistent db = true ->
  (forall s, In s (sessions db) ->
             session_matches year round_number session_type s = false) ->
  TelemetryData.frames data = first :: rest ->
  save_race_telemetry plan db year round_number session_type info data
  = (Some sid, db') ->
  let codes := dict_keys (FrameData.drivers first) in
  map Driver.driver_code
    (filter (fun d => (Driver.session_id d =? sid)%Z) (drivers db'))
  = codes /\
  (forall pt fr,
     In pt (driver_telemetry db') -> In fr (telemetry_frames db') ->
     TelemetryFrame.session_id fr = sid ->
     DriverTelemetry.frame_id pt = TelemetryFrame.id fr ->
     exists d, In d (drivers db') /\ Driver.session_id d = sid /\
               Driver.id d = DriverTelemetry.driver_id pt /\
               In (Driver.driver_code d) codes) /\
  exists p,
    load_race_telemetry db' year round_number session_type = Some p /\
    List.length (TelemetryData.frames p)
    = List.length (TelemetryData.frames data) /\
    forall f code,
      In f (TelemetryData.frames p) -> ~ In code codes ->
      dict_get code (FrameData.drivers f) = None.
Proof.
  intros Hcons Habsent Hframes Hsave codes.
  apply find_session_none in Habsent.
  destruct (@race_export_after_import _ _ _ _ _ _ _ _ _ _ _ Hcons Habsent
              Hframes Hsave)
    as (p & Hload & Hfr & _ & (n & Hrows) & _ & _ & _ & Hown).
  split; [| split].
  - rewrite Hrows. apply race_drivers_codes.
  - exact Hown.
  - exists p. split; [exact Hload |]. split.
    + rewrite Hfr, length_map.
      apply Permutation_length. apply order_by_perm.
    + intros f code Hf Hn. rewrite Hfr in Hf. apply in_map_iff in Hf.
      destruct Hf as (f0 & <- & _). simpl.
      apply export_drivers_unknown; [exact Hn | reflexivity].
Qed.

(** A race whose second frame brings a driver the first frame did not
    have. *)
Definition late_driver_race : TelemetryData.dict :=
  TelemetryData.mk
    [sample_frame 0 None;
     FrameData.mk (Some 1%Q) (Some 1%Z) None
       [("VER"%string, sample_point 3 1 1);
        ("HAM"%string, sample_point 2 2 2);
        ("LEC"%string, sample_point 1 3 3)]]
    [("VER"%string, (6, 0, 255)%Z)] [] (Some 78%Z).

Definition late_driver_store : Database :=
  Eval vm_compute in
    snd (save_race_telemetry [] sample_store 2024 6 "R" sample_info
           late_driver_race).

Lemma later_drivers_are_not_stored_witness :
  map Driver.driver_code
    (filter (fun d => (Driver.session_id d =? 2)%Z)
       (drivers late_driver_store))
  = ["VER"; "HAM"]%string /\
  (forall pt fr,
     In pt (driver_telemetry late_driver_store) ->
     In fr (telemetry_frames late_driver_store) ->
     TelemetryFrame.session_id fr = 2%Z ->
     DriverTelemetry.frame_id pt = TelemetryFrame.id fr ->
     exists d, In d (drivers late_driver_store) /\
               Driver.session_id d = 2%Z /\
               Driver.id d = DriverTelemetry.driver_id pt /\
               In (Driver.driver_code d) ["VER"; "HAM"]%string) /\
  exists p,
    load_race_telemetry late_driver_store 2024 6 "R" = Some p /\
    List.length (TelemetryData.frames p)
    = List.length (TelemetryData.frames late_driver_race) /\
    forall f code,
      In f (TelemetryData.frames p) -> ~ In code ["VER"; "HAM"]%string ->
      dict_get code (FrameData.drivers f) = None.
Proof.
  apply (@later_drivers_are_not_stored [] sample_store 2024 6 "R"
           sample_info late_driver_race 2 late_driver_store
           (sample_frame 0 None)
           [FrameData.mk (Some 1%Q) (Some 1%Z) None
              [("VER"%string, sample_point 3 1 1);
               ("HAM"%string, sample_point 2 2 2);
               ("LEC"%string, sample_point 1 3 3)]]).
  - reflexivity.
  - intros s Hs. simpl in Hs. destruct Hs as [<- | []]. reflexivity.
  - reflexivity.
  - vm_compute. reflexivity.
Defined.

(* ------------------------------------------------------------------ *)
(** ** The default colour *)

(** C10: after a successful import under a key that was not stored, a
    driver without a colour is stored and exported with the default colour
    (128, 128, 128): for a race, a code of the first frame with no entry in
    [driver_colors]; for a qualifying session, an entry of [results] with
    no [color]. *)
Theorem colorless_drivers_get_the_default plan db year round_number
    session_type info data qd sid_r db_r sid_q db_q first rest :
  db_consistent db = true ->
  (forall s, In s (sessions db) ->
             session_matches year round_number session_type s = false) ->
  TelemetryData.frames data = first :: rest ->
  save_race_telemetry plan db year round_number session_type info data
  = (Some sid_r, db_r) ->
  save_qualifying_telemetry plan db year round_number session_type info qd
  = (Some sid_q, db_q) ->
  (forall code,
     In code (dict_keys (FrameData.drivers first)) ->
     dict_get code (TelemetryData.driver_colors data) = None ->
     (exists d, In d (drivers db_r) /\ Driver.session_id d = sid_r /\
                Driver.driver_code d = code /\
                (Driver.color_r d, Driver.color_g d, Driver.color_b d)
                = (128, 128, 128)%Z) /\
     exists p,
       load_race_telemetry db_r year round_number session_type = Some p /\
       dict_get code (TelemetryData.driver_colors p)
       = Some (128, 128, 128)%Z) /\
  (forall rd,
     In rd (QualiData.results qd) -> ResultData.color rd = None ->
     (exists d, In d (drivers db_q) /\
                Some (Driver.driver_code d) = ResultData.code rd /\
                (Driver.color_r d, Driver.color_g d, Driver.color_b d)
                = (128, 128, 128)%Z) /\
     exists q,
       load_qualifying_telemetry db_q year round_number session_type = Some q
       /\
       exists e, In e (QualiData.results q) /\
                 ResultData.code e = ResultData.code rd /\
                 ResultData.position e = ResultData.position rd /\
                 ResultData.color e = Some (128, 128, 128)%Z).
Proof.
  intros Hcons Habsent Hframes Hsave_r Hsave_q.
  apply find_session_none in Habsent. split.
  - intros code Hin Hnone.
    destruct (@race_export_after_import _ _ _ _ _ _ _ _ _ _ _ Hcons Habsent
                Hframes Hsave_r)
      as (p & Hload & _ & _ & (n & Hrows) & Hcol & _).
    assert (Hdef : dict_get_default code default_color
                     (TelemetryData.driver_colors data) = (128, 128, 128)%Z).
    { unfold dict_get_default. rewrite Hnone. reflexivity. }
    split.
    + assert (Hd : exists d,
                In d (race_drivers sid_r (TelemetryData.driver_colors data) n
                        (dict_keys (FrameData.drivers first))) /\
                Driver.driver_code d = code /\
                (Driver.color_r d, Driver.color_g d, Driver.color_b d)
                = (128, 128, 128)%Z).
      { clear - Hin Hdef. revert n.
        induction (dict_keys (FrameData.drivers first)) as [| c r IH];
          intros n; [contradiction |].
        destruct Hin as [-> | Hin].
        - eexists. split; [left; reflexivity |].
          rewrite race_driver_code, race_driver_color. auto.
        - destruct (IH Hin (n + 1)%Z) as (d & Hd & Hc & Hcol).
          exists d. split; [right; exact Hd | auto]. }
      destruct Hd as (d & Hd & Hc & Hcolor). exists d.
      rewrite <- Hrows in Hd. apply filter_In in Hd.
      destruct Hd as [Hd Hs]. apply Z.eqb_eq in Hs. auto.
    + exists p. split; [exact Hload |]. rewrite (Hcol code Hin).
      rewrite Hdef. reflexivity.
  - intros rd Hin Hnone.
    destruct (@quali_results_after_import _ _ _ _ _ _ _ _ _ Hcons Habsent
                Hsave_q) as ((q & Hload & Hres) & Hstored).
    split.
    + destruct (Hstored rd Hin) as (d & Hd & Hc & Hcol).
      exists d. rewrite Hnone in Hcol. auto.
    + exists q. split; [exact Hload |]. exists (export_result rd).
      split.
      * rewrite Hres. apply in_map.
        eapply Permutation_in; [| exact Hin].
        apply Permutation_sym. apply order_by_perm.
      * unfold export_result. simpl. rewrite Hnone. auto.
Qed.

(** The sample race and the plain qualifying session, imported under a key
    of their own into the store of the sample race. *)
Definition colorless_race_store : Database :=
  Eval vm_compute in
    snd (save_race_telemetry [] sample_store 2024 7 "S" sample_info
           sample_race).

Definition colorless_quali_store : Database :=
  Eval vm_compute in
    snd (save_qualifying_telemetry [] sample_store 2024 7 "S" sample_info
           plain_quali).

Lemma colorless_drivers_get_the_default_witness :
  (forall code,
     In code ["VER"; "HAM"]%string ->
     dict_get code (TelemetryData.driver_colors sample_race) = None ->
     (exists d, In d (drivers colorless_race_store) /\
                Driver.session_id d = 2%Z /\
                Driver.driver_code d = code /\
                (Driver.color_r d, Driver.color_g d, Driver.color_b d)
                = (128, 128, 128)%Z) /\
     exists p,
       load_race_telemetry colorless_race_store 2024 7 "S" = Some p /\
       dict_get code (TelemetryData.driver_colors p)
       = Some (128, 128, 128)%Z) /\
  (forall rd,
     In rd (QualiData.results plain_quali) -> ResultData.color rd = None ->
     (exists d, In d (drivers colorless_quali_store) /\
                Some (Driver.driver_code d) = ResultData.code rd /\
                (Driver.color_r d, Driver.color_g d, Driver.color_b d)
                = (128, 128, 128)%Z) /\
     exists q,
       load_qualifying_telemetry colorless_quali_store 2024 7 "S" = Some q
       /\
       exists e, In e (QualiData.results q) /\
                 ResultData.code e = ResultData.code rd /\
                 ResultData.position e = ResultData.position rd /\
                 ResultData.color e = Some (128, 128, 128)%Z).
Proof.
  apply (@colorless_drivers_get_the_default [] sample_store 2024 7 "S"
           sample_info sample_race plain_quali
           2 colorless_race_store 2 colorless_quali_store
           (sample_frame 0 (Some sample_weather))
           [sample_frame 1 None; sample_frame 2 (Some sample_weather)]).
  - reflexivity.
  - intros s Hs. simpl in Hs. destruct Hs as [<- | []]. reflexivity.
  - reflexivity.
  - vm_compute. reflexivity.
  - vm_compute. reflexivity.
Defined.

(* ------------------------------------------------------------------ *)
(** ** Imports that go through

    With no storage fault planned, a computation [runs] when it returns
    from every unit of work, and then plans no fault either. *)

Definition runs {A} (c : M A) : Prop :=
  forall u, faults u = [] -> exists u' a, c u = (u', inr a) /\ faults u' = [].

Lemma runs_ret {A} (a : A) : runs (ret a).
Proof. intros u Hu. exists u, a. auto. Qed.

Lemma runs_bind {A B} (c : M A) (k : A -> M B) :
  runs c -> (forall a, runs (k a)) -> runs (bind c k).
Proof.
  intros Hc Hk u Hu. destruct (Hc u Hu) as (u1 & a & E & Hu1).
  destruct (Hk a u1 Hu1) as (u2 & b & E2 & Hu2).
  exists u2, b. unfold bind. rewrite E. auto.
Qed.

Lemma runs_subscript {A} key (a : A) : runs (subscript key (Some a)).
Proof. apply runs_ret. Qed.

Lemma runs_storage_call : runs storage_call.
Proof.
  intros u Hu. exists u, tt. unfold storage_call. rewrite Hu. auto.
Qed.

Lemma runs_update_working f : runs (update_working f).
Proof. intros u Hu. eexists. eexists. split; [reflexivity | exact Hu]. Qed.

Lemma runs_read_working {A} (f : Database -> A) : runs (read_working f).
Proof. intros u Hu. eexists. eexists. split; [reflexivity | exact Hu]. Qed.

Lemma runs_commit : runs commit.
Proof.
  unfold commit. apply runs_bind; [apply runs_storage_call |].
  intros _ u Hu. eexists. eexists. split; [reflexivity | exact Hu].
Qed.

Lemma runs_for_each {A} (l : list A) body :
  (forall a, In a l -> runs (body a)) -> runs (for_each l body).
Proof.
  induction l as [| a r IH]; simpl; intros Hb.
  - apply runs_ret.
  - apply runs_bind; [apply Hb; auto |]. intros _. apply IH. auto.
Qed.

Lemma runs_for_fold {A S} (l : list A) body : forall s : S,
  (forall s a, In a l -> runs (body s a)) -> runs (for_fold l s body).
Proof.
  induction l as [| a r IH]; simpl; intros s Hb.
  - apply runs_ret.
  - apply runs_bind; [apply Hb; auto |]. intros s'. apply IH. auto.
Qed.

Ltac run_steps :=
  repeat first
    [ apply runs_ret
    | apply runs_storage_call
    | apply runs_commit
    | apply runs_update_working
    | apply runs_read_working
    | apply runs_bind; [| intros ?] ].

Lemma runs_save_driver sid colors dm code :
  runs (save_driver sid colors dm code).
Proof.
  unfold save_driver.
  destruct (dict_get_default code default_color colors) as [[r g] b].
  unfold add_driver, flush. run_steps.
Qed.

(** ** Valid race payloads *)

Definition is_some {A} (o : option A) : bool :=
  match o with Some _ => true | None => false end.

Fixpoint distinct (l : list string) : bool :=
  match l with
  | [] => true
  | a :: r => negb (existsb (String.eqb a) r) && distinct r
  end.

Fixpoint sorted_by_time (fs : list FrameData.dict) : bool :=
  match fs with
  | a :: r =>
      match r with
      | b :: _ => frame_le a b && sorted_by_time r
      | [] => true
      end
  | [] => true
  end.

Definition valid_sample (d : DriverData.dict) : bool :=
  is_some (DriverData.x d) && is_some (DriverData.y d).

(** A frame with its timestamp, whose samples have their position and
    belong to distinct, non-empty driver codes of the first frame. *)
Definition valid_frame (codes : list string) (f : FrameData.dict) : bool :=
  is_some (FrameData.t f)
  && forallb (fun item : string * DriverData.dict =>
                known_driver codes (fst item) && str_truthy (fst item)
                && valid_sample (snd item))
       (FrameData.drivers f)
  && distinct (dict_keys (FrameData.drivers f)).

Definition valid_status (sd : StatusData.dict) : bool :=
  is_some (StatusData.status sd) && is_some (StatusData.start_time sd).

(** A race payload the importer stores whole: at least one frame, valid
    frames in non-decreasing order of time, valid track statuses. *)
Definition valid_race_payload (data : TelemetryData.dict) : bool :=
  match TelemetryData.frames data with
  | [] => false
  | first :: _ =>
      forallb (valid_frame (dict_keys (FrameData.drivers first)))
        (TelemetryData.frames data)
      && forallb valid_status (TelemetryData.track_statuses data)
      && sorted_by_time (TelemetryData.frames data)
  end.

(** *** Race payloads of numbers the store holds

    The numbers of a payload that the importer binds to a column: an
    [Integer] column takes an [int64], a [Float] column a [float64], and
    ['tyre'] goes through [int(...)] into an [Integer] column.  A sample
    of a driver that is not in the first frame is not read, so nothing is
    asked of it. *)

Definition storable_sample (d : DriverData.dict) : bool :=
  holds float64 (DriverData.x d) && holds float64 (DriverData.y d)
  && holds float64 (DriverData.dist d)
  && holds float64 (DriverData.rel_dist d)
  && holds int64 (DriverData.position d) && holds int64 (DriverData.lap d)
  && holds float64 (DriverData.speed d) && holds int64 (DriverData.gear d)
  && holds int64 (DriverData.drs d) && holds float64 (DriverData.throttle d)
  && holds float64 (DriverData.brake d) && holds float64 (DriverData.tyre d).

Definition storable_weather (w : Weather.dict) : bool :=
  holds float64 (Weather.track_temp w) && holds float64 (Weather.air_temp w)
  && holds float64 (Weather.humidity w)
  && holds float64 (Weather.wind_speed w)
  && holds float64 (Weather.wind_direction w).

Definition storable_frame (codes : list string) (f : FrameData.dict)
    : bool :=
  holds float64 (FrameData.t f) && holds int64 (FrameData.lap f)
  && holds storable_weather (FrameData.weather f)
  && forallb (fun item : string * DriverData.dict =>
                negb (known_driver codes (fst item))
                || storable_sample (snd item))
       (FrameData.drivers f).

Definition storable_status (sd : StatusData.dict) : bool :=
  holds float64 (StatusData.start_time sd)
  && holds float64 (StatusData.end_time sd).

Definition storable_race_payload (data : TelemetryData.dict) : bool :=
  holds int64 (TelemetryData.total_laps data)
  && forallb storable_status (TelemetryData.track_statuses data)
  && match TelemetryData.frames data with
     | [] => true
     | first :: _ =>
         let codes := dict_keys (FrameData.drivers first) in
         forallb (fun code =>
                    storable_color
                      (dict_get_default code default_color
                         (TelemetryData.driver_colors data))) codes
         && forallb (storable_frame codes) (TelemetryData.frames data)
     end.

Lemma runs_save_track_status sid sd :
  valid_status sd = true -> runs (save_track_status sid sd).
Proof.
  unfold valid_status, save_track_status. intros H.
  apply andb_true_iff in H. destruct H as [H1 H2].
  destruct (StatusData.status sd); [| discriminate].
  destruct (StatusData.start_time sd); [| discriminate].
  unfold add_track_status. simpl subscript. run_steps.
Qed.

Lemma runs_save_driver_data fid dm item :
  valid_sample (snd item) = true -> runs (save_driver_data fid dm item).
Proof.
  unfold valid_sample, save_driver_data. destruct item as [code d]. simpl.
  intros H. apply andb_true_iff in H. destruct H as [H1 H2].
  destruct (DriverData.x d); [| discriminate].
  destruct (DriverData.y d); [| discriminate].
  destruct (dict_get code dm); [| apply runs_ret].
  unfold add_driver_telemetry. simpl subscript. run_steps.
Qed.

Lemma runs_save_frame sid dm codes f :
  valid_frame codes f = true -> runs (save_frame sid dm f).
Proof.
  unfold valid_frame, save_frame. intros H.
  apply andb_true_iff in H. destruct H as [H Hd].
  apply andb_true_iff in H. destruct H as [Ht Hi].
  destruct (FrameData.t f); [| discriminate].
  unfold add_frame, flush. simpl subscript. run_steps.
  apply runs_for_each. intros item Hin.
  rewrite forallb_forall in Hi. specialize (Hi item Hin).
  apply andb_true_iff in Hi. destruct Hi as [_ Hi].
  apply runs_save_driver_data. exact Hi.
Qed.

Lemma In_firstn {A} (a : A) n : forall l, In a (firstn n l) -> In a l.
Proof.
  induction n as [| n IH]; intros [| x l]; simpl; try tauto.
  intros [-> | H]; auto.
Qed.

Lemma In_skipn {A} (a : A) n : forall l, In a (skipn n l) -> In a l.
Proof.
  induction n as [| n IH]; intros [| x l]; simpl; try tauto.
  intros H. right. apply IH. exact H.
Qed.

Lemma runs_save_batches sid dm codes frames :
  forallb (valid_frame codes) frames = true ->
  runs (save_batches sid dm frames).
Proof.
  intros Hv. unfold save_batches. apply runs_for_each. intros i _.
  apply runs_bind; [| intros _; apply runs_commit].
  apply runs_for_each. intros f Hf. unfold py_slice in Hf.
  apply In_firstn, In_skipn in Hf.
  rewrite forallb_forall in Hv. eapply runs_save_frame. apply Hv. exact Hf.
Qed.

Lemma runs_save_race_rows sid data :
  valid_race_payload data = true -> runs (save_race_rows sid data).
Proof.
  unfold valid_race_payload, save_race_rows.
  destruct (TelemetryData.frames data) as [| first rest] eqn:Ef;
    [discriminate |].
  intros H. apply andb_true_iff in H. destruct H as [H _].
  apply andb_true_iff in H. destruct H as [Hf Hs].
  apply runs_bind.
  - apply runs_for_fold. intros dm code _. apply runs_save_driver.
  - intros dm. apply runs_bind.
    + apply runs_for_each. intros sd Hin.
      rewrite forallb_forall in Hs. apply runs_save_track_status. auto.
    + intros _. eapply runs_save_batches. exact Hf.
Qed.

(** A valid payload under a key that is not stored is imported when the
    storage engine does not fail. *)
Lemma valid_race_is_imported db year round_number session_type info data :
  find_session db year round_number session_type = None ->
  valid_race_payload data = true ->
  exists sid db',
    save_race_telemetry [] db year round_number session_type info data
    = (Some sid, db').
Proof.
  intros Hfind Hv. unfold save_race_telemetry.
  rewrite save_race_body_fresh by exact Hfind.
  assert (Hr : runs (flush ;; save_race_rows
                       (next_id (map Session.id (sessions db))) data ;;
                     ret (next_id (map Session.id (sessions db))))).
  { apply runs_bind; [apply runs_storage_call | intros _].
    apply runs_bind; [apply runs_save_race_rows; exact Hv | intros _].
    apply runs_ret. }
  simpl working. simpl committed. simpl faults.
  match goal with
  | |- context [ _ ?u ] =>
      match type of u with
      | UnitOfWork => destruct (Hr u eq_refl) as (u' & a & E & _)
      end
  end.
  rewrite E. eauto.
Qed.

(* ------------------------------------------------------------------ *)
(** ** The round trip of a race payload *)

(** The frame the exporter returns for an imported frame of a valid
    payload. *)
Definition round_trip_frame (f : FrameData.dict) : FrameData.dict :=
  FrameData.mk (FrameData.t f) (FrameData.lap f)
    (export_weather (FrameData.weather f))
    (map (fun item : string * DriverData.dict =>
            (fst item, export_sample (snd item)))
       (FrameData.drivers f)).

Lemma sorted_by_time_sorted fs :
  sorted_by_time fs = true -> Sorted (fun a b => frame_le a b = true) fs.
Proof.
  induction fs as [| a r IH]; intros H.
  - constructor.
  - destruct r as [| b r'].
    + repeat constructor.
    + simpl in H. apply andb_true_iff in H. destruct H as [Hab Hr].
      constructor; [apply IH; exact Hr | constructor; exact Hab].
Qed.

Lemma distinct_not_in a l :
  existsb (String.eqb a) l = false -> ~ In a l.
Proof.
  intros H Hin.
  assert (Ht : existsb (String.eqb a) l = true).
  { apply existsb_exists. exists a. split; [exact Hin |].
    apply String.eqb_refl. }
  congruence.
Qed.

Lemma dict_keys_app {K V} (d1 d2 : pydict K V) :
  dict_keys (d1 ++ d2) = dict_keys d1 ++ dict_keys d2.
Proof. unfold dict_keys. apply map_app. Qed.

Lemma export_drivers_valid codes items : forall acc,
  forallb (fun item : string * DriverData.dict =>
             known_driver codes (fst item) && str_truthy (fst item)
             && valid_sample (snd item)) items = true ->
  distinct (dict_keys items) = true ->
  (forall c, In c (dict_keys items) -> ~ In c (dict_keys acc)) ->
  fold_left (export_item codes) items acc
  = acc ++ map (fun item : string * DriverData.dict =>
                  (fst item, export_sample (snd item))) items.
Proof.
  induction items as [| [c d] r IH]; intros acc Hv Hd Hacc.
  - simpl. rewrite app_nil_r. reflexivity.
  - simpl in Hv, Hd. apply andb_true_iff in Hv. destruct Hv as [Hc Hv].
    apply andb_true_iff in Hc. destruct Hc as [Hc _].
    apply andb_true_iff in Hd. destruct Hd as [Hn Hd].
    apply negb_true_iff in Hn. apply distinct_not_in in Hn.
    cbn [fold_left export_item]. simpl fst in Hc. rewrite Hc.
    rewrite dict_set_new.
    + rewrite IH; [| exact Hv | exact Hd |].
      * rewrite <- app_assoc. reflexivity.
      * intros c' Hc' Hin. rewrite dict_keys_app in Hin.
        apply in_app_or in Hin. destruct Hin as [Hin | Hin].
        -- apply (Hacc c'); [right; exact Hc' | exact Hin].
        -- simpl in Hin. destruct Hin as [<- | []]. contradiction.
    + apply dict_get_none_iff. apply Hacc. left. reflexivity.
Qed.

Lemma export_frame_valid codes f :
  valid_frame codes f = true -> export_frame codes f = round_trip_frame f.
Proof.
  unfold valid_frame, export_frame, round_trip_frame, export_drivers.
  intros H. apply andb_true_iff in H. destruct H as [H Hd].
  apply andb_true_iff in H. destruct H as [_ Hi].
  rewrite export_drivers_valid; [reflexivity | exact Hi | exact Hd |].
  intros c _ [].
Qed.

(** The tyre compound comes back as the float of the integer that was
    stored, and [int] recovers that integer from it. *)
Lemma tyre_is_recovered d :
  option_map py_int (DriverData.tyre (export_sample d))
  = Some (py_int (or_default 0%Q (DriverData.tyre d))).
Proof.
  unfold export_sample, py_float_of_int, py_int. simpl.
  rewrite Z.quot_1_r. reflexivity.
Qed.

(** C1 (as the code has it): a valid race payload (at least one frame;
    every frame with its timestamp, in non-decreasing order of time, its
    samples with their position, for distinct non-empty driver codes of the
    first frame; track statuses with status and start time) of numbers the
    store holds (64-bit integers for the [Integer] columns, doubles below
    [2^63] in magnitude for the [Float] columns), imported under a key of
    64-bit integers that is not stored and with no storage fault, is
    imported, and loading the key returns the frames of the payload in
    their order, each with its timestamp, lap, driver codes and samples;
    the weather snapshot is there exactly when the imported one recorded a
    track temperature, and the tyre compound is the float of the stored
    integer. *)
Theorem race_payload_round_trip db year round_number session_type info
    data :
  db_consistent db = true ->
  (forall s, In s (sessions db) ->
             session_matches year round_number session_type s = false) ->
  valid_race_payload data = true ->
  storable_key year round_number = true ->
  storable_info info = true ->
  storable_race_payload data = true ->
  exists sid db' p,
    save_race_telemetry [] db year round_number session_type info data
    = (Some sid, db') /\
    load_race_telemetry db' year round_number session_type = Some p /\
    TelemetryData.frames p
    = map round_trip_frame (TelemetryData.frames data) /\
    TelemetryData.total_laps p
    = Some (or_default 0%Z (TelemetryData.total_laps data)) /\
    (forall f,
       FrameData.t (round_trip_frame f) = FrameData.t f /\
       FrameData.lap (round_trip_frame f) = FrameData.lap f /\
       dict_keys (FrameData.drivers (round_trip_frame f))
       = dict_keys (FrameData.drivers f) /\
       (forall code d,
          In (code, d) (FrameData.drivers f) ->
          In (code, export_sample d)
            (FrameData.drivers (round_trip_frame f))) /\
       (forall w,
          FrameData.weather (round_trip_frame f) = Some w <->
          FrameData.weather f = Some w /\ Weather.track_temp w <> None)) /\
    (forall d,
       option_map py_int (DriverData.tyre (export_sample d))
       = Some (py_int (or_default 0%Q (DriverData.tyre d)))).
Proof.
  intros Hcons Habsent Hvalid _ _ _. apply find_session_none in Habsent.
  destruct (@valid_race_is_imported _ _ _ _ info _ Habsent Hvalid)
    as (sid & db' & Hsave).
  unfold valid_race_payload in Hvalid.
  destruct (TelemetryData.frames data) as [| first rest] eqn:Hframes;
    [discriminate |].
  apply andb_true_iff in Hvalid. destruct Hvalid as [Hv Hsorted].
  apply andb_true_iff in Hv. destruct Hv as [Hv _].
  destruct (@race_export_after_import _ _ _ _ _ _ _ _ _ _ _ Hcons Habsent
              Hframes Hsave) as (p & Hload & Hfr & Hlaps & _).
  exists sid, db', p. split; [exact Hsave |]. split; [exact Hload |].
  split; [| split; [exact Hlaps | split]].
  - rewrite Hfr, Hframes.
    rewrite (@order_by_id _ frame_le (first :: rest))
      by (apply sorted_by_time_sorted; exact Hsorted).
    apply map_ext_in. intros f Hf. apply export_frame_valid.
    rewrite forallb_forall in Hv. apply Hv. exact Hf.
  - intros f. unfold round_trip_frame. simpl.
    split; [reflexivity |]. split; [reflexivity |].
    split; [unfold dict_keys; rewrite map_map; reflexivity |].
    split.
    + intros code d Hin.
      apply (in_map (fun item : string * DriverData.dict =>
                       (fst item, export_sample (snd item)))) in Hin.
      exact Hin.
    + intros w. unfold export_weather.
      destruct (FrameData.weather f) as [w' |].
      * destruct (Weather.track_temp w') eqn:Et.
        -- split.
           ++ intros E. inversion E; subst. split; [reflexivity |].
              congruence.
           ++ intros [E _]. exact E.
        -- split; [discriminate |]. intros [E Hn]. inversion E; subst.
           contradiction.
      * split; [discriminate | intros [E _]; discriminate].
  - apply tyre_is_recovered.
Qed.

Lemma race_payload_round_trip_witness :
  exists sid db' p,
    save_race_telemetry [] sample_store 2024 6 "R" sample_info sample_race
    = (Some sid, db') /\
    load_race_telemetry db' 2024 6 "R" = Some p /\
    TelemetryData.frames p
    = map round_trip_frame (TelemetryData.frames sample_race) /\
    TelemetryData.total_laps p
    = Some (or_default 0%Z (TelemetryData.total_laps sample_race)) /\
    (forall f,
       FrameData.t (round_trip_frame f) = FrameData.t f /\
       FrameData.lap (round_trip_frame f) = FrameData.lap f /\
       dict_keys (FrameData.drivers (round_trip_frame f))
       = dict_keys (FrameData.drivers f) /\
       (forall code d,
          In (code, d) (FrameData.drivers f) ->
          In (code, export_sample d)
            (FrameData.drivers (round_trip_frame f))) /\
       (forall w,
          FrameData.weather (round_trip_frame f) = Some w <->
          FrameData.weather f = Some w /\ Weather.track_temp w <> None)) /\
    (forall d,
       option_map py_int (DriverData.tyre (export_sample d))
       = Some (py_int (or_default 0%Q (DriverData.tyre d)))).
Proof.
  apply (@race_payload_round_trip sample_store 2024 6 "R" sample_info
           sample_race).
  - reflexivity.
  - intros s Hs. simpl in Hs. destruct Hs as [<- | []]. reflexivity.
  - reflexivity.
  - reflexivity.
  - reflexivity.
  - reflexivity.
Defined.

(** A valid race whose only frame has a weather snapshot without track
    temperature. *)
Definition foggy_race : TelemetryData.dict :=
  TelemetryData.mk
    [sample_frame 0
       (Some (Weather.mk None (Some 27%Q) (Some 40%Q) None None
                (Some "RAINING"%string)))]
    [] [] (Some 78%Z).

Definition foggy_store : Database :=
  Eval vm_compute in
    snd (save_race_telemetry [] empty_database 2024 5 "R" sample_info
           foggy_race).

(** C1 (as stated) fails: the frame was imported with a weather snapshot
    and is exported without one, because the snapshot recorded no track
    temperature. *)
Lemma weather_without_track_temp_is_dropped :
  valid_race_payload foggy_race = true /\
  save_race_telemetry [] empty_database 2024 5 "R" sample_info foggy_race
  = (Some 1%Z, foggy_store) /\
  map (fun f => is_some (FrameData.weather f))
    (TelemetryData.frames foggy_race) = [true] /\
  exists p,
    load_race_telemetry foggy_store 2024 5 "R" = Some p /\
    map (fun f => is_some (FrameData.weather f)) (TelemetryData.frames p)
    = [false].
Proof.
  split; [reflexivity |]. split; [vm_compute; reflexivity |].
  split; [reflexivity |].
  eexists. split; [vm_compute; reflexivity |]. reflexivity.
Qed.

(* ------------------------------------------------------------------ *)
(** ** The sibling path: a qualifying import is all or nothing

    [save_qualifying_telemetry] commits once, after its loop: whatever
    makes it fail, and wherever, the store is left as it was.  The race
    importer, which commits after every batch, has this property only up
    to its first [commit]. *)




(** A segment minimum of [0.0] never enters the running minimum. *)
Lemma update_min_speed_skips_zero min_speed row :
  QualifyingTelemetry.min_speed row = Some 0%Q ->
  update_min_speed min_speed row = min_speed.
Proof. unfold update_min_speed. intros ->. reflexivity. Qed.

(* ------------------------------------------------------------------ *)
(** ** Referential integrity is kept by the importers

    The empty store has it, and every row an importer adds refers to rows
    added before it: every store the importers can produce has it. *)

Lemma refers_app ids more i :
  refers ids i = true -> refers (ids ++ more) i = true.
Proof.
  unfold refers. rewrite existsb_app. intros ->. reflexivity.
Qed.

Lemma refers_last ids x : refers (ids ++ [x]) x = true.
Proof.
  unfold refers. rewrite existsb_app. simpl. rewrite Z.eqb_refl.
  rewrite orb_true_r. reflexivity.
Qed.

Lemma forallb_weaken {A} (p q : A -> bool) l :
  (forall x, p x = true -> q x = true) ->
  forallb p l = true -> forallb q l = true.
Proof.
  intros Hpq H. rewrite forallb_forall in *. auto.
Qed.

Lemma forallb_snoc {A} (p : A -> bool) l x :
  forallb p l = true -> p x = true -> forallb p (l ++ [x]) = true.
Proof.
  intros Hl Hx. rewrite forallb_app, Hl. simpl. rewrite Hx. reflexivity.
Qed.

Ltac consistent_cases :=
  unfold db_consistent;
  cbn [sessions drivers telemetry_frames driver_telemetry track_statuses
       qualifying_results qualifying_telemetry
       with_session with_driver with_frame with_driver_telemetry
       with_track_status with_qualifying_result with_qualifying_telemetry];
  repeat rewrite map_app;
  repeat rewrite andb_true_iff;
  intros [[[[[Hd Hf] Hp] Hs] Hr] Ht].

Ltac keep_refs :=
  first
    [ assumption
    | eapply forallb_weaken; [| eassumption];
      cbv beta; intros ?; repeat rewrite andb_true_iff;
      intuition (auto using refers_app) ].

Lemma consistent_with_session r db :
  db_consistent db = true -> db_consistent (with_session r db) = true.
Proof. consistent_cases. repeat split; keep_refs. Qed.

Lemma consistent_with_driver r db :
  refers (map Session.id (sessions db)) (Driver.session_id r) = true ->
  db_consistent db = true -> db_consistent (with_driver r db) = true.
Proof.
  intros Hr0. consistent_cases. repeat split; try keep_refs.
  apply forallb_snoc; assumption.
Qed.

Lemma consistent_with_frame r db :
  refers (map Session.id (sessions db)) (TelemetryFrame.session_id r) = true ->
  db_consistent db = true -> db_consistent (with_frame r db) = true.
Proof.
  intros Hr0. consistent_cases. repeat split; try keep_refs.
  apply forallb_snoc; assumption.
Qed.

Lemma consistent_with_driver_telemetry r db :
  refers (map TelemetryFrame.id (telemetry_frames db))
    (DriverTelemetry.frame_id r) = true ->
  refers (map Driver.id (drivers db)) (DriverTelemetry.driver_id r) = true ->
  db_consistent db = true ->
  db_consistent (with_driver_telemetry r db) = true.
Proof.
  intros Hr0 Hr1. consistent_cases. repeat split; try keep_refs.
  apply forallb_snoc; [assumption |]. rewrite Hr0, Hr1. reflexivity.
Qed.

Lemma consistent_with_track_status r db :
  refers (map Session.id (sessions db)) (TrackStatus.session_id r) = true ->
  db_consistent db = true -> db_consistent (with_track_status r db) = true.
Proof.
  intros Hr0. consistent_cases. repeat split; try keep_refs.
  apply forallb_snoc; assumption.
Qed.

Lemma consistent_with_qualifying_result r db :
  refers (map Session.id (sessions db)) (QualifyingResult.session_id r)
  = true ->
  refers (map Driver.id (drivers db)) (QualifyingResult.driver_id r) = true ->
  db_consistent db = true ->
  db_consistent (with_qualifying_result r db) = true.
Proof.
  intros Hr0 Hr1. consistent_cases. repeat split; try keep_refs.
  apply forallb_snoc; [assumption |]. rewrite Hr0, Hr1. reflexivity.
Qed.

Lemma consistent_with_qualifying_telemetry r db :
  refers (map QualifyingResult.id (qualifying_results db))
    (QualifyingTelemetry.result_id r) = true ->
  db_consistent db = true ->
  db_consistent (with_qualifying_telemetry r db) = true.
Proof.
  intros Hr0. consistent_cases. repeat split; try keep_refs.
  apply forallb_snoc; assumption.
Qed.

(** A computation started where [P] holds ends where [Q] holds of its
    result, or raises where [E] holds. *)
Definition triple {A} (P : UnitOfWork -> Prop) (c : M A)
    (Q : A -> UnitOfWork -> Prop) (E : UnitOfWork -> Prop) : Prop :=
  forall u, P u ->
    match c u with
    | (u', inr a) => Q a u'
    | (u', inl _) => E u'
    end.

(** Properties of the two databases of a unit of work. *)
Definition on_dbs (R : Database -> Database -> Prop) (u : UnitOfWork)
    : Prop :=
  R (committed u) (working u).

Lemma triple_bind {A B} P (c : M A) R (k : A -> M B) Q E :
  triple P c R E -> (forall a, triple (R a) (k a) Q E) ->
  triple P (bind c k) Q E.
Proof.
  intros Hc Hk u Hu. specialize (Hc u Hu). unfold bind.
  destruct (c u) as [u1 [e | a]].
  - exact Hc.
  - apply Hk. exact Hc.
Qed.

Lemma triple_weaken {A} (P P' : UnitOfWork -> Prop) (c : M A)
    (Q Q' : A -> UnitOfWork -> Prop) (E E' : UnitOfWork -> Prop) :
  (forall u, P' u -> P u) -> (forall a u, Q a u -> Q' a u) ->
  (forall u, E u -> E' u) ->
  triple P c Q E -> triple P' c Q' E'.
Proof.
  intros HP HQ HE Hc u Hu. specialize (Hc u (HP u Hu)).
  destruct (c u) as [u1 [e | a]]; auto.
Qed.

Lemma triple_ret {A} (P : UnitOfWork -> Prop) (a : A) E :
  triple P (ret a) (fun _ => P) E.
Proof. intros u Hu. exact Hu. Qed.

Lemma triple_subscript {A} (P E : UnitOfWork -> Prop) key (o : option A) :
  (forall u, P u -> E u) ->
  triple P (subscript key o) (fun _ => P) E.
Proof. intros HE u Hu. destruct o; simpl; auto. Qed.

Lemma triple_lap_time_of (P E : UnitOfWork -> Prop) q :
  (forall u, P u -> E u) ->
  triple P (lap_time_of q) (fun _ => P) E.
Proof.
  intros HE u Hu. unfold lap_time_of. destruct q as [s |]; [| exact Hu].
  destruct (str_truthy s); [| exact Hu].
  destruct (py_float s); simpl; auto.
Qed.

Lemma triple_storage_call R :
  triple (on_dbs R) storage_call (fun _ => on_dbs R) (on_dbs R).
Proof.
  intros u Hu. unfold storage_call.
  destruct (faults u) as [| [|] plan]; exact Hu.
Qed.

Lemma triple_commit R :
  (forall c w, R c w -> R w w) ->
  triple (on_dbs R) commit (fun _ => on_dbs R) (on_dbs R).
Proof.
  intros HR. unfold commit. eapply triple_bind.
  - apply triple_storage_call.
  - intros _ u Hu. simpl. unfold on_dbs in *. simpl. eapply HR. exact Hu.
Qed.

Lemma triple_for_each {A} (I E : UnitOfWork -> Prop) (l : list A) body :
  (forall a, triple I (body a) (fun _ => I) E) ->
  triple I (for_each l body) (fun _ => I) E.
Proof.
  intros Hb. induction l as [| a r IH]; simpl.
  - apply triple_ret.
  - eapply triple_bind; [apply Hb |]. intros ?. exact IH.
Qed.

Lemma triple_for_fold {A S} (I : S -> UnitOfWork -> Prop) E (l : list A)
    body :
  (forall s a, triple (I s) (body s a) I E) ->
  forall s, triple (I s) (for_fold l s body) I E.
Proof.
  intros Hb. induction l as [| a r IH]; simpl; intros s.
  - intros u Hu. exact Hu.
  - eapply triple_bind; [apply Hb |]. intros s'. apply IH.
Qed.

(** The invariants of an import: both databases have referential
    integrity; the working copy holds the session being imported, the
    drivers of [driver_map], the frame or the result being written. *)
Definition both_consistent (c w : Database) : Prop :=
  db_consistent c = true /\ db_consistent w = true.

Definition holds_session (sid : Z) (c w : Database) : Prop :=
  both_consistent c w /\ refers (map Session.id (sessions w)) sid = true.

Definition holds_drivers (sid : Z) (dm : pydict string Z) (c w : Database)
    : Prop :=
  holds_session sid c w /\
  forall code did, dict_get code dm = Some did ->
                   refers (map Driver.id (drivers w)) did = true.

Definition holds_frame (sid : Z) (dm : pydict string Z) (fid : Z)
    (c w : Database) : Prop :=
  holds_drivers sid dm c w /\
  refers (map TelemetryFrame.id (telemetry_frames w)) fid = true.

Definition holds_driver (sid did : Z) (c w : Database) : Prop :=
  holds_session sid c w /\ refers (map Driver.id (drivers w)) did = true.

Definition holds_result (sid rid : Z) (c w : Database) : Prop :=
  holds_session sid c w /\
  refers (map QualifyingResult.id (qualifying_results w)) rid = true.

(** Each invariant implies the one before it. *)
Lemma holds_session_consistent sid c w :
  holds_session sid c w -> both_consistent c w.
Proof. intros [H _]. exact H. Qed.

Lemma holds_drivers_consistent sid dm c w :
  holds_drivers sid dm c w -> both_consistent c w.
Proof. intros [[H _] _]. exact H. Qed.

Lemma holds_frame_consistent sid dm fid c w :
  holds_frame sid dm fid c w -> both_consistent c w.
Proof. intros [[[H _] _] _]. exact H. Qed.

Lemma holds_driver_consistent sid did c w :
  holds_driver sid did c w -> both_consistent c w.
Proof. intros [[H _] _]. exact H. Qed.

Lemma holds_result_consistent sid rid c w :
  holds_result sid rid c w -> both_consistent c w.
Proof. intros [[H _] _]. exact H. Qed.

(** [flush] under an invariant [R] that implies integrity. *)
Lemma triple_flush R :
  (forall c w, R c w -> both_consistent c w) ->
  triple (on_dbs R) flush (fun _ => on_dbs R) (on_dbs both_consistent).
Proof.
  intros HR. eapply triple_weaken; [| | | apply (triple_storage_call R)].
  - auto.
  - auto.
  - intros u Hu. apply HR. exact Hu.
Qed.

Lemma triple_save_driver sid colors dm code :
  triple (on_dbs (holds_drivers sid dm)) (save_driver sid colors dm code)
    (fun dm' => on_dbs (holds_drivers sid dm'))
    (on_dbs both_consistent).
Proof.
  unfold save_driver.
  destruct (dict_get_default code default_color colors) as [[r g] b].
  eapply triple_bind with
    (R := fun i => on_dbs (holds_drivers sid (dict_set code i dm))).
  - intros u Hu. rewrite add_driver_run.
    unfold on_dbs, holds_drivers, holds_session, both_consistent in *.
    destruct Hu as [[[Hc Hw] Hs] Hd]. simpl.
    rewrite map_app. simpl. repeat split; auto.
    + apply consistent_with_driver; assumption.
    + intros code' did Hg.
      destruct (String.eqb_spec code' code) as [-> | Hn].
      * rewrite dict_get_set_same in Hg. injection Hg as <-.
        apply refers_last.
      * rewrite dict_get_set_other in Hg by exact Hn.
        apply refers_app. eauto.
  - intros i. eapply triple_bind.
    + apply triple_flush. apply holds_drivers_consistent.
    + intros _ u Hu. exact Hu.
Qed.

Lemma triple_save_track_status sid dm sd :
  triple (on_dbs (holds_drivers sid dm)) (save_track_status sid sd)
    (fun _ => on_dbs (holds_drivers sid dm)) (on_dbs both_consistent).
Proof.
  unfold save_track_status.
  eapply triple_bind;
    [apply triple_subscript; intros u; apply holds_drivers_consistent |].
  intros status. eapply triple_bind;
    [apply triple_subscript; intros u; apply holds_drivers_consistent |].
  intros start_time.
  eapply triple_bind with (R := fun _ => on_dbs (holds_drivers sid dm)).
  - intros u Hu. rewrite add_track_status_run.
    unfold on_dbs, holds_drivers, holds_session, both_consistent in *.
    destruct Hu as [[[Hc Hw] Hs] Hd]. simpl. repeat split; auto.
    apply consistent_with_track_status; assumption.
  - intros ?. apply triple_ret.
Qed.

Lemma triple_save_driver_data sid dm fid item :
  triple (on_dbs (holds_frame sid dm fid)) (save_driver_data fid dm item)
    (fun _ => on_dbs (holds_frame sid dm fid)) (on_dbs both_consistent).
Proof.
  unfold save_driver_data. destruct item as [code d].
  destruct (dict_get code dm) as [did |] eqn:Eg; [| apply triple_ret].
  eapply triple_bind;
    [apply triple_subscript; intros u; apply holds_frame_consistent |].
  intros x. eapply triple_bind;
    [apply triple_subscript; intros u; apply holds_frame_consistent |].
  intros y.
  eapply triple_bind with (R := fun _ => on_dbs (holds_frame sid dm fid)).
  - intros u Hu. rewrite add_driver_telemetry_run.
    unfold on_dbs, holds_frame, holds_drivers, holds_session,
      both_consistent in *.
    destruct Hu as [[[[Hc Hw] Hs] Hd] Hf]. simpl. repeat split; auto.
    apply consistent_with_driver_telemetry; simpl; eauto.
  - intros ?. apply triple_ret.
Qed.

Lemma triple_save_frame sid dm f :
  triple (on_dbs (holds_drivers sid dm)) (save_frame sid dm f)
    (fun _ => on_dbs (holds_drivers sid dm)) (on_dbs both_consistent).
Proof.
  unfold save_frame.
  eapply triple_bind;
    [apply triple_subscript; intros u; apply holds_drivers_consistent |].
  intros t.
  eapply triple_bind with (R := fun i => on_dbs (holds_frame sid dm i)).
  - intros u Hu. rewrite add_frame_run.
    unfold on_dbs, holds_frame, holds_drivers, holds_session,
      both_consistent in *.
    destruct Hu as [[[Hc Hw] Hs] Hd]. simpl. rewrite map_app. simpl.
    repeat split; auto.
    + apply consistent_with_frame; assumption.
    + apply refers_last.
  - intros fid. eapply triple_bind.
    + apply triple_flush. apply holds_frame_consistent.
    + intros ?. eapply triple_weaken;
        [| | | apply (triple_for_each (E := on_dbs both_consistent));
               intros item; apply triple_save_driver_data].
      * intros u Hu. exact Hu.
      * intros a' u' [Hu _]. exact Hu.
      * auto.
Qed.

Lemma triple_save_batches sid dm frames :
  triple (on_dbs (holds_drivers sid dm)) (save_batches sid dm frames)
    (fun _ => on_dbs (holds_drivers sid dm)) (on_dbs both_consistent).
Proof.
  unfold save_batches. apply triple_for_each. intros i.
  eapply triple_bind.
  - apply triple_for_each. intros f. apply triple_save_frame.
  - intros ?. eapply triple_weaken; [| | | apply triple_commit].
    + intros u Hu. exact Hu.
    + intros a' u' Hu. exact Hu.
    + intros u Hu. eapply holds_drivers_consistent. exact Hu.
    + intros c w [[[Hc Hw] Hs] Hd].
      unfold holds_drivers, holds_session, both_consistent. auto.
Qed.

Lemma triple_save_race_rows sid data :
  triple (on_dbs (holds_session sid)) (save_race_rows sid data)
    (fun _ => on_dbs both_consistent) (on_dbs both_consistent).
Proof.
  unfold save_race_rows.
  eapply triple_bind with (R := fun dm => on_dbs (holds_drivers sid dm)).
  - destruct (TelemetryData.frames data) as [| first rest].
    + intros u Hu. simpl. split; [exact Hu |]. intros code did Hg.
      discriminate Hg.
    + eapply triple_weaken;
        [| | | apply (triple_for_fold
                        (I := fun dm => on_dbs (holds_drivers sid dm))
                        (E := on_dbs both_consistent))].
      * intros u Hu. split; [exact Hu |]. intros code did Hg.
        discriminate Hg.
      * auto.
      * auto.
      * intros dm code. apply triple_save_driver.
  - intros dm. eapply triple_bind.
    + apply triple_for_each. intros sd. apply triple_save_track_status.
    + intros ?. eapply triple_weaken; [| | | apply triple_save_batches].
      * intros u Hu. exact Hu.
      * intros a' u' Hu. eapply holds_drivers_consistent. exact Hu.
      * auto.
Qed.

(** The race importer keeps referential integrity, however it ends. *)
Lemma save_race_keeps_consistency plan db year round_number session_type
    info data :
  db_consistent db = true ->
  db_consistent
    (snd (save_race_telemetry plan db year round_number session_type info
            data)) = true.
Proof.
  intros Hc. unfold save_race_telemetry.
  destruct (find_session db year round_number session_type) as [s |] eqn:Ef.
  - rewrite save_race_body_existing with (s := s) by exact Ef. exact Hc.
  - rewrite save_race_body_fresh by exact Ef.
    simpl working. simpl committed. simpl faults.
    set (i := next_id (map Session.id (sessions db))).
    set (u1 := mkUnit db _ plan).
    assert (H1 : on_dbs (holds_session i) u1).
    { unfold on_dbs, holds_session, both_consistent. simpl.
      repeat split; auto.
      - apply consistent_with_session. exact Hc.
      - rewrite map_app. apply refers_last. }
    assert (HT : triple (on_dbs (holds_session i))
                   (flush ;; save_race_rows i data ;; ret i)
                   (fun _ => on_dbs both_consistent)
                   (on_dbs both_consistent)).
    { eapply triple_bind;
        [apply triple_flush; apply holds_session_consistent |].
      intros ?. eapply triple_bind; [apply triple_save_race_rows |].
      intros ?. intros u Hu. exact Hu. }
    specialize (HT u1 H1).
    destruct ((flush ;; save_race_rows i data ;; ret i) u1)
      as [u2 [e | sid]]; simpl; apply HT.
Qed.

Lemma triple_save_segment sid rid tel seg :
  triple (on_dbs (holds_result sid rid)) (save_segment rid tel seg)
    (fun _ => on_dbs (holds_result sid rid)) (on_dbs both_consistent).
Proof.
  unfold save_segment.
  destruct (SegmentData.frames (dict_get_default seg empty_segment tel));
    [apply triple_ret |].
  eapply triple_bind with (R := fun _ => on_dbs (holds_result sid rid)).
  - intros u Hu. rewrite add_qualifying_telemetry_run.
    unfold on_dbs, holds_result, holds_session, both_consistent in *.
    destruct Hu as [[[Hc Hw] Hs] Hr]. simpl. repeat split; auto.
    apply consistent_with_qualifying_telemetry; assumption.
  - intros ?. apply triple_ret.
Qed.

Lemma triple_save_result sid qd rd :
  triple (on_dbs (holds_session sid)) (save_result sid qd rd)
    (fun _ => on_dbs (holds_session sid)) (on_dbs both_consistent).
Proof.
  unfold save_result.
  eapply triple_bind;
    [apply triple_subscript; intros u; apply holds_session_consistent |].
  intros code.
  destruct (or_default default_color (ResultData.color rd)) as [[r g] b].
  eapply triple_bind with (R := fun i => on_dbs (holds_driver sid i)).
  - intros u Hu. rewrite add_driver_run.
    unfold on_dbs, holds_driver, holds_session, both_consistent in *.
    destruct Hu as [[Hc Hw] Hs]. simpl. rewrite map_app. simpl.
    repeat split; auto.
    + apply consistent_with_driver; assumption.
    + apply refers_last.
  - intros did. eapply triple_bind;
      [apply triple_flush; apply holds_driver_consistent |].
    intros ?. eapply triple_bind;
      [apply triple_subscript; intros u; apply holds_driver_consistent |].
    intros position. eapply triple_bind;
      [apply triple_lap_time_of; intros u; apply holds_driver_consistent |].
    intros q1. eapply triple_bind;
      [apply triple_lap_time_of; intros u; apply holds_driver_consistent |].
    intros q2. eapply triple_bind;
      [apply triple_lap_time_of; intros u; apply holds_driver_consistent |].
    intros q3.
    eapply triple_bind with (R := fun i => on_dbs (holds_result sid i)).
    + intros u Hu. rewrite add_qualifying_result_run.
      unfold on_dbs, holds_result, holds_driver, holds_session,
        both_consistent in *.
      destruct Hu as [[[Hc Hw] Hs] Hd]. simpl. rewrite map_app. simpl.
      repeat split; auto.
      * apply consistent_with_qualifying_result; assumption.
      * apply refers_last.
    + intros rid. eapply triple_bind;
        [apply triple_flush; apply holds_result_consistent |].
      intros ?. eapply triple_weaken;
        [| | | apply (triple_for_each (E := on_dbs both_consistent));
               intros sg; apply triple_save_segment].
      * intros u' Hu. exact Hu.
      * intros a' u' [Hu _]. exact Hu.
      * auto.
Qed.

(** The qualifying importer keeps referential integrity, however it
    ends. *)
Lemma save_qualifying_keeps_consistency plan db year round_number
    session_type info qd :
  db_consistent db = true ->
  db_consistent
    (snd (save_qualifying_telemetry plan db year round_number session_type
            info qd)) = true.
Proof.
  intros Hc. unfold save_qualifying_telemetry.
  destruct (find_session db year round_number session_type) as [s |] eqn:Ef.
  - rewrite save_qualifying_body_existing with (s := s) by exact Ef.
    exact Hc.
  - rewrite save_qualifying_body_fresh by exact Ef.
    simpl working. simpl committed. simpl faults.
    set (i := next_id (map Session.id (sessions db))).
    set (u1 := mkUnit db _ plan).
    assert (H1 : on_dbs (holds_session i) u1).
    { unfold on_dbs, holds_session, both_consistent. simpl.
      repeat split; auto.
      - apply consistent_with_session. exact Hc.
      - rewrite map_app. apply refers_last. }
    assert (HT : triple (on_dbs (holds_session i))
                   (flush ;;
                    for_each (QualiData.results qd) (save_result i qd) ;;
                    commit ;; ret i)
                   (fun _ => on_dbs both_consistent)
                   (on_dbs both_consistent)).
    { eapply triple_bind;
        [apply triple_flush; apply holds_session_consistent |].
      intros ?. eapply triple_bind.
      - apply triple_for_each. intros rd. apply triple_save_result.
      - intros ?. eapply triple_bind.
        + eapply triple_weaken; [| | | apply triple_commit].
          * intros u' Hu. exact Hu.
          * intros a' u' Hu. exact Hu.
          * intros u' Hu. eapply holds_session_consistent. exact Hu.
          * intros c w [[Hc' Hw] Hs].
            unfold holds_session, both_consistent. auto.
        + intros ? u' Hu. eapply holds_session_consistent. exact Hu. }
    specialize (HT u1 H1).
    match goal with
    | |- context [ ?T u1 ] =>
        match type of (T u1) with
        | (UnitOfWork * _)%type =>
            destruct (T u1) as [u2 [e | sid]]; simpl; apply HT
        end
    end.
Qed.

Lemma empty_database_consistent : db_consistent empty_database = true.
Proof. reflexivity. Qed.

(* ------------------------------------------------------------------ *)
(** ** Two more runs of the race importer *)

(** The race of 250 frames, the 151st without timestamp. *)
Definition late_untimed_race : TelemetryData.dict :=
  TelemetryData.mk
    (map (fun k =>
            if Nat.eqb k 150
            then FrameData.mk None (Some 1%Z) None
                   [("VER"%string, sample_point 0 1 1)]
            else sample_frame (inject_Z (Z.of_nat k)) None)
       (seq 0 250))
    [("VER"%string, (6, 0, 255)%Z)]
    [StatusData.mk (Some "4"%string) (Some 1%Q) None]
    (Some 78%Z).

(** No storage fault is needed for a partial session: the [KeyError] of
    a frame in the second batch leaves the first batch committed as
    well. *)
Lemma untimed_frame_in_second_batch_leaves_partial_session :
  exists db,
    save_race_telemetry [] empty_database 2024 5 "R" sample_info
      late_untimed_race = (None, db) /\
    check_session_exists db 2024 5 "R" = true /\
    List.length (telemetry_frames db) = 100%nat.
Proof.
  eexists. split; [vm_compute; reflexivity |]. split; reflexivity.
Qed.

(** A race without frames: the loop over the batches has no turn, so no
    [commit] is reached; the importer returns the identifier it gave the
    session and [close_session] drops the session with the transaction. *)
Lemma race_without_frames_is_not_stored :
  save_race_telemetry [] empty_database 2024 5 "R" sample_info
    (TelemetryData.mk [] [] [] None) = (Some 1%Z, empty_database) /\
  load_race_telemetry empty_database 2024 5 "R" = None.
Proof. split; reflexivity. Qed.
(* ------------------------------------------------------------------ *)
(** ** How an import can end *)


(** *** A race without frames *)

Lemma save_batches_nil sid dm : save_batches sid dm [] = ret tt.
Proof. reflexivity. Qed.



(** *** What a failed race import leaves *)
















(* ------------------------------------------------------------------ *)
(** ** What an import adds to the store

    Whatever an import commits is the store as it was with rows appended
    to its tables: one session, and rows that refer to that session and to
    each other, under rowids that follow those of the table. *)

(** Table by table, the rows of [rows] after those of [db]. *)
Definition db_app (db rows : Database) : Database :=
  mkDatabase (sessions db ++ sessions rows) (drivers db ++ drivers rows)
    (telemetry_frames db ++ telemetry_frames rows)
    (driver_telemetry db ++ driver_telemetry rows)
    (track_statuses db ++ track_statuses rows)
    (qualifying_results db ++ qualifying_results rows)
    (qualifying_telemetry db ++ qualifying_telemetry rows).

(** The rowids [new] are those a table with the rowids [old] hands out,
    one after the other. *)
Fixpoint ids_follow (old new : list Z) : bool :=
  match new with
  | [] => true
  | x :: r => (x =? next_id old)%Z && ids_follow (old ++ [x]) r
  end.

Lemma ids_follow_snoc new : forall old,
  ids_follow old new = true ->
  ids_follow old (new ++ [next_id (old ++ new)]) = true.
Proof.
  induction new as [| x r IH]; intros old H; simpl in *.
  - rewrite app_nil_r, Z.eqb_refl. reflexivity.
  - apply andb_true_iff in H. destruct H as [Hx Hr]. rewrite Hx. simpl.
    specialize (IH _ Hr). rewrite <- app_assoc in IH. exact IH.
Qed.

Lemma max_id_nonneg ids : (0 <= fold_right Z.max 0 ids)%Z.
Proof. induction ids as [| a r IH]; cbn [fold_right]; lia. Qed.

Lemma next_id_app_le old more : (next_id old <= next_id (old ++ more))%Z.
Proof.
  unfold next_id. induction old as [| a r IH]; cbn [fold_right app].
  - pose proof (max_id_nonneg more). lia.
  - lia.
Qed.

Lemma ids_follow_beyond new : forall old x,
  ids_follow old new = true -> In x new -> (next_id old <= x)%Z.
Proof.
  induction new as [| y r IH]; intros old x H Hin; simpl in *.
  - contradiction.
  - apply andb_true_iff in H. destruct H as [Hy Hr].
    apply Z.eqb_eq in Hy. destruct Hin as [<- | Hin].
    + lia.
    + pose proof (IH _ _ Hr Hin).
      pose proof (next_id_app_le old [y]). lia.
Qed.

Lemma ids_follow_not_old old new x :
  ids_follow old new = true -> In x new -> ~ In x old.
Proof.
  intros H Hin Hold. pose proof (@ids_follow_beyond _ _ _ H Hin).
  pose proof (@next_id_above _ _ Hold). lia.
Qed.

Lemma ids_follow_NoDup new : forall old,
  NoDup old -> ids_follow old new = true -> NoDup (old ++ new).
Proof.
  induction new as [| y r IH]; intros old Hn H; simpl in *.
  - rewrite app_nil_r. exact Hn.
  - apply andb_true_iff in H. destruct H as [Hy Hr].
    apply Z.eqb_eq in Hy.
    change (y :: r) with ([y] ++ r). rewrite app_assoc. apply IH; [| exact Hr].
    apply NoDup_app.
    + exact Hn.
    + constructor; [intros [] | constructor].
    + intros a Ha [<- | []]. pose proof (@next_id_above _ _ Ha). lia.
Qed.

(** The rows an import of the session [new] has added to [db0]. *)
Record added_by (new : Session.row) (db0 rows : Database) : Prop := {
  added_sessions : sessions rows = [new];
  added_session_id :
    Session.id new = next_id (map Session.id (sessions db0));
  added_drivers :
    Forall (fun d => Driver.session_id d = Session.id new) (drivers rows);
  added_frames :
    Forall (fun f => TelemetryFrame.session_id f = Session.id new)
      (telemetry_frames rows);
  added_points :
    Forall (fun p =>
              In (DriverTelemetry.frame_id p)
                 (map TelemetryFrame.id (telemetry_frames rows)) /\
              In (DriverTelemetry.driver_id p)
                 (map Driver.id (drivers rows)) /\
              DriverTelemetry.tyre_compound p <> None)
      (driver_telemetry rows);
  added_statuses :
    Forall (fun s => TrackStatus.session_id s = Session.id new)
      (track_statuses rows);
  added_results :
    Forall (fun r =>
              QualifyingResult.session_id r = Session.id new /\
              In (QualifyingResult.driver_id r)
                 (map Driver.id (drivers rows)))
      (qualifying_results rows);
  added_segments :
    Forall (fun t =>
              In (QualifyingTelemetry.result_id t)
                 (map QualifyingResult.id (qualifying_results rows)))
      (qualifying_telemetry rows);
  added_driver_ids :
    ids_follow (map Driver.id (drivers db0)) (map Driver.id (drivers rows))
    = true;
  added_frame_ids :
    ids_follow (map TelemetryFrame.id (telemetry_frames db0))
      (map TelemetryFrame.id (telemetry_frames rows)) = true;
  added_point_ids :
    ids_follow (map DriverTelemetry.id (driver_telemetry db0))
      (map DriverTelemetry.id (driver_telemetry rows)) = true;
  added_status_ids :
    ids_follow (map TrackStatus.id (track_statuses db0))
      (map TrackStatus.id (track_statuses rows)) = true;
  added_result_ids :
    ids_follow (map QualifyingResult.id (qualifying_results db0))
      (map QualifyingResult.id (qualifying_results rows)) = true;
  added_segment_ids :
    ids_follow (map QualifyingTelemetry.id (qualifying_telemetry db0))
      (map QualifyingTelemetry.id (qualifying_telemetry rows)) = true
}.

Lemma db_app_empty db : db_app db empty_database = db.
Proof.
  unfold db_app. simpl. rewrite !app_nil_r. destruct db. reflexivity.
Qed.

Lemma with_session_app r db rows :
  with_session r (db_app db rows) = db_app db (with_session r rows).
Proof. unfold with_session, db_app. simpl. rewrite app_assoc. reflexivity. Qed.

Lemma with_driver_app r db rows :
  with_driver r (db_app db rows) = db_app db (with_driver r rows).
Proof. unfold with_driver, db_app. simpl. rewrite app_assoc. reflexivity. Qed.

Lemma with_frame_app r db rows :
  with_frame r (db_app db rows) = db_app db (with_frame r rows).
Proof. unfold with_frame, db_app. simpl. rewrite app_assoc. reflexivity. Qed.

Lemma with_driver_telemetry_app r db rows :
  with_driver_telemetry r (db_app db rows)
  = db_app db (with_driver_telemetry r rows).
Proof.
  unfold with_driver_telemetry, db_app. simpl. rewrite app_assoc.
  reflexivity.
Qed.

Lemma with_track_status_app r db rows :
  with_track_status r (db_app db rows) = db_app db (with_track_status r rows).
Proof.
  unfold with_track_status, db_app. simpl. rewrite app_assoc. reflexivity.
Qed.

Lemma with_qualifying_result_app r db rows :
  with_qualifying_result r (db_app db rows)
  = db_app db (with_qualifying_result r rows).
Proof.
  unfold with_qualifying_result, db_app. simpl. rewrite app_assoc.
  reflexivity.
Qed.

Lemma with_qualifying_telemetry_app r db rows :
  with_qualifying_telemetry r (db_app db rows)
  = db_app db (with_qualifying_telemetry r rows).
Proof.
  unfold with_qualifying_telemetry, db_app. simpl. rewrite app_assoc.
  reflexivity.
Qed.

Lemma Forall_snoc {A} (P : A -> Prop) l x :
  Forall P l -> P x -> Forall P (l ++ [x]).
Proof. intros Hl Hx. apply Forall_app. split; [exact Hl | auto]. Qed.

Lemma In_map_snoc {A} (f : A -> Z) l x i :
  In i (map f l) -> In i (map f (l ++ [x])).
Proof. rewrite map_app. intros H. apply in_or_app. left. exact H. Qed.

Lemma In_map_last {A} (f : A -> Z) l x : In (f x) (map f (l ++ [x])).
Proof. rewrite map_app. apply in_or_app. right. left. reflexivity. Qed.

(** The session row, first. *)
Lemma added_by_session new db0 :
  Session.id new = next_id (map Session.id (sessions db0)) ->
  added_by new db0 (with_session new empty_database).
Proof. intros Hid. constructor; simpl; auto. Qed.

Ltac added_fields H :=
  destruct H as [Hs Hsid Hd Hf Hp Ht Hr Hq Hdi Hfi Hpi Hti Hri Hqi];
  constructor; cbn [sessions drivers telemetry_frames driver_telemetry
                      track_statuses qualifying_results qualifying_telemetry
                      with_driver with_frame with_driver_telemetry
                      with_track_status with_qualifying_result
                      with_qualifying_telemetry];
  try assumption.

Lemma added_by_driver new db0 rows d :
  added_by new db0 rows ->
  Driver.id d = next_id (map Driver.id (drivers db0 ++ drivers rows)) ->
  Driver.session_id d = Session.id new ->
  added_by new db0 (with_driver d rows).
Proof.
  intros H Hid Hsess. added_fields H.
  - apply Forall_snoc; assumption.
  - eapply Forall_impl; [| exact Hp]. cbv beta. intros p (A & B & C).
    repeat split; auto. apply In_map_snoc. exact B.
  - eapply Forall_impl; [| exact Hr]. cbv beta. intros p (A & B).
    split; auto. apply In_map_snoc. exact B.
  - rewrite map_app. simpl. rewrite Hid, map_app.
    apply ids_follow_snoc. exact Hdi.
Qed.

Lemma added_by_frame new db0 rows f :
  added_by new db0 rows ->
  TelemetryFrame.id f
  = next_id (map TelemetryFrame.id
               (telemetry_frames db0 ++ telemetry_frames rows)) ->
  TelemetryFrame.session_id f = Session.id new ->
  added_by new db0 (with_frame f rows).
Proof.
  intros H Hid Hsess. added_fields H.
  - apply Forall_snoc; assumption.
  - eapply Forall_impl; [| exact Hp]. cbv beta. intros p (A & B & C).
    repeat split; auto. apply In_map_snoc. exact A.
  - rewrite map_app. simpl. rewrite Hid, map_app.
    apply ids_follow_snoc. exact Hfi.
Qed.

Lemma added_by_point new db0 rows p :
  added_by new db0 rows ->
  DriverTelemetry.id p
  = next_id (map DriverTelemetry.id
               (driver_telemetry db0 ++ driver_telemetry rows)) ->
  In (DriverTelemetry.frame_id p)
     (map TelemetryFrame.id (telemetry_frames rows)) ->
  In (DriverTelemetry.driver_id p) (map Driver.id (drivers rows)) ->
  DriverTelemetry.tyre_compound p <> None ->
  added_by new db0 (with_driver_telemetry p rows).
Proof.
  intros H Hid Hfr Hdr Hty. added_fields H.
  - apply Forall_snoc; auto.
  - rewrite map_app. simpl. rewrite Hid, map_app.
    apply ids_follow_snoc. exact Hpi.
Qed.

Lemma added_by_status new db0 rows s :
  added_by new db0 rows ->
  TrackStatus.id s
  = next_id (map TrackStatus.id (track_statuses db0 ++ track_statuses rows)) ->
  TrackStatus.session_id s = Session.id new ->
  added_by new db0 (with_track_status s rows).
Proof.
  intros H Hid Hsess. added_fields H.
  - apply Forall_snoc; assumption.
  - rewrite map_app. simpl. rewrite Hid, map_app.
    apply ids_follow_snoc. exact Hti.
Qed.

Lemma added_by_result new db0 rows r :
  added_by new db0 rows ->
  QualifyingResult.id r
  = next_id (map QualifyingResult.id
               (qualifying_results db0 ++ qualifying_results rows)) ->
  QualifyingResult.session_id r = Session.id new ->
  In (QualifyingResult.driver_id r) (map Driver.id (drivers rows)) ->
  added_by new db0 (with_qualifying_result r rows).
Proof.
  intros H Hid Hsess Hdr. added_fields H.
  - apply Forall_snoc; auto.
  - eapply Forall_impl; [| exact Hq]. cbv beta. intros t A.
    apply In_map_snoc. exact A.
  - rewrite map_app. simpl. rewrite Hid, map_app.
    apply ids_follow_snoc. exact Hri.
Qed.

Lemma added_by_segment new db0 rows t :
  added_by new db0 rows ->
  QualifyingTelemetry.id t
  = next_id (map QualifyingTelemetry.id
               (qualifying_telemetry db0 ++ qualifying_telemetry rows)) ->
  In (QualifyingTelemetry.result_id t)
     (map QualifyingResult.id (qualifying_results rows)) ->
  added_by new db0 (with_qualifying_telemetry t rows).
Proof.
  intros H Hid Hres. added_fields H.
  - apply Forall_snoc; auto.
  - rewrite map_app. simpl. rewrite Hid, map_app.
    apply ids_follow_snoc. exact Hqi.
Qed.

(** The invariant of an import of the session [new] into [db0]: what is
    committed is [db0], or [db0] with such rows; the working copy is [db0]
    with such rows, of which [K] holds. *)
Section Growth.

Variable new : Session.row.
Variable db0 : Database.

Definition grown (K : Database -> Prop) (c w : Database) : Prop :=
  (c = db0 \/ exists rc, c = db_app db0 rc /\ added_by new db0 rc) /\
  exists rw, w = db_app db0 rw /\ added_by new db0 rw /\ K rw.

Definition any_rows (rows : Database) : Prop := True.

Lemma grown_any K c w : grown K c w -> grown any_rows c w.
Proof.
  intros [Hc (rw & Hw & Ha & _)]. split; [exact Hc |].
  exists rw. split; [exact Hw |]. split; [exact Ha | exact I].
Qed.

Lemma grown_weaken (K K' : Database -> Prop) c w :
  (forall rows, K rows -> K' rows) -> grown K c w -> grown K' c w.
Proof.
  intros HK [Hc (rw & Hw & Ha & Hk)]. split; [exact Hc |].
  exists rw. split; [exact Hw |]. split; [exact Ha | auto].
Qed.

Definition import_failed : UnitOfWork -> Prop := on_dbs (grown any_rows).

Lemma triple_grown_flush K :
  triple (on_dbs (grown K)) flush (fun _ => on_dbs (grown K)) import_failed.
Proof.
  eapply triple_weaken; [| | | apply (triple_storage_call (grown K))]; auto.
  intros u Hu. eapply grown_any. exact Hu.
Qed.

Lemma triple_grown_commit K :
  triple (on_dbs (grown K)) commit (fun _ => on_dbs (grown K)) import_failed.
Proof.
  eapply triple_weaken; [| | | apply (@triple_commit (grown K))]; auto.
  - intros u Hu. eapply grown_any. exact Hu.
  - intros c w [_ (rw & Hw & Ha & Hk)]. split.
    + right. exists rw. auto.
    + exists rw. auto.
Qed.

Lemma triple_grown_subscript {A} K key (o : option A) :
  triple (on_dbs (grown K)) (subscript key o) (fun _ => on_dbs (grown K))
    import_failed.
Proof. apply triple_subscript. intros u Hu. eapply grown_any. exact Hu. Qed.

Lemma triple_grown_lap_time_of K q :
  triple (on_dbs (grown K)) (lap_time_of q) (fun _ => on_dbs (grown K))
    import_failed.
Proof. apply triple_lap_time_of. intros u Hu. eapply grown_any. exact Hu. Qed.

(** The drivers of [driver_map], the frame, the driver and the result an
    import is writing are rows it has added. *)
Definition drivers_added (dm : pydict string Z) (rows : Database) : Prop :=
  forall code did, dict_get code dm = Some did ->
                   In did (map Driver.id (drivers rows)).

Definition frame_added (dm : pydict string Z) (fid : Z) (rows : Database)
    : Prop :=
  drivers_added dm rows /\
  In fid (map TelemetryFrame.id (telemetry_frames rows)).

Definition driver_added (did : Z) (rows : Database) : Prop :=
  In did (map Driver.id (drivers rows)).

Definition result_added (rid : Z) (rows : Database) : Prop :=
  In rid (map QualifyingResult.id (qualifying_results rows)).

Lemma triple_grown_save_driver colors dm code :
  triple (on_dbs (grown (drivers_added dm)))
    (save_driver (Session.id new) colors dm code)
    (fun dm' => on_dbs (grown (drivers_added dm'))) import_failed.
Proof.
  unfold save_driver.
  destruct (dict_get_default code default_color colors) as [[r g] b].
  eapply triple_bind with
    (R := fun i => on_dbs (grown (drivers_added (dict_set code i dm)))).
  - intros u [Hc (rw & Hw & Ha & Hk)]. rewrite add_driver_run.
    unfold on_dbs. cbn [committed working]. split; [exact Hc |].
    rewrite Hw. rewrite with_driver_app. eexists. split; [reflexivity |].
    split.
    + apply added_by_driver; [exact Ha | | reflexivity].
      cbn [Driver.id db_app drivers]. reflexivity.
    + intros code' did Hg. cbn [with_driver drivers].
      destruct (String.eqb_spec code' code) as [-> | Hn].
      * rewrite dict_get_set_same in Hg. injection Hg as <-.
        cbn [db_app drivers].
        apply (In_map_last Driver.id (drivers rw)
                 (Driver.mk (next_id (map Driver.id
                                        (drivers db0 ++ drivers rw)))
                    (Session.id new) code None None None r g b)).
      * rewrite dict_get_set_other in Hg by exact Hn.
        apply In_map_snoc. eapply Hk. exact Hg.
  - intros i. eapply triple_bind; [apply triple_grown_flush |].
    intros _ u Hu. exact Hu.
Qed.

Lemma triple_grown_save_track_status dm sd :
  triple (on_dbs (grown (drivers_added dm)))
    (save_track_status (Session.id new) sd)
    (fun _ => on_dbs (grown (drivers_added dm))) import_failed.
Proof.
  unfold save_track_status.
  eapply triple_bind; [apply triple_grown_subscript |]. intros status.
  eapply triple_bind; [apply triple_grown_subscript |]. intros start_time.
  eapply triple_bind with
    (R := fun _ => on_dbs (grown (drivers_added dm))).
  - intros u [Hc (rw & Hw & Ha & Hk)]. rewrite add_track_status_run.
    unfold on_dbs. cbn [committed working]. split; [exact Hc |].
    rewrite Hw. rewrite with_track_status_app. eexists.
    split; [reflexivity |]. split.
    + apply added_by_status; [exact Ha | | reflexivity].
      cbn [TrackStatus.id db_app track_statuses]. reflexivity.
    + exact Hk.
  - intros ?. apply triple_ret.
Qed.

Lemma triple_grown_save_driver_data dm fid item :
  triple (on_dbs (grown (frame_added dm fid)))
    (save_driver_data fid dm item)
    (fun _ => on_dbs (grown (frame_added dm fid))) import_failed.
Proof.
  unfold save_driver_data. destruct item as [code d].
  destruct (dict_get code dm) as [did |] eqn:Eg; [| apply triple_ret].
  eapply triple_bind; [apply triple_grown_subscript |]. intros x.
  eapply triple_bind; [apply triple_grown_subscript |]. intros y.
  eapply triple_bind with
    (R := fun _ => on_dbs (grown (frame_added dm fid))).
  - intros u [Hc (rw & Hw & Ha & Hk & Hfid)].
    rewrite add_driver_telemetry_run.
    unfold on_dbs. cbn [committed working]. split; [exact Hc |].
    rewrite Hw. rewrite with_driver_telemetry_app. eexists.
    split; [reflexivity |]. split.
    + apply added_by_point; [exact Ha | | exact Hfid | | discriminate].
      * cbn [DriverTelemetry.id db_app driver_telemetry]. reflexivity.
      * cbn [DriverTelemetry.driver_id]. eapply Hk. exact Eg.
    + split; [exact Hk | exact Hfid].
  - intros ?. apply triple_ret.
Qed.

Lemma triple_grown_save_frame dm f :
  triple (on_dbs (grown (drivers_added dm)))
    (save_frame (Session.id new) dm f)
    (fun _ => on_dbs (grown (drivers_added dm))) import_failed.
Proof.
  unfold save_frame.
  eapply triple_bind; [apply triple_grown_subscript |]. intros t.
  eapply triple_bind with
    (R := fun i => on_dbs (grown (frame_added dm i))).
  - intros u [Hc (rw & Hw & Ha & Hk)]. rewrite add_frame_run.
    unfold on_dbs. cbn [committed working]. split; [exact Hc |].
    rewrite Hw. rewrite with_frame_app. eexists. split; [reflexivity |].
    split.
    + apply added_by_frame; [exact Ha | | reflexivity].
      cbn [TelemetryFrame.id db_app telemetry_frames]. reflexivity.
    + split.
      * exact Hk.
      * cbn [db_app telemetry_frames with_frame].
        match goal with
        | |- In _ (map _ (_ ++ [?row])) =>
            apply (In_map_last TelemetryFrame.id (telemetry_frames rw) row)
        end.
  - intros fid. eapply triple_bind; [apply triple_grown_flush |].
    intros ?. eapply triple_weaken;
      [| | | apply (triple_for_each (E := import_failed));
             intros item; apply triple_grown_save_driver_data].
    + intros u Hu. exact Hu.
    + intros a' u' Hu. eapply grown_weaken; [| exact Hu].
      intros rows [Hk _]. exact Hk.
    + auto.
Qed.

Lemma triple_grown_save_batches dm frames :
  triple (on_dbs (grown (drivers_added dm)))
    (save_batches (Session.id new) dm frames)
    (fun _ => on_dbs (grown (drivers_added dm))) import_failed.
Proof.
  unfold save_batches. apply triple_for_each. intros i.
  eapply triple_bind.
  - apply triple_for_each. intros f. apply triple_grown_save_frame.
  - intros ?. apply triple_grown_commit.
Qed.

Lemma triple_grown_save_race_rows data :
  triple (on_dbs (grown any_rows)) (save_race_rows (Session.id new) data)
    (fun _ => import_failed) import_failed.
Proof.
  unfold save_race_rows.
  eapply triple_bind with
    (R := fun dm => on_dbs (grown (drivers_added dm))).
  - destruct (TelemetryData.frames data) as [| first rest].
    + intros u Hu. simpl. eapply grown_weaken; [| exact Hu].
      intros rows _ code did Hg. discriminate Hg.
    + eapply triple_weaken;
        [| | | apply (triple_for_fold
                        (I := fun dm => on_dbs (grown (drivers_added dm)))
                        (E := import_failed))].
      * intros u Hu. eapply grown_weaken; [| exact Hu].
        intros rows _ code did Hg. discriminate Hg.
      * auto.
      * auto.
      * intros dm code. apply triple_grown_save_driver.
  - intros dm. eapply triple_bind.
    + apply triple_for_each. intros sd. apply triple_grown_save_track_status.
    + intros ?. eapply triple_weaken;
        [| | | apply triple_grown_save_batches].
      * intros u Hu. exact Hu.
      * intros a' u' Hu. eapply grown_any. exact Hu.
      * auto.
Qed.

Lemma triple_grown_save_segment rid tel seg :
  triple (on_dbs (grown (result_added rid))) (save_segment rid tel seg)
    (fun _ => on_dbs (grown (result_added rid))) import_failed.
Proof.
  unfold save_segment.
  destruct (SegmentData.frames (dict_get_default seg empty_segment tel));
    [apply triple_ret |].
  eapply triple_bind with
    (R := fun _ => on_dbs (grown (result_added rid))).
  - intros u [Hc (rw & Hw & Ha & Hk)].
    rewrite add_qualifying_telemetry_run.
    unfold on_dbs. cbn [committed working]. split; [exact Hc |].
    rewrite Hw. rewrite with_qualifying_telemetry_app. eexists.
    split; [reflexivity |]. split.
    + apply added_by_segment; [exact Ha | | exact Hk].
      cbn [QualifyingTelemetry.id db_app qualifying_telemetry]. reflexivity.
    + exact Hk.
  - intros ?. apply triple_ret.
Qed.

Lemma triple_grown_save_result qd rd :
  triple (on_dbs (grown any_rows)) (save_result (Session.id new) qd rd)
    (fun _ => import_failed) import_failed.
Proof.
  unfold save_result.
  eapply triple_bind; [apply triple_grown_subscript |]. intros code.
  destruct (or_default default_color (ResultData.color rd)) as [[r g] b].
  eapply triple_bind with (R := fun i => on_dbs (grown (driver_added i))).
  - intros u [Hc (rw & Hw & Ha & Hk)]. rewrite add_driver_run.
    unfold on_dbs. cbn [committed working]. split; [exact Hc |].
    rewrite Hw. rewrite with_driver_app. eexists. split; [reflexivity |].
    split.
    + apply added_by_driver; [exact Ha | | reflexivity].
      cbn [Driver.id db_app drivers]. reflexivity.
    + unfold driver_added. cbn [db_app drivers with_driver].
      match goal with
      | |- In _ (map _ (_ ++ [?row])) =>
          apply (In_map_last Driver.id (drivers rw) row)
      end.
  - intros did. eapply triple_bind; [apply triple_grown_flush |].
    intros ?. eapply triple_bind; [apply triple_grown_subscript |].
    intros position.
    eapply triple_bind; [apply triple_grown_lap_time_of |]. intros q1.
    eapply triple_bind; [apply triple_grown_lap_time_of |]. intros q2.
    eapply triple_bind; [apply triple_grown_lap_time_of |]. intros q3.
    eapply triple_bind with (R := fun i => on_dbs (grown (result_added i))).
    + intros u [Hc (rw & Hw & Ha & Hk)]. rewrite add_qualifying_result_run.
      unfold on_dbs. cbn [committed working]. split; [exact Hc |].
      rewrite Hw. rewrite with_qualifying_result_app. eexists.
      split; [reflexivity |]. split.
      * apply added_by_result; [exact Ha | | reflexivity | exact Hk].
        cbn [QualifyingResult.id db_app qualifying_results]. reflexivity.
      * unfold result_added.
        cbn [db_app qualifying_results with_qualifying_result].
        match goal with
        | |- In _ (map _ (_ ++ [?row])) =>
            apply (In_map_last QualifyingResult.id
                     (qualifying_results rw) row)
        end.
    + intros rid. eapply triple_bind; [apply triple_grown_flush |].
      intros ?. eapply triple_weaken;
        [| | | apply (triple_for_each (E := import_failed));
               intros sg; apply triple_grown_save_segment].
      * intros u' Hu. exact Hu.
      * intros a' u' Hu. eapply grown_any. exact Hu.
      * auto.
Qed.

End Growth.

(** What an import under a natural key leaves of the store [db]: [db]
    itself, or [db] with the rows of one new session of that key, which
    was not stored. *)
Definition imported (year round_number : Z) (session_type : string)
    (db db' : Database) : Prop :=
  db' = db \/
  exists new rows,
    find_session db year round_number session_type = None /\
    session_matches year round_number session_type new = true /\
    db' = db_app db rows /\ added_by new db rows.

Lemma grown_start new db :
  Session.id new = next_id (map Session.id (sessions db)) ->
  grown new db any_rows db (with_session new db).
Proof.
  intros Hid. split; [left; reflexivity |].
  exists (with_session new empty_database). split.
  - rewrite <- with_session_app, db_app_empty. reflexivity.
  - split; [apply added_by_session; exact Hid | exact I].
Qed.

Lemma grown_imported year round_number session_type new db c w :
  find_session db year round_number session_type = None ->
  session_matches year round_number session_type new = true ->
  grown new db any_rows c w ->
  imported year round_number session_type db c.
Proof.
  intros Hf Hm [[-> | (rc & -> & Ha)] _].
  - left. reflexivity.
  - right. exists new, rc. auto.
Qed.

Lemma save_race_imported plan db year round_number session_type info data :
  imported year round_number session_type db
    (snd (save_race_telemetry plan db year round_number session_type info
            data)).
Proof.
  unfold save_race_telemetry.
  destruct (find_session db year round_number session_type) as [s |] eqn:Ef.
  - rewrite save_race_body_existing with (s := s) by exact Ef.
    left. reflexivity.
  - rewrite save_race_body_fresh by exact Ef.
    simpl working. simpl committed. simpl faults.
    set (i := next_id (map Session.id (sessions db))).
    set (new := race_session year round_number session_type info data i).
    set (u1 := mkUnit db _ plan).
    assert (H1 : on_dbs (grown new db any_rows) u1).
    { apply grown_start. reflexivity. }
    assert (HT : triple (on_dbs (grown new db any_rows))
                   (flush ;; save_race_rows i data ;; ret i)
                   (fun _ => import_failed new db)
                   (import_failed new db)).
    { eapply triple_bind; [apply triple_grown_flush |].
      intros ?. eapply triple_bind;
        [apply (@triple_grown_save_race_rows new db data) |].
      intros ?. intros u Hu. exact Hu. }
    specialize (HT u1 H1).
    destruct ((flush ;; save_race_rows i data ;; ret i) u1)
      as [u2 [e | sid]]; simpl;
      (eapply grown_imported;
       [exact Ef | apply race_session_matches | apply HT]).
Qed.

Lemma save_qualifying_imported plan db year round_number session_type info
    qd :
  imported year round_number session_type db
    (snd (save_qualifying_telemetry plan db year round_number session_type
            info qd)).
Proof.
  unfold save_qualifying_telemetry.
  destruct (find_session db year round_number session_type) as [s |] eqn:Ef.
  - rewrite save_qualifying_body_existing with (s := s) by exact Ef.
    left. reflexivity.
  - rewrite save_qualifying_body_fresh by exact Ef.
    simpl working. simpl committed. simpl faults.
    set (i := next_id (map Session.id (sessions db))).
    set (new := qualifying_session year round_number session_type info i).
    set (u1 := mkUnit db _ plan).
    assert (H1 : on_dbs (grown new db any_rows) u1).
    { apply grown_start. reflexivity. }
    set (T := (flush ;; for_each (QualiData.results qd) (save_result i qd) ;;
               commit ;; ret i)).
    assert (HT : triple (on_dbs (grown new db any_rows)) T
                   (fun _ => import_failed new db)
                   (import_failed new db)).
    { eapply triple_bind; [apply triple_grown_flush |].
      intros ?. eapply triple_bind.
      - apply triple_for_each. intros rd.
        apply (@triple_grown_save_result new db qd rd).
      - intros ?. eapply triple_bind; [apply triple_grown_commit |].
        intros ? u' Hu. exact Hu. }
    specialize (HT u1 H1).
    destruct (T u1) as [u2 [e | sid]]; simpl;
      (eapply grown_imported;
       [exact Ef | apply qualifying_session_matches | apply HT]).
Qed.

(** *** Readers of other keys *)

Lemma session_matches_key year round_number session_type year' round'
    type' s :
  session_matches year round_number session_type s = true ->
  session_matches year' round' type' s = true ->
  (year', round', type') = (year, round_number, session_type).
Proof.
  unfold session_matches. rewrite !andb_true_iff.
  intros [[A B] C] [[A' B'] C'].
  apply Z.eqb_eq in A, B, A', B'. apply String.eqb_eq in C, C'.
  congruence.
Qed.

Lemma filter_app_nothing {A} (p : A -> bool) l more :
  (forall x, In x more -> p x = false) -> filter p (l ++ more) = filter p l.
Proof.
  intros H. rewrite filter_app, (filter_nothing p more H), app_nil_r.
  reflexivity.
Qed.

Lemma find_app_first {A} (p : A -> bool) l more x :
  find p l = Some x -> find p (l ++ more) = Some x.
Proof.
  induction l as [| a r IH]; simpl; intros E.
  - discriminate.
  - destruct (p a); [exact E | auto].
Qed.

Lemma find_app_nothing {A} (p : A -> bool) l more :
  (forall x, In x more -> p x = false) -> find p (l ++ more) = find p l.
Proof.
  intros H. induction l as [| a r IH]; simpl.
  - destruct (find p more) as [x |] eqn:E; [| reflexivity].
    apply find_some in E. destruct E as [Hin Hp].
    rewrite (H x Hin) in Hp. discriminate.
  - destruct (p a); [reflexivity | exact IH].
Qed.

Lemma try_map_ext_in {A B} (f g : A -> option B) l :
  (forall a, In a l -> f a = g a) -> try_map f l = try_map g l.
Proof.
  induction l as [| a r IH]; simpl; intros H.
  - reflexivity.
  - rewrite (H a (or_introl eq_refl)), IH by auto. reflexivity.
Qed.

Lemma try_fold_ext_in {A S} (f g : S -> A -> option S) l : forall s,
  (forall a s', In a l -> f s' a = g s' a) ->
  try_fold l s f = try_fold l s g.
Proof.
  induction l as [| a r IH]; simpl; intros s H.
  - reflexivity.
  - rewrite (H a s (or_introl eq_refl)).
    destruct (g s a); [apply IH; auto | reflexivity].
Qed.

Lemma In_order_by {A} (le : A -> A -> bool) l x :
  In x (order_by le l) -> In x l.
Proof. apply Permutation_in. apply order_by_perm. Qed.

Lemma find_session_in db year round_number session_type s :
  find_session db year round_number session_type = Some s ->
  In s (sessions db).
Proof. unfold find_session. intros E. apply find_some in E. tauto. Qed.

Lemma imported_find_session year round_number session_type db db' year'
    round' type' :
  imported year round_number session_type db db' ->
  (year', round', type') <> (year, round_number, session_type) ->
  find_session db' year' round' type' = find_session db year' round' type'.
Proof.
  intros [-> | (new & rows & Hf & Hm & -> & Ha)] Hk; [reflexivity |].
  unfold find_session. cbn [db_app sessions].
  apply find_app_nothing. intros s Hs.
  rewrite (added_sessions Ha) in Hs. destruct Hs as [<- | []].
  destruct (session_matches year' round' type' new) eqn:E; [| reflexivity].
  exfalso. apply Hk. eapply session_matches_key; eassumption.
Qed.

(** A session that was stored keeps its rows, and gets none. *)
Section RowsOfStoredSession.

Variables (new : Session.row) (db rows : Database) (s : Session.row).
Hypothesis Ha : added_by new db rows.
Hypothesis Hs : In s (sessions db).

Lemma new_session_id_differs : Session.id new <> Session.id s.
Proof.
  rewrite (added_session_id Ha).
  pose proof (@next_id_above (map Session.id (sessions db)) (Session.id s)
                (in_map _ _ _ Hs)).
  lia.
Qed.

Lemma stored_session_drivers :
  filter (fun d => (Driver.session_id d =? Session.id s)%Z)
    (drivers (db_app db rows))
  = filter (fun d => (Driver.session_id d =? Session.id s)%Z) (drivers db).
Proof.
  cbn [db_app drivers]. apply filter_app_nothing. intros d Hd.
  pose proof (added_drivers Ha) as H. rewrite Forall_forall in H.
  apply Z.eqb_neq. rewrite (H d Hd). apply new_session_id_differs.
Qed.

Lemma stored_session_frames :
  filter (fun f => (TelemetryFrame.session_id f =? Session.id s)%Z)
    (telemetry_frames (db_app db rows))
  = filter (fun f => (TelemetryFrame.session_id f =? Session.id s)%Z)
      (telemetry_frames db).
Proof.
  cbn [db_app telemetry_frames]. apply filter_app_nothing. intros d Hd.
  pose proof (added_frames Ha) as H. rewrite Forall_forall in H.
  apply Z.eqb_neq. rewrite (H d Hd). apply new_session_id_differs.
Qed.

Lemma stored_session_statuses :
  filter (fun t => (TrackStatus.session_id t =? Session.id s)%Z)
    (track_statuses (db_app db rows))
  = filter (fun t => (TrackStatus.session_id t =? Session.id s)%Z)
      (track_statuses db).
Proof.
  cbn [db_app track_statuses]. apply filter_app_nothing. intros d Hd.
  pose proof (added_statuses Ha) as H. rewrite Forall_forall in H.
  apply Z.eqb_neq. rewrite (H d Hd). apply new_session_id_differs.
Qed.

Lemma stored_session_results :
  filter (fun r => (QualifyingResult.session_id r =? Session.id s)%Z)
    (qualifying_results (db_app db rows))
  = filter (fun r => (QualifyingResult.session_id r =? Session.id s)%Z)
      (qualifying_results db).
Proof.
  cbn [db_app qualifying_results]. apply filter_app_nothing. intros d Hd.
  pose proof (added_results Ha) as H. rewrite Forall_forall in H.
  apply Z.eqb_neq. destruct (H d Hd) as [-> _].
  apply new_session_id_differs.
Qed.

Lemma stored_frame_points f :
  In f (telemetry_frames db) ->
  filter (fun p => (DriverTelemetry.frame_id p =? TelemetryFrame.id f)%Z)
    (driver_telemetry (db_app db rows))
  = filter (fun p => (DriverTelemetry.frame_id p =? TelemetryFrame.id f)%Z)
      (driver_telemetry db).
Proof.
  intros Hf. cbn [db_app driver_telemetry]. apply filter_app_nothing.
  intros p Hp. pose proof (added_points Ha) as H.
  rewrite Forall_forall in H. destruct (H p Hp) as (Hin & _).
  apply Z.eqb_neq. intros E. rewrite E in Hin.
  apply (@ids_follow_not_old _ _ _ (added_frame_ids Ha) Hin).
  apply in_map. exact Hf.
Qed.

Lemma stored_result_segments r :
  In r (qualifying_results db) ->
  filter (fun t => (QualifyingTelemetry.result_id t
                    =? QualifyingResult.id r)%Z)
    (qualifying_telemetry (db_app db rows))
  = filter (fun t => (QualifyingTelemetry.result_id t
                      =? QualifyingResult.id r)%Z)
      (qualifying_telemetry db).
Proof.
  intros Hr. cbn [db_app qualifying_telemetry]. apply filter_app_nothing.
  intros t Ht. pose proof (added_segments Ha) as H.
  rewrite Forall_forall in H. specialize (H t Ht).
  apply Z.eqb_neq. intros E. rewrite E in H.
  apply (@ids_follow_not_old _ _ _ (added_result_ids Ha) H).
  apply in_map. exact Hr.
Qed.

Lemma stored_session_race_export year round_number session_type :
  find_session db year round_number session_type = Some s ->
  find_session (db_app db rows) year round_number session_type = Some s ->
  load_race_telemetry (db_app db rows) year round_number session_type
  = load_race_telemetry db year round_number session_type.
Proof.
  intros E E'. unfold load_race_telemetry. rewrite E, E'.
  rewrite stored_session_drivers, stored_session_frames,
    stored_session_statuses.
  erewrite try_map_ext_in; [reflexivity |].
  intros f Hf. apply load_frame_same_points. apply stored_frame_points.
  apply In_order_by in Hf. apply filter_In in Hf. tauto.
Qed.

End RowsOfStoredSession.

Lemma imported_race_export year round_number session_type db db' year'
    round' type' :
  imported year round_number session_type db db' ->
  (year', round', type') <> (year, round_number, session_type) ->
  load_race_telemetry db' year' round' type'
  = load_race_telemetry db year' round' type'.
Proof.
  intros Hi Hk. pose proof (imported_find_session Hi Hk) as Hfind.
  destruct Hi as [-> | (new & rows & Hf & Hm & -> & Ha)]; [reflexivity |].
  destruct (find_session db year' round' type') as [s |] eqn:E.
  - eapply stored_session_race_export; eauto.
    eapply find_session_in. exact E.
  - unfold load_race_telemetry. rewrite Hfind, E. reflexivity.
Qed.

Lemma refers_find_driver l i :
  refers (map Driver.id l) i = true ->
  exists d, find (fun d => (Driver.id d =? i)%Z) l = Some d.
Proof.
  unfold refers. induction l as [| a r IH]; simpl; intros H.
  - discriminate.
  - destruct (Z.eqb_spec (Driver.id a) i) as [Heq | Hne]; [eauto |].
    apply IH. destruct (Z.eqb_spec i (Driver.id a)) as [Heq' | _];
      [congruence | exact H].
Qed.

Lemma imported_qualifying_export year round_number session_type db db'
    year' round' type' :
  db_consistent db = true ->
  imported year round_number session_type db db' ->
  (year', round', type') <> (year, round_number, session_type) ->
  load_qualifying_telemetry db' year' round' type'
  = load_qualifying_telemetry db year' round' type'.
Proof.
  intros Hc Hi Hk. pose proof (imported_find_session Hi Hk) as Hfind.
  destruct Hi as [-> | (new & rows & Hf & Hm & -> & Ha)]; [reflexivity |].
  unfold load_qualifying_telemetry. rewrite Hfind.
  destruct (find_session db year' round' type') as [s |] eqn:E;
    [| reflexivity].
  rewrite (@stored_session_results _ _ _ _ Ha (@find_session_in _ _ _ _ _ E)).
  erewrite try_fold_ext_in; [reflexivity |].
  intros r acc Hr. apply In_order_by in Hr. apply filter_In in Hr.
  destruct Hr as [Hr _]. unfold load_result.
  rewrite (@stored_result_segments _ _ _ Ha _ Hr).
  unfold db_consistent in Hc. repeat rewrite andb_true_iff in Hc.
  destruct Hc as [[_ Hres] _]. rewrite forallb_forall in Hres.
  specialize (Hres r Hr). apply andb_true_iff in Hres.
  destruct Hres as [_ Hd]. apply refers_find_driver in Hd.
  destruct Hd as [d Hd]. cbn [db_app drivers].
  rewrite (@find_app_first _ _ _ (drivers rows) _ Hd), Hd. reflexivity.
Qed.

(** *** Stored rows stay *)

(** The rows [old] are the first rows of [new], as they were. *)
Definition kept {A} (old new : list A) : Prop :=
  firstn (List.length old) new = old.

Definition rows_kept (db db' : Database) : Prop :=
  kept (sessions db) (sessions db') /\
  kept (drivers db) (drivers db') /\
  kept (telemetry_frames db) (telemetry_frames db') /\
  kept (driver_telemetry db) (driver_telemetry db') /\
  kept (track_statuses db) (track_statuses db') /\
  kept (qualifying_results db) (qualifying_results db') /\
  kept (qualifying_telemetry db) (qualifying_telemetry db').

Lemma kept_app {A} (l more : list A) : kept l (l ++ more).
Proof.
  unfold kept. rewrite firstn_app, Nat.sub_diag, firstn_all. simpl.
  apply app_nil_r.
Qed.

Lemma kept_refl {A} (l : list A) : kept l l.
Proof. unfold kept. apply firstn_all. Qed.

Lemma imported_rows_kept year round_number session_type db db' :
  imported year round_number session_type db db' -> rows_kept db db'.
Proof.
  intros [-> | (new & rows & _ & _ & -> & _)]; unfold rows_kept;
    cbn [db_app sessions drivers telemetry_frames driver_telemetry
         track_statuses qualifying_results qualifying_telemetry];
    repeat split; first [apply kept_refl | apply kept_app].
Qed.

(** X4: neither importer deletes or rewrites a row that is stored.
    However an import ends, every table of the store it leaves begins
    with the rows the table had, in their order. *)
Theorem imports_only_append plan db year round_number session_type info
    data qd :
  rows_kept db
    (snd (save_race_telemetry plan db year round_number session_type info
            data)) /\
  rows_kept db
    (snd (save_qualifying_telemetry plan db year round_number session_type
            info qd)).
Proof.
  split; eapply imported_rows_kept.
  - apply save_race_imported.
  - apply save_qualifying_imported.
Qed.

(** X5: an import under one natural key changes nothing a reader of
    another key sees of the race tables: after the race importer or the
    qualifying importer has run, successfully or not, the existence check
    and the race export of every other key return what they returned
    before. *)
Theorem import_leaves_other_race_sessions plan db year round_number
    session_type info data qd year' round' type' :
  (year', round', type') <> (year, round_number, session_type) ->
  (check_session_exists
     (snd (save_race_telemetry plan db year round_number session_type info
             data)) year' round' type'
   = check_session_exists db year' round' type' /\
   load_race_telemetry
     (snd (save_race_telemetry plan db year round_number session_type info
             data)) year' round' type'
   = load_race_telemetry db year' round' type') /\
  (check_session_exists
     (snd (save_qualifying_telemetry plan db year round_number session_type
             info qd)) year' round' type'
   = check_session_exists db year' round' type' /\
   load_race_telemetry
     (snd (save_qualifying_telemetry plan db year round_number session_type
             info qd)) year' round' type'
   = load_race_telemetry db year' round' type').
Proof.
  intros Hk.
  pose proof (save_race_imported plan db year round_number session_type
                info data) as Hr.
  pose proof (save_qualifying_imported plan db year round_number
                session_type info qd) as Hq.
  split; split.
  - unfold check_session_exists.
    rewrite (imported_find_session Hr Hk). reflexivity.
  - exact (imported_race_export Hr Hk).
  - unfold check_session_exists.
    rewrite (imported_find_session Hq Hk). reflexivity.
  - exact (imported_race_export Hq Hk).
Qed.

Lemma import_leaves_other_race_sessions_witness :
  (check_session_exists
     (snd (save_race_telemetry (repeat false 7 ++ [true]) sample_store
             2024 6 "R" sample_info late_driver_race)) 2024 5 "R"
   = check_session_exists sample_store 2024 5 "R" /\
   load_race_telemetry
     (snd (save_race_telemetry (repeat false 7 ++ [true]) sample_store
             2024 6 "R" sample_info late_driver_race)) 2024 5 "R"
   = load_race_telemetry sample_store 2024 5 "R") /\
  (check_session_exists
     (snd (save_qualifying_telemetry (repeat false 7 ++ [true]) sample_store
             2024 6 "R" sample_info plain_quali)) 2024 5 "R"
   = check_session_exists sample_store 2024 5 "R" /\
   load_race_telemetry
     (snd (save_qualifying_telemetry (repeat false 7 ++ [true]) sample_store
             2024 6 "R" sample_info plain_quali)) 2024 5 "R"
   = load_race_telemetry sample_store 2024 5 "R").
Proof.
  apply (@import_leaves_other_race_sessions (repeat false 7 ++ [true])
           sample_store 2024 6 "R" sample_info late_driver_race plain_quali
           2024 5 "R").
  discriminate.
Defined.

(** X6: on a store with referential integrity, an import under one
    natural key changes nothing the qualifying export of another key
    returns, whichever importer ran and however it ended. *)
Theorem import_leaves_other_qualifying_sessions plan db year round_number
    session_type info data qd year' round' type' :
  db_consistent db = true ->
  (year', round', type') <> (year, round_number, session_type) ->
  load_qualifying_telemetry
    (snd (save_race_telemetry plan db year round_number session_type info
            data)) year' round' type'
  = load_qualifying_telemetry db year' round' type' /\
  load_qualifying_telemetry
    (snd (save_qualifying_telemetry plan db year round_number session_type
            info qd)) year' round' type'
  = load_qualifying_telemetry db year' round' type'.
Proof.
  intros Hc Hk. split.
  - eapply imported_qualifying_export; [exact Hc | | exact Hk].
    apply save_race_imported.
  - eapply imported_qualifying_export; [exact Hc | | exact Hk].
    apply save_qualifying_imported.
Qed.

Lemma import_leaves_other_qualifying_sessions_witness :
  load_qualifying_telemetry
    (snd (save_race_telemetry [] plain_store 2024 6 "Q" sample_info
            late_driver_race)) 2024 5 "Q"
  = load_qualifying_telemetry plain_store 2024 5 "Q" /\
  load_qualifying_telemetry
    (snd (save_qualifying_telemetry [] plain_store 2024 6 "Q" sample_info
            stopped_quali)) 2024 5 "Q"
  = load_qualifying_telemetry plain_store 2024 5 "Q".
Proof.
  apply (@import_leaves_other_qualifying_sessions [] plain_store 2024 6 "Q"
           sample_info late_driver_race stopped_quali 2024 5 "Q").
  - reflexivity.
  - discriminate.
Defined.

(** *** The keys of the schema *)

(** [primary_key=True]: no two rows of a table share their [id]. *)
Definition primary_keys_distinct (db : Database) : Prop :=
  NoDup (map Session.id (sessions db)) /\
  NoDup (map Driver.id (drivers db)) /\
  NoDup (map TelemetryFrame.id (telemetry_frames db)) /\
  NoDup (map DriverTelemetry.id (driver_telemetry db)) /\
  NoDup (map TrackStatus.id (track_statuses db)) /\
  NoDup (map QualifyingResult.id (qualifying_results db)) /\
  NoDup (map QualifyingTelemetry.id (qualifying_telemetry db)).

(** The columns of [idx_session_lookup], the unique index of
    [sessions]. *)
Definition natural_key (s : Session.row) : Z * Z * string :=
  (Session.year s, Session.round_number s, Session.session_type s).

Definition natural_keys_distinct (db : Database) : Prop :=
  NoDup (map natural_key (sessions db)).

Lemma NoDup_snoc {A} (l : list A) x :
  NoDup l -> ~ In x l -> NoDup (l ++ [x]).
Proof.
  intros Hl Hx. apply NoDup_app.
  - exact Hl.
  - constructor; [intros [] | constructor].
  - intros a Ha [<- | []]. contradiction.
Qed.

Lemma imported_primary_keys year round_number session_type db db' :
  imported year round_number session_type db db' ->
  primary_keys_distinct db -> primary_keys_distinct db'.
Proof.
  intros [-> | (new & rows & _ & _ & -> & Ha)]; [auto |].
  intros (H1 & H2 & H3 & H4 & H5 & H6 & H7).
  unfold primary_keys_distinct.
  cbn [db_app sessions drivers telemetry_frames driver_telemetry
       track_statuses qualifying_results qualifying_telemetry].
  rewrite !map_app.
  repeat split.
  - rewrite (added_sessions Ha). simpl. apply NoDup_snoc; [exact H1 |].
    rewrite (added_session_id Ha). intros Hin.
    pose proof (@next_id_above _ _ Hin). lia.
  - apply ids_follow_NoDup; [exact H2 | exact (added_driver_ids Ha)].
  - apply ids_follow_NoDup; [exact H3 | exact (added_frame_ids Ha)].
  - apply ids_follow_NoDup; [exact H4 | exact (added_point_ids Ha)].
  - apply ids_follow_NoDup; [exact H5 | exact (added_status_ids Ha)].
  - apply ids_follow_NoDup; [exact H6 | exact (added_result_ids Ha)].
  - apply ids_follow_NoDup; [exact H7 | exact (added_segment_ids Ha)].
Qed.

Lemma session_matches_natural_key year round_number session_type s :
  session_matches year round_number session_type s = true <->
  natural_key s = (year, round_number, session_type).
Proof.
  unfold session_matches, natural_key. rewrite !andb_true_iff.
  rewrite !Z.eqb_eq, String.eqb_eq. split.
  - intros [[-> ->] ->]. reflexivity.
  - intros E. inversion E. auto.
Qed.

Lemma imported_natural_keys year round_number session_type db db' :
  imported year round_number session_type db db' ->
  natural_keys_distinct db -> natural_keys_distinct db'.
Proof.
  intros [-> | (new & rows & Hf & Hm & -> & Ha)]; [auto |].
  unfold natural_keys_distinct. cbn [db_app sessions].
  rewrite (added_sessions Ha), map_app. simpl. intros Hn.
  apply NoDup_snoc; [exact Hn |]. intros Hin.
  apply in_map_iff in Hin. destruct Hin as (s & Hk & Hs).
  unfold find_session in Hf.
  pose proof (find_none _ _ Hf s Hs) as Hno.
  apply session_matches_natural_key in Hm.
  assert (Hs' : session_matches year round_number session_type s = true).
  { apply session_matches_natural_key. congruence. }
  congruence.
Qed.

(** X7: the primary keys stay primary keys.  If no two rows of a table
    share their [id], no two rows do after an import, whichever importer
    ran and however it ended: a new row gets a rowid no stored row has. *)
Theorem primary_keys_stay_distinct plan db year round_number session_type
    info data qd :
  primary_keys_distinct db ->
  primary_keys_distinct
    (snd (save_race_telemetry plan db year round_number session_type info
            data)) /\
  primary_keys_distinct
    (snd (save_qualifying_telemetry plan db year round_number session_type
            info qd)).
Proof.
  intros H. split; eapply imported_primary_keys; try exact H.
  - apply save_race_imported.
  - apply save_qualifying_imported.
Qed.

Ltac distinct_rows :=
  repeat (constructor; [simpl; intuition discriminate |]); constructor.

Lemma primary_keys_stay_distinct_witness :
  primary_keys_distinct
    (snd (save_race_telemetry [] plain_store 2024 6 "R" sample_info
            late_driver_race)) /\
  primary_keys_distinct
    (snd (save_qualifying_telemetry [] plain_store 2024 6 "R" sample_info
            stopped_quali)).
Proof.
  apply (@primary_keys_stay_distinct [] plain_store 2024 6 "R" sample_info
           late_driver_race stopped_quali).
  unfold primary_keys_distinct. simpl. repeat split; distinct_rows.
Defined.

(** X8: the importers respect the unique index of [sessions] on
    (year, round_number, session_type).  If no two stored sessions share
    their natural key, none do after an import: an importer adds a session
    only under a key it has looked up and not found. *)
Theorem natural_keys_stay_distinct plan db year round_number session_type
    info data qd :
  natural_keys_distinct db ->
  natural_keys_distinct
    (snd (save_race_telemetry plan db year round_number session_type info
            data)) /\
  natural_keys_distinct
    (snd (save_qualifying_telemetry plan db year round_number session_type
            info qd)).
Proof.
  intros H. split; eapply imported_natural_keys; try exact H.
  - apply save_race_imported.
  - apply save_qualifying_imported.
Qed.

Lemma natural_keys_stay_distinct_witness :
  natural_keys_distinct
    (snd (save_race_telemetry [] plain_store 2024 6 "R" sample_info
            late_driver_race)) /\
  natural_keys_distinct
    (snd (save_qualifying_telemetry [] plain_store 2024 6 "R" sample_info
            stopped_quali)).
Proof.
  apply (@natural_keys_stay_distinct [] plain_store 2024 6 "R" sample_info
           late_driver_race stopped_quali).
  unfold natural_keys_distinct. simpl. distinct_rows.
Defined.

(** X9: the importers respect the foreign keys of the schema.  On a store
    in which every foreign key names a row of the table it refers to, the
    store an import leaves has that property again, whichever importer
    ran, whatever the payload and the storage faults, and also when the
    race importer leaves a partial session. *)
Theorem imports_keep_referential_integrity plan db year round_number
    session_type info data qd :
  db_consistent db = true ->
  db_consistent
    (snd (save_race_telemetry plan db year round_number session_type info
            data)) = true /\
  db_consistent
    (snd (save_qualifying_telemetry plan db year round_number session_type
            info qd)) = true.
Proof.
  intros H. split.
  - apply save_race_keeps_consistency. exact H.
  - apply save_qualifying_keeps_consistency. exact H.
Qed.

Lemma imports_keep_referential_integrity_witness :
  db_consistent
    (snd (save_race_telemetry fault_in_second_batch plain_store 2024 6 "R"
            sample_info long_race)) = true /\
  db_consistent
    (snd (save_qualifying_telemetry [] plain_store 2024 6 "R" sample_info
            stopped_quali)) = true.
Proof.
  apply (@imports_keep_referential_integrity fault_in_second_batch
           plain_store 2024 6 "R" sample_info long_race stopped_quali).
  reflexivity.
Defined.
(* ------------------------------------------------------------------ *)
(** ** What every race export looks like

    Properties of [load_race_telemetry] on any store, imported or not. *)

Lemma try_map_In {A B} (f : A -> option B) l : forall l' b,
  try_map f l = Some l' -> In b l' -> exists a, In a l /\ f a = Some b.
Proof.
  induction l as [| a r IH]; simpl; intros l' b E Hb.
  - inversion E; subst. contradiction.
  - destruct (f a) as [b0 |] eqn:Ea; [| discriminate].
    destruct (try_map f r) as [bs |] eqn:Er; [| discriminate].
    inversion E; subst. destruct Hb as [<- | Hb].
    + exists a. auto.
    + destruct (IH _ _ eq_refl Hb) as (a' & Ha' & Hf). exists a'. auto.
Qed.

Lemma str_truthy_nonempty s : str_truthy s = true -> s <> EmptyString.
Proof. destruct s; [discriminate | discriminate]. Qed.

(** The codes of the samples of a frame come from [driver_id_to_code]. *)
Lemma load_points_codes dtc pts : forall acc dd code,
  try_fold pts acc (load_point dtc) = Some dd ->
  In code (dict_keys dd) ->
  In code (dict_keys acc) \/
  (str_truthy code = true /\ exists did, dict_get did dtc = Some code).
Proof.
  induction pts as [| p r IH]; simpl; intros acc dd code E Hin.
  - inversion E; subst. left. exact Hin.
  - destruct (load_point dtc acc p) as [acc' |] eqn:Ep; [| discriminate].
    destruct (IH _ _ _ E Hin) as [Hacc | Hnew]; [| right; exact Hnew].
    unfold load_point in Ep.
    destruct (dict_get (DriverTelemetry.driver_id p) dtc) as [c |] eqn:Eg.
    + destruct (str_truthy c) eqn:Et.
      * destruct (DriverTelemetry.tyre_compound p); [| discriminate].
        inversion Ep; subst acc'. apply dict_keys_set in Hacc.
        destruct Hacc as [-> | Hacc]; [| left; exact Hacc].
        right. split; [exact Et |]. eauto.
      * inversion Ep; subst. left. exact Hacc.
    + inversion Ep; subst. left. exact Hacc.
Qed.

(** What the two dictionaries of the loop over [drivers] hold. *)
Lemma id_to_code_of_rows rows : forall acc did code,
  dict_get did
    (fold_left (fun acc d => dict_set (Driver.id d) (Driver.driver_code d) acc)
       rows acc) = Some code ->
  dict_get did acc = Some code \/
  exists d, In d rows /\ Driver.id d = did /\ Driver.driver_code d = code.
Proof.
  induction rows as [| d r IH]; simpl; intros acc did code E.
  - left. exact E.
  - destruct (IH _ _ _ E) as [Hacc | (d' & Hd' & Hid & Hc)].
    + destruct (Z.eq_dec did (Driver.id d)) as [-> | Hn].
      * rewrite dict_get_set_same in Hacc. inversion Hacc; subst.
        right. exists d. auto.
      * rewrite dict_get_set_other in Hacc by exact Hn. left. exact Hacc.
    + right. exists d'. auto.
Qed.

Lemma colors_of_rows rows : forall (acc : pydict string rgb) code,
  (dict_get code acc <> None \/
   exists d, In d rows /\ Driver.driver_code d = code) ->
  dict_get code
    (fold_left (fun acc d =>
                  dict_set (Driver.driver_code d)
                    (Driver.color_r d, Driver.color_g d, Driver.color_b d)
                    acc) rows acc) <> None.
Proof.
  induction rows as [| d r IH]; simpl; intros acc code H.
  - destruct H as [H | (d & [] & _)]. exact H.
  - apply IH. destruct H as [H | (d' & [<- | Hd'] & Hc)].
    + left. destruct (String.string_dec code (Driver.driver_code d))
        as [-> | Hn].
      * rewrite dict_get_set_same. discriminate.
      * rewrite dict_get_set_other by exact Hn. exact H.
    + left. subst code. rewrite dict_get_set_same. discriminate.
    + right. exists d'. auto.
Qed.

(** X10: every driver of an exported frame is a driver of the session
    and has a colour.  In whatever [load_race_telemetry] returns, from any
    store, the code of a sample of a frame is not empty, is the code of a
    [Driver] row of the exported session, and is a key of the exported
    [driver_colors]. *)
Theorem exported_drivers_have_colors db year round_number session_type p
    f code :
  load_race_telemetry db year round_number session_type = Some p ->
  In f (TelemetryData.frames p) ->
  In code (dict_keys (FrameData.drivers f)) ->
  code <> EmptyString /\
  dict_get code (TelemetryData.driver_colors p) <> None /\
  exists s d,
    find_session db year round_number session_type = Some s /\
    In d (drivers db) /\ Driver.session_id d = Session.id s /\
    Driver.driver_code d = code.
Proof.
  unfold load_race_telemetry. intros Hload Hf Hcode.
  destruct (find_session db year round_number session_type) as [s |] eqn:Es;
    [| discriminate].
  set (rows := filter (fun d => (Driver.session_id d =? Session.id s)%Z)
                 (drivers db)) in *.
  destruct (try_map (load_frame db (load_driver_id_to_code rows)) _)
    as [frames |] eqn:Em; [| discriminate].
  inversion Hload; subst p. clear Hload. simpl in Hf |- *.
  destruct (@try_map_In _ _ _ _ _ _ Em Hf) as (row & _ & Hrow).
  unfold load_frame in Hrow.
  destruct (try_fold _ [] (load_point (load_driver_id_to_code rows)))
    as [dd |] eqn:Ed; [| discriminate].
  inversion Hrow; subst f. clear Hrow. simpl in Hcode.
  destruct (@load_points_codes _ _ _ _ _ Ed Hcode) as [[] | (Ht & did & Hg)].
  unfold load_driver_id_to_code in Hg.
  apply id_to_code_of_rows in Hg.
  destruct Hg as [Hg | (d & Hd & _ & Hc)]; [discriminate |].
  split; [apply str_truthy_nonempty; exact Ht |]. split.
  - unfold load_driver_colors. apply colors_of_rows. right. eauto.
  - exists s, d. split; [reflexivity |].
    unfold rows in Hd. apply filter_In in Hd. destruct Hd as [Hd Hs].
    apply Z.eqb_eq in Hs. auto.
Qed.

(** A sprint session stored by hand: one driver, one frame, one sample. *)
Definition sprint_store : Database :=
  mkDatabase
    [Session.mk 4 2023 9 "S" "Austria" None None None (Some 57%Z) None]
    [Driver.mk 8 4 "LEC" None None None 220 0 0]
    [TelemetryFrame.mk 1 4 0 None None None None None None None]
    [DriverTelemetry.mk 1 1 8 1 2 None None None None None None None None
       None (Some 3%Z)]
    [] [] [].

Definition sprint_frame : FrameData.dict :=
  FrameData.mk (Some 0%Q) None None
    [("LEC"%string,
      DriverData.mk (Some 1%Q) (Some 2%Q) None None None None None None None
        None None (Some (inject_Z 3)))].

Definition sprint_export : TelemetryData.dict :=
  TelemetryData.mk [sprint_frame] [("LEC"%string, (220, 0, 0)%Z)] []
    (Some 57%Z).

Lemma exported_drivers_have_colors_witness :
  "LEC"%string <> EmptyString /\
  dict_get "LEC"%string (TelemetryData.driver_colors sprint_export) <> None /\
  exists s d,
    find_session sprint_store 2023 9 "S" = Some s /\
    In d (drivers sprint_store) /\ Driver.session_id d = Session.id s /\
    Driver.driver_code d = "LEC"%string.
Proof.
  apply (@exported_drivers_have_colors sprint_store 2023 9 "S" sprint_export
           sprint_frame "LEC").
  - reflexivity.
  - simpl. left. reflexivity.
  - simpl. left. reflexivity.
Defined.
(* ------------------------------------------------------------------ *)
(** ** The two speeds of a qualifying export

    [load_qualifying_telemetry] folds the [max_speed] and the [min_speed]
    of every stored segment of the session into two running values that
    start at [0.0]. *)

(** The segment rows the loops of [load_qualifying_telemetry] visit: the
    telemetry of the results of the session. *)
Definition session_segment (db : Database) (s : Session.row)
    (t : QualifyingTelemetry.row) : Prop :=
  In t (qualifying_telemetry db) /\
  exists res,
    In res (qualifying_results db) /\
    QualifyingResult.session_id res = Session.id s /\
    QualifyingTelemetry.result_id t = QualifyingResult.id res.

Definition segments_of (db : Database) (res : QualifyingResult.row)
    : list QualifyingTelemetry.row :=
  filter (fun qt => (QualifyingTelemetry.result_id qt
                     =? QualifyingResult.id res)%Z)
    (qualifying_telemetry db).

Lemma load_segment_steps l : forall d M m,
  fold_left load_segment_step l (d, M, m)
  = (fst (fst (fold_left load_segment_step l (d, M, m))),
     fold_left update_max_speed l M, fold_left update_min_speed l m).
Proof.
  induction l as [| t r IH]; intros d M m; simpl.
  - reflexivity.
  - apply IH.
Qed.

Lemma load_results_speeds db rows : forall acc acc',
  try_fold rows acc (load_result db) = Some acc' ->
  ql_max_speed acc'
  = fold_left update_max_speed (flat_map (segments_of db) rows)
      (ql_max_speed acc) /\
  ql_min_speed acc'
  = fold_left update_min_speed (flat_map (segments_of db) rows)
      (ql_min_speed acc).
Proof.
  induction rows as [| res r IH]; simpl; intros acc acc' E.
  - inversion E; subst. auto.
  - destruct (load_result db acc res) as [acc1 |] eqn:E1; [| discriminate].
    destruct (IH _ _ E) as [HM Hm]. rewrite HM, Hm.
    unfold load_result in E1.
    destruct (find _ (drivers db)) as [d |]; [| discriminate].
    fold (segments_of db res) in E1.
    rewrite load_segment_steps in E1. inversion E1; subst acc1. simpl.
    rewrite !fold_left_app. auto.
Qed.

Lemma session_segment_visited db s t :
  session_segment db s t <->
  In t (flat_map (segments_of db)
          (order_by (fun a b =>
                       (QualifyingResult.position a
                        <=? QualifyingResult.position b)%Z)
             (filter (fun r => (QualifyingResult.session_id r
                                =? Session.id s)%Z)
                (qualifying_results db)))).
Proof.
  rewrite in_flat_map. unfold session_segment, segments_of. split.
  - intros (Ht & res & Hres & Hs & Hr). exists res. split.
    + eapply Permutation_in; [apply Permutation_sym, order_by_perm |].
      apply filter_In. split; [exact Hres |]. apply Z.eqb_eq. exact Hs.
    + apply filter_In. split; [exact Ht |]. apply Z.eqb_eq. exact Hr.
  - intros (res & Hres & Ht). apply In_order_by in Hres.
    apply filter_In in Hres. destruct Hres as [Hres Hs].
    apply filter_In in Ht. destruct Ht as [Ht Hr].
    apply Z.eqb_eq in Hs, Hr. split; [exact Ht |]. eauto.
Qed.

(** *** The running maximum *)

Lemma Qltb_true a b : Qltb a b = true -> a < b.
Proof.
  unfold Qltb. rewrite negb_true_iff. intros H.
  apply Qnot_le_lt. intros Hle. apply Qle_bool_iff in Hle. congruence.
Qed.

Lemma Qltb_false a b : Qltb a b = false -> b <= a.
Proof.
  unfold Qltb. rewrite negb_false_iff. apply Qle_bool_iff.
Qed.

Lemma float_truthy_false v : float_truthy v = false -> v == 0.
Proof.
  unfold float_truthy. rewrite negb_false_iff. apply Qeq_bool_eq.
Qed.

Lemma float_truthy_true v : float_truthy v = true -> ~ v == 0.
Proof.
  unfold float_truthy. rewrite negb_true_iff. intros H E.
  apply Qeq_eq_bool in E. congruence.
Qed.

Lemma update_max_speed_step M t :
  0 <= M ->
  M <= update_max_speed M t /\
  (forall v, QualifyingTelemetry.max_speed t = Some v ->
             v <= update_max_speed M t) /\
  (update_max_speed M t = M \/
   QualifyingTelemetry.max_speed t = Some (update_max_speed M t)).
Proof.
  intros H0. unfold update_max_speed.
  destruct (QualifyingTelemetry.max_speed t) as [v |].
  - destruct (float_truthy v) eqn:Et; simpl.
    + destruct (Qltb M v) eqn:El.
      * apply Qltb_true in El. repeat split.
        -- apply Qlt_le_weak. exact El.
        -- intros v' E. inversion E; subst. apply Qle_refl.
        -- right. reflexivity.
      * apply Qltb_false in El. repeat split.
        -- apply Qle_refl.
        -- intros v' E. inversion E; subst. exact El.
        -- left. reflexivity.
    + apply float_truthy_false in Et. repeat split.
      * apply Qle_refl.
      * intros v' E. inversion E; subst. rewrite Et. exact H0.
      * left. reflexivity.
  - repeat split.
    + apply Qle_refl.
    + discriminate.
    + left. reflexivity.
Qed.

Lemma running_maximum l : forall M0,
  0 <= M0 ->
  M0 <= fold_left update_max_speed l M0 /\
  (forall t v, In t l -> QualifyingTelemetry.max_speed t = Some v ->
               v <= fold_left update_max_speed l M0) /\
  (fold_left update_max_speed l M0 = M0 \/
   exists t, In t l /\
             QualifyingTelemetry.max_speed t
             = Some (fold_left update_max_speed l M0)).
Proof.
  induction l as [| t r IH]; intros M0 H0; simpl.
  - repeat split.
    + apply Qle_refl.
    + intros t v [].
    + left. reflexivity.
  - destruct (update_max_speed_step t H0) as (H1 & H2 & H3).
    assert (H0' : 0 <= update_max_speed M0 t)
      by (eapply Qle_trans; eassumption).
    destruct (IH _ H0') as (I1 & I2 & I3). repeat split.
    + eapply Qle_trans; eassumption.
    + intros t' v [<- | Hin] Hv.
      * eapply Qle_trans; [apply H2; exact Hv | exact I1].
      * eapply I2; eassumption.
    + destruct I3 as [I3 | (t' & Hin & Hv)].
      * rewrite I3. destruct H3 as [H3 | H3].
        -- left. exact H3.
        -- right. exists t. auto.
      * right. exists t'. auto.
Qed.

(** X11: the exported [max_speed] of a qualifying session is the largest
    [max_speed] of its stored segments, and [0.0] when none is larger:
    it is not negative, no segment of the session has a larger maximum,
    and it is [0.0] or the maximum of one of the segments. *)
Theorem exported_max_speed_is_the_maximum db year round_number session_type
    q :
  load_qualifying_telemetry db year round_number session_type = Some q ->
  exists s M,
    find_session db year round_number session_type = Some s /\
    QualiData.max_speed q = Some M /\
    0 <= M /\
    (forall t v, session_segment db s t ->
                 QualifyingTelemetry.max_speed t = Some v -> v <= M) /\
    (M = 0 \/
     exists t, session_segment db s t /\
               QualifyingTelemetry.max_speed t = Some M).
Proof.
  unfold load_qualifying_telemetry. intros Hload.
  destruct (find_session db year round_number session_type) as [s |] eqn:Es;
    [| discriminate].
  destruct (try_fold _ (mkQualiLoad [] [] 0 0) (load_result db))
    as [acc |] eqn:Et; [| discriminate].
  inversion Hload; subst q. clear Hload. simpl.
  apply load_results_speeds in Et. destruct Et as [HM _]. simpl in HM.
  destruct (@running_maximum
              (flat_map (segments_of db)
                 (order_by (fun a b =>
                              (QualifyingResult.position a
                               <=? QualifyingResult.position b)%Z)
                    (filter (fun r => (QualifyingResult.session_id r
                                       =? Session.id s)%Z)
                       (qualifying_results db)))) 0 (Qle_refl 0))
    as (H1 & H2 & H3).
  rewrite <- HM in H1, H2, H3.
  exists s, (ql_max_speed acc). split; [reflexivity |].
  split; [reflexivity |]. split; [exact H1 |]. split.
  - intros t v Ht Hv. apply session_segment_visited in Ht. eauto.
  - destruct H3 as [H3 | (t & Ht & Hv)]; [left; exact H3 |].
    right. exists t. split; [| exact Hv].
    apply session_segment_visited. exact Ht.
Qed.

(** *** The running minimum *)

(** What the running minimum is once the segments [l] are visited:
    still the [0.0] it started from, when no segment has a minimum other
    than [0.0]; otherwise the least of the minima other than [0.0]. *)
Definition least_nonzero_minimum (m : Q) (l : list QualifyingTelemetry.row)
    : Prop :=
  (m = 0 /\
   forall t v, In t l -> QualifyingTelemetry.min_speed t = Some v -> v == 0)
  \/
  (~ m == 0 /\
   (exists t, In t l /\ QualifyingTelemetry.min_speed t = Some m) /\
   forall t v, In t l -> QualifyingTelemetry.min_speed t = Some v ->
               ~ v == 0 -> m <= v).

Lemma update_min_speed_step m done t :
  least_nonzero_minimum m done ->
  least_nonzero_minimum (update_min_speed m t) (done ++ [t]).
Proof.
  unfold update_min_speed. intros J.
  destruct (QualifyingTelemetry.min_speed t) as [v |] eqn:Ev.
  - destruct (float_truthy v) eqn:Et; simpl.
    + apply float_truthy_true in Et.
      destruct J as [[-> Hz] | (Hm & (t0 & Hin0 & Hv0) & Hle)].
      * (* the first minimum other than 0.0 *)
        replace (Qltb v 0 || Qeq_bool 0 0) with true
          by (rewrite orb_true_r; reflexivity).
        right. split; [exact Et |]. split.
        -- exists t. split; [apply in_or_app; right; left; reflexivity |].
           exact Ev.
        -- intros t' v' Hin Hv' Hnz. apply in_app_or in Hin.
           destruct Hin as [Hin | [<- | []]].
           ++ exfalso. apply Hnz. eapply Hz; eassumption.
           ++ rewrite Ev in Hv'. inversion Hv'; subst. apply Qle_refl.
      * assert (Hq : Qeq_bool m 0 = false).
        { destruct (Qeq_bool m 0) eqn:E; [| reflexivity].
          apply Qeq_bool_eq in E. contradiction. }
        rewrite Hq, orb_false_r.
        destruct (Qltb v m) eqn:El.
        -- apply Qltb_true in El. right. split; [exact Et |]. split.
           ++ exists t. split; [apply in_or_app; right; left; reflexivity |].
              exact Ev.
           ++ intros t' v' Hin Hv' Hnz. apply in_app_or in Hin.
              destruct Hin as [Hin | [<- | []]].
              ** eapply Qle_trans; [apply Qlt_le_weak; exact El |].
                 eapply Hle; eassumption.
              ** rewrite Ev in Hv'. inversion Hv'; subst. apply Qle_refl.
        -- apply Qltb_false in El. right. split; [exact Hm |]. split.
           ++ exists t0. split; [apply in_or_app; left; exact Hin0 |].
              exact Hv0.
           ++ intros t' v' Hin Hv' Hnz. apply in_app_or in Hin.
              destruct Hin as [Hin | [<- | []]].
              ** eapply Hle; eassumption.
              ** rewrite Ev in Hv'. inversion Hv'; subst. exact El.
    + apply float_truthy_false in Et.
      destruct J as [[-> Hz] | (Hm & (t0 & Hin0 & Hv0) & Hle)].
      * left. split; [reflexivity |]. intros t' v' Hin Hv'.
        apply in_app_or in Hin. destruct Hin as [Hin | [<- | []]].
        -- eapply Hz; eassumption.
        -- rewrite Ev in Hv'. inversion Hv'; subst. exact Et.
      * right. split; [exact Hm |]. split.
        -- exists t0. split; [apply in_or_app; left; exact Hin0 | exact Hv0].
        -- intros t' v' Hin Hv' Hnz. apply in_app_or in Hin.
           destruct Hin as [Hin | [<- | []]].
           ++ eapply Hle; eassumption.
           ++ rewrite Ev in Hv'. inversion Hv'; subst. contradiction.
  - destruct J as [[-> Hz] | (Hm & (t0 & Hin0 & Hv0) & Hle)].
    + left. split; [reflexivity |]. intros t' v' Hin Hv'.
      apply in_app_or in Hin. destruct Hin as [Hin | [<- | []]].
      * eapply Hz; eassumption.
      * congruence.
    + right. split; [exact Hm |]. split.
      * exists t0. split; [apply in_or_app; left; exact Hin0 | exact Hv0].
      * intros t' v' Hin Hv' Hnz. apply in_app_or in Hin.
        destruct Hin as [Hin | [<- | []]].
        -- eapply Hle; eassumption.
        -- congruence.
Qed.

Lemma running_minimum l : forall done m,
  least_nonzero_minimum m done ->
  least_nonzero_minimum (fold_left update_min_speed l m) (done ++ l).
Proof.
  induction l as [| t r IH]; intros done m J; simpl.
  - rewrite app_nil_r. exact J.
  - change (t :: r) with ([t] ++ r). rewrite app_assoc. apply IH.
    apply update_min_speed_step. exact J.
Qed.

(** X12: the exported [min_speed] of a qualifying session is the least
    of the minima of its stored segments that are not [0.0] (a minimum of
    [0.0] is taken for a missing one).  It is [0.0] exactly when no
    segment of the session has a minimum other than [0.0]; otherwise it is
    the minimum of one of the segments, and no segment has a smaller
    minimum other than [0.0]. *)
Theorem exported_min_speed_is_the_least_nonzero_minimum db year round_number
    session_type q :
  load_qualifying_telemetry db year round_number session_type = Some q ->
  exists s m,
    find_session db year round_number session_type = Some s /\
    QualiData.min_speed q = Some m /\
    ((m = 0 /\
      forall t v, session_segment db s t ->
                  QualifyingTelemetry.min_speed t = Some v -> v == 0)
     \/
     (~ m == 0 /\
      (exists t, session_segment db s t /\
                 QualifyingTelemetry.min_speed t = Some m) /\
      forall t v, session_segment db s t ->
                  QualifyingTelemetry.min_speed t = Some v ->
                  ~ v == 0 -> m <= v)).
Proof.
  unfold load_qualifying_telemetry. intros Hload.
  destruct (find_session db year round_number session_type) as [s |] eqn:Es;
    [| discriminate].
  destruct (try_fold _ (mkQualiLoad [] [] 0 0) (load_result db))
    as [acc |] eqn:Et; [| discriminate].
  inversion Hload; subst q. clear Hload. simpl.
  apply load_results_speeds in Et. destruct Et as [_ Hm]. simpl in Hm.
  assert (J0 : least_nonzero_minimum 0 []).
  { left. split; [reflexivity |]. intros t v []. }
  pose proof (@running_minimum
                (flat_map (segments_of db)
                   (order_by (fun a b =>
                                (QualifyingResult.position a
                                 <=? QualifyingResult.position b)%Z)
                      (filter (fun r => (QualifyingResult.session_id r
                                         =? Session.id s)%Z)
                         (qualifying_results db)))) [] 0 J0) as J.
  rewrite <- Hm in J. simpl app in J.
  exists s, (ql_min_speed acc). split; [reflexivity |].
  split; [reflexivity |].
  destruct J as [[H0 Hz] | (Hnz & (t & Ht & Hv) & Hle)].
  - left. split; [exact H0 |]. intros t v Ht Hv.
    apply session_segment_visited in Ht. eauto.
  - right. split; [exact Hnz |]. split.
    + exists t. split; [apply session_segment_visited; exact Ht | exact Hv].
    + intros t' v' Ht' Hv' Hn. apply session_segment_visited in Ht'. eauto.
Qed.

(** The export of the qualifying session whose segments stopped. *)
Definition stopped_export : QualiData.dict :=
  Eval vm_compute in
    match load_qualifying_telemetry stopped_store 2024 5 "Q" with
    | Some q => q
    | None => QualiData.mk [] [] None None
    end.

Lemma exported_max_speed_is_the_maximum_witness :
  exists s M,
    find_session stopped_store 2024 5 "Q" = Some s /\
    QualiData.max_speed stopped_export = Some M /\
    0 <= M /\
    (forall t v, session_segment stopped_store s t ->
                 QualifyingTelemetry.max_speed t = Some v -> v <= M) /\
    (M = 0 \/
     exists t, session_segment stopped_store s t /\
               QualifyingTelemetry.max_speed t = Some M).
Proof.
  apply (@exported_max_speed_is_the_maximum stopped_store 2024 5 "Q"
           stopped_export).
  reflexivity.
Defined.

Lemma exported_min_speed_is_the_least_nonzero_minimum_witness :
  exists s m,
    find_session stopped_store 2024 5 "Q" = Some s /\
    QualiData.min_speed stopped_export = Some m /\
    ((m = 0 /\
      forall t v, session_segment stopped_store s t ->
                  QualifyingTelemetry.min_speed t = Some v -> v == 0)
     \/
     (~ m == 0 /\
      (exists t, session_segment stopped_store s t /\
                 QualifyingTelemetry.min_speed t = Some m) /\
      forall t v, session_segment stopped_store s t ->
                  QualifyingTelemetry.min_speed t = Some v ->
                  ~ v == 0 -> m <= v)).
Proof.
  apply (@exported_min_speed_is_the_least_nonzero_minimum stopped_store
           2024 5 "Q" stopped_export).
  reflexivity.
Defined.
(* ------------------------------------------------------------------ *)
(** ** Stored sessions are exported

    [check_session_exists] and the two exporters look the session up in
    the same way; an exporter returns [None] for a stored session only
    when its [try] block raises. *)

(** Every sample has its tyre compound: [float(point.tyre_compound)]
    raises on none of them. *)
Definition samples_have_tyres (db : Database) : bool :=
  forallb (fun p => is_some (DriverTelemetry.tyre_compound p))
    (driver_telemetry db).

Lemma load_points_total dtc pts : forall acc,
  Forall (fun p => DriverTelemetry.tyre_compound p <> None) pts ->
  exists dd, try_fold pts acc (load_point dtc) = Some dd.
Proof.
  induction pts as [| p r IH]; simpl; intros acc Hp.
  - eauto.
  - inversion Hp as [| p' r' Hty Hr]; subst.
    unfold load_point at 1.
    destruct (dict_get (DriverTelemetry.driver_id p) dtc) as [c |];
      [| apply IH; exact Hr].
    destruct (str_truthy c); [| apply IH; exact Hr].
    destruct (DriverTelemetry.tyre_compound p); [| contradiction].
    apply IH. exact Hr.
Qed.

Lemma try_map_total {A B} (f : A -> option B) l :
  (forall a, In a l -> exists b, f a = Some b) ->
  exists l', try_map f l = Some l'.
Proof.
  induction l as [| a r IH]; simpl; intros H.
  - eauto.
  - destruct (H a (or_introl eq_refl)) as [b ->].
    destruct IH as [bs ->]; [auto |]. eauto.
Qed.

Lemma tyres_load_frame db dtc row :
  samples_have_tyres db = true -> exists f, load_frame db dtc row = Some f.
Proof.
  intros Ht. unfold load_frame. cbv zeta.
  destruct (try_fold _ [] (load_point dtc)) as [dd |] eqn:Ed; [eauto |].
  exfalso.
  destruct (@load_points_total dtc
              (filter (fun p => (DriverTelemetry.frame_id p
                                 =? TelemetryFrame.id row)%Z)
                 (driver_telemetry db)) [])
    as [dd E].
  - apply Forall_forall. intros p Hp. apply filter_In in Hp.
    destruct Hp as [Hp _]. unfold samples_have_tyres in Ht.
    rewrite forallb_forall in Ht. specialize (Ht p Hp).
    destruct (DriverTelemetry.tyre_compound p); [discriminate | discriminate].
  - assert (H : Some dd = None) by (rewrite <- E; exact Ed).
    discriminate H.
Qed.

Lemma imported_tyres year round_number session_type db db' :
  imported year round_number session_type db db' ->
  samples_have_tyres db = true -> samples_have_tyres db' = true.
Proof.
  intros [-> | (new & rows & _ & _ & -> & Ha)] Ht; [exact Ht |].
  unfold samples_have_tyres in *. cbn [db_app driver_telemetry].
  rewrite forallb_app, Ht. simpl. apply forallb_forall. intros p Hp.
  pose proof (added_points Ha) as H. rewrite Forall_forall in H.
  destruct (H p Hp) as (_ & _ & Hty).
  destruct (DriverTelemetry.tyre_compound p); [reflexivity | contradiction].
Qed.

(** X13: the race export answers every stored key on the stores the
    importers build.  [load_race_telemetry] raises only on a sample
    without tyre compound, and the importers write none: when every
    stored sample has its tyre compound, every sample does after an
    import, whichever importer ran and however it ended, and the race
    export returns a payload for every key that [check_session_exists]
    reports. *)
Theorem race_export_answers_stored_keys plan db year round_number
    session_type info data qd :
  samples_have_tyres db = true ->
  samples_have_tyres
    (snd (save_race_telemetry plan db year round_number session_type info
            data)) = true /\
  samples_have_tyres
    (snd (save_qualifying_telemetry plan db year round_number session_type
            info qd)) = true /\
  forall year' round' type',
    check_session_exists db year' round' type' = true ->
    exists p, load_race_telemetry db year' round' type' = Some p.
Proof.
  intros Ht. split; [| split].
  - eapply imported_tyres; [apply save_race_imported | exact Ht].
  - eapply imported_tyres; [apply save_qualifying_imported | exact Ht].
  - intros year' round' type'.
    unfold check_session_exists, load_race_telemetry.
    destruct (find_session db year' round' type') as [s |];
      [intros _ | discriminate].
    match goal with
    | |- context [ try_map ?f ?l ] =>
        destruct (@try_map_total _ _ f l) as [frames ->]
    end.
    + intros row _. apply tyres_load_frame. exact Ht.
    + eauto.
Qed.

Lemma race_export_answers_stored_keys_witness :
  samples_have_tyres
    (snd (save_race_telemetry fault_in_second_batch sample_store 2024 6 "R"
            sample_info long_race)) = true /\
  samples_have_tyres
    (snd (save_qualifying_telemetry [] sample_store 2024 6 "R" sample_info
            plain_quali)) = true /\
  forall year' round' type',
    check_session_exists sample_store year' round' type' = true ->
    exists p, load_race_telemetry sample_store year' round' type' = Some p.
Proof.
  apply (@race_export_answers_stored_keys fault_in_second_batch sample_store
           2024 6 "R" sample_info long_race plain_quali).
  reflexivity.
Defined.

Lemma try_fold_total {A S} (body : S -> A -> option S) l :
  (forall a s, In a l -> exists s', body s a = Some s') ->
  forall s, exists s', try_fold l s body = Some s'.
Proof.
  induction l as [| a r IH]; simpl; intros H s.
  - eauto.
  - destruct (H a s (or_introl eq_refl)) as [s1 ->]. apply IH. auto.
Qed.

(** X14: the qualifying export answers every stored key on a store with
    referential integrity (which the importers keep).
    [load_qualifying_telemetry] raises only on a result whose driver row
    is missing: when every foreign key names a stored row, it returns a
    payload for every key that [check_session_exists] reports. *)
Theorem qualifying_export_answers_stored_keys db year round_number
    session_type :
  db_consistent db = true ->
  check_session_exists db year round_number session_type = true ->
  exists q,
    load_qualifying_telemetry db year round_number session_type = Some q.
Proof.
  intros Hc. unfold check_session_exists, load_qualifying_telemetry.
  destruct (find_session db year round_number session_type) as [s |];
    [intros _ | discriminate].
  match goal with
  | |- context [ try_fold ?l ?s0 (load_result db) ] =>
      destruct (@try_fold_total _ _ (load_result db) l) with (s := s0)
        as [acc ->]
  end.
  - intros res acc Hres. apply In_order_by in Hres.
    apply filter_In in Hres. destruct Hres as [Hres _].
    unfold db_consistent in Hc. repeat rewrite andb_true_iff in Hc.
    destruct Hc as [[_ Hr] _]. rewrite forallb_forall in Hr.
    specialize (Hr res Hres). apply andb_true_iff in Hr.
    destruct Hr as [_ Hd]. apply refers_find_driver in Hd.
    destruct Hd as [d Hd]. unfold load_result. rewrite Hd.
    destruct (fold_left load_segment_step _ _) as [[dt M] m]. eauto.
  - eauto.
Qed.

Lemma qualifying_export_answers_stored_keys_witness :
  exists q, load_qualifying_telemetry plain_store 2024 5 "Q" = Some q.
Proof.
  apply (@qualifying_export_answers_stored_keys plain_store 2024 5 "Q").
  - reflexivity.
  - reflexivity.
Defined.
(* ------------------------------------------------------------------ *)
(** ** When a race import succeeds

    The race importer reads four keys with [d[k]], which raises on a
    missing key: ['status'] and ['start_time'] of a track status, ['t'] of
    a frame, ['x'] and ['y'] of a sample; and it reads a sample only when
    its driver is one of the first frame. *)

(** The samples of a frame that the importer reads have their position. *)
Definition readable_frame (codes : list string) (f : FrameData.dict)
    : bool :=
  is_some (FrameData.t f)
  && forallb (fun item : string * DriverData.dict =>
                negb (known_driver codes (fst item))
                || valid_sample (snd item))
       (FrameData.drivers f).

(** Every key the importer reads with [d[k]] is there. *)
Definition readable_race_payload (data : TelemetryData.dict) : bool :=
  forallb valid_status (TelemetryData.track_statuses data)
  && match TelemetryData.frames data with
     | [] => true
     | first :: _ =>
         forallb (readable_frame (dict_keys (FrameData.drivers first)))
           (TelemetryData.frames data)
     end.

Lemma save_track_status_read sid sd u u' x :
  save_track_status sid sd u = (u', inr x) -> valid_status sd = true.
Proof.
  unfold save_track_status, valid_status. intros E.
  apply bind_inr in E. destruct E as (u1 & st & E1 & E).
  apply subscript_inr in E1. destruct E1 as [-> _].
  apply bind_inr in E. destruct E as (u2 & t & E2 & _).
  apply subscript_inr in E2. destruct E2 as [-> _]. reflexivity.
Qed.

Lemma save_driver_data_read fid dm item u u' x :
  save_driver_data fid dm item u = (u', inr x) ->
  dict_mem (fst item) dm = false \/ valid_sample (snd item) = true.
Proof.
  unfold save_driver_data, dict_mem, valid_sample.
  destruct item as [code d]. simpl.
  destruct (dict_get code dm) as [did |]; [| auto].
  intros E. right.
  apply bind_inr in E. destruct E as (u1 & a & E1 & E).
  apply subscript_inr in E1. destruct E1 as [-> _].
  apply bind_inr in E. destruct E as (u2 & b & E2 & _).
  apply subscript_inr in E2. destruct E2 as [-> _]. reflexivity.
Qed.

Lemma save_frame_read codes dm sid f u u' x :
  (forall code, dict_mem code dm = known_driver codes code) ->
  save_frame sid dm f u = (u', inr x) -> readable_frame codes f = true.
Proof.
  intros Hk E. unfold readable_frame.
  pose proof (save_frame_inr _ _ _ _ E) as Ht.
  destruct (FrameData.t f) as [t |] eqn:Et; [| contradiction]. simpl.
  unfold save_frame in E. rewrite Et in E.
  apply bind_inr in E. destruct E as (u1 & t' & _ & E).
  apply bind_inr in E. destruct E as (u2 & fid & _ & E).
  apply bind_inr in E. destruct E as (u3 & y & _ & E).
  apply forallb_forall. intros item Hin.
  destruct (for_each_inr _ _ _ E item Hin) as (ua & ub & Ei).
  apply save_driver_data_read in Ei. rewrite Hk in Ei.
  destruct Ei as [-> | ->]; [reflexivity | apply orb_true_r].
Qed.

Lemma save_batches_read codes dm sid frames u u' x :
  (forall code, dict_mem code dm = known_driver codes code) ->
  save_batches sid dm frames u = (u', inr x) ->
  forallb (readable_frame codes) frames = true.
Proof.
  intros Hk E. apply forallb_forall. intros f Hf.
  apply In_nth_error in Hf. destruct Hf as [k Hkth].
  destruct (@batches_cover _ frames batch_size k f) as (i & Hi & Hin);
    [unfold batch_size; lia | exact Hkth |].
  unfold save_batches in E.
  destruct (for_each_inr _ _ _ E i Hi) as (u1 & u2 & Eb).
  apply bind_inr in Eb. destruct Eb as (u3 & y & Eb & _).
  destruct (for_each_inr _ _ _ Eb f Hin) as (u4 & u5 & Ef).
  eapply save_frame_read; eassumption.
Qed.

(** The driver map the loop over the first frame builds knows the codes
    of the first frame, and no other. *)
Lemma save_drivers_known sid colors codes u u' dm :
  for_fold codes [] (save_driver sid colors) u = (u', inr dm) ->
  forall code, dict_mem code dm = known_driver codes code.
Proof.
  intros E. apply save_drivers_inr in E. cbv zeta in E.
  destruct E as (_ & _ & ->). intros code.
  apply (agree_known (race_maps_agree sid colors _ codes)).
Qed.

Lemma save_race_rows_read sid data u u' x :
  save_race_rows sid data u = (u', inr x) ->
  readable_race_payload data = true.
Proof.
  unfold save_race_rows, readable_race_payload. intros E.
  apply bind_inr in E. destruct E as (u1 & dm & Ed & E).
  apply bind_inr in E. destruct E as (u2 & y & Es & Eb).
  apply andb_true_iff. split.
  - apply forallb_forall. intros sd Hsd.
    destruct (for_each_inr _ _ _ Es sd Hsd) as (ua & ub & Ea).
    eapply save_track_status_read. exact Ea.
  - destruct (TelemetryData.frames data) as [| first rest] eqn:Ef;
      [reflexivity |].
    eapply save_batches_read; [| exact Eb].
    eapply save_drivers_known. exact Ed.
Qed.

(** The same, read the other way: with all its keys there, each step
    runs. *)
Lemma runs_save_driver_data_read fid dm item :
  dict_mem (fst item) dm = false \/ valid_sample (snd item) = true ->
  runs (save_driver_data fid dm item).
Proof.
  intros [Hm | Hv]; [| apply runs_save_driver_data; exact Hv].
  unfold save_driver_data, dict_mem in *. destruct item as [code d].
  simpl in Hm. destruct (dict_get code dm); [discriminate | apply runs_ret].
Qed.

Lemma runs_save_frame_read codes dm sid f :
  (forall code, dict_mem code dm = known_driver codes code) ->
  readable_frame codes f = true -> runs (save_frame sid dm f).
Proof.
  intros Hk H. unfold readable_frame in H.
  apply andb_true_iff in H. destruct H as [Ht Hi].
  unfold save_frame. destruct (FrameData.t f); [| discriminate].
  unfold add_frame, flush. simpl subscript. run_steps.
  apply runs_for_each. intros item Hin.
  rewrite forallb_forall in Hi. specialize (Hi item Hin).
  apply runs_save_driver_data_read. rewrite Hk.
  apply orb_true_iff in Hi. destruct Hi as [Hi | Hi]; [left | right; exact Hi].
  apply negb_true_iff. exact Hi.
Qed.

Lemma runs_save_batches_read codes dm sid frames :
  (forall code, dict_mem code dm = known_driver codes code) ->
  forallb (readable_frame codes) frames = true ->
  runs (save_batches sid dm frames).
Proof.
  intros Hk Hv. unfold save_batches. apply runs_for_each. intros i _.
  apply runs_bind; [| intros _; apply runs_commit].
  apply runs_for_each. intros f Hf. unfold py_slice in Hf.
  apply In_firstn, In_skipn in Hf.
  rewrite forallb_forall in Hv. eapply runs_save_frame_read; eauto.
Qed.

(** A step that runs, and what it returns. *)
Lemma runs_bind_with {A B} (c : M A) (k : A -> M B) (Q : A -> Prop) :
  runs c ->
  (forall u u' a, c u = (u', inr a) -> Q a) ->
  (forall a, Q a -> runs (k a)) ->
  runs (bind c k).
Proof.
  intros Hc HQ Hk u Hu. destruct (Hc u Hu) as (u1 & a & E & Hu1).
  unfold bind. rewrite E. apply Hk; [eapply HQ; exact E | exact Hu1].
Qed.

Lemma runs_save_race_rows_read sid data :
  readable_race_payload data = true -> runs (save_race_rows sid data).
Proof.
  unfold readable_race_payload, save_race_rows. intros H.
  apply andb_true_iff in H. destruct H as [Hs Hf].
  destruct (TelemetryData.frames data) as [| first rest] eqn:Ef.
  - apply runs_bind; [apply runs_ret | intros dm].
    apply runs_bind.
    + apply runs_for_each. intros sd Hin.
      rewrite forallb_forall in Hs. apply runs_save_track_status. auto.
    + intros _. rewrite save_batches_nil. apply runs_ret.
  - apply runs_bind_with with
      (Q := fun dm => forall code,
              dict_mem code dm
              = known_driver (dict_keys (FrameData.drivers first)) code).
    + apply runs_for_fold. intros dm code _. apply runs_save_driver.
    + intros u u' dm E. eapply save_drivers_known. exact E.
    + intros dm Hk. apply runs_bind.
      * apply runs_for_each. intros sd Hin.
        rewrite forallb_forall in Hs. apply runs_save_track_status. auto.
      * intros _. eapply runs_save_batches_read; eassumption.
Qed.

(** X15: when a race import succeeds.  Under a key that is not stored,
    [save_race_telemetry] can return an identifier only for a payload in
    which every key it reads with [d[k]] is there (every track status has
    its ['status'] and ['start_time'], every frame its ['t'], every sample
    of a driver of the first frame its ['x'] and ['y']), whatever the
    storage faults; and for such a payload, of numbers the store holds and
    under a key of 64-bit integers, it does return one when no storage
    fault occurs.  Samples of drivers that are not in the first frame are
    not read, and cannot make the import fail. *)
Theorem race_import_succeeds_iff_readable db year round_number session_type
    info data :
  check_session_exists db year round_number session_type = false ->
  (forall plan,
     fst (save_race_telemetry plan db year round_number session_type info
            data) <> None ->
     readable_race_payload data = true) /\
  (readable_race_payload data = true ->
   storable_key year round_number = true ->
   storable_info info = true ->
   storable_race_payload data = true ->
   fst (save_race_telemetry [] db year round_number session_type info data)
   <> None).
Proof.
  unfold check_session_exists. intros Hc.
  destruct (find_session db year round_number session_type) as [s |] eqn:Ef;
    [discriminate |]. clear Hc.
  unfold save_race_telemetry. split.
  - intros plan. rewrite save_race_body_fresh by exact Ef.
    simpl working. simpl committed. simpl faults.
    match goal with
    | |- context [ (flush ;; ?c ;; ret ?i) ?u ] =>
        destruct ((flush ;; c ;; ret i) u) as [u' [e | sid]] eqn:E
    end.
    + intros H. exfalso. apply H. reflexivity.
    + intros _. apply bind_inr in E. destruct E as (u1 & y & _ & E).
      apply bind_inr in E. destruct E as (u2 & z & E & _).
      eapply save_race_rows_read. exact E.
  - intros Hr _ _ _. rewrite save_race_body_fresh by exact Ef.
    simpl working. simpl committed. simpl faults.
    assert (Hruns : runs (flush ;; save_race_rows
                            (next_id (map Session.id (sessions db))) data ;;
                          ret (next_id (map Session.id (sessions db))))).
    { apply runs_bind; [apply runs_storage_call | intros _].
      apply runs_bind; [apply runs_save_race_rows_read; exact Hr | intros _].
      apply runs_ret. }
    match goal with
    | |- context [ _ ?u ] =>
        match type of u with
        | UnitOfWork => destruct (Hruns u eq_refl) as (u' & a & E & _)
        end
    end.
    rewrite E. discriminate.
Qed.

Lemma race_import_succeeds_iff_readable_witness :
  (forall plan,
     fst (save_race_telemetry plan sample_store 2024 6 "R" sample_info
            late_driver_race) <> None ->
     readable_race_payload late_driver_race = true) /\
  fst (save_race_telemetry [] sample_store 2024 6 "R" sample_info
         late_driver_race) <> None.
Proof.
  destruct (@race_import_succeeds_iff_readable sample_store 2024 6 "R"
              sample_info late_driver_race eq_refl) as [Honly Hruns].
  split; [exact Honly |].
  apply Hruns; reflexivity.
Defined.
(* ------------------------------------------------------------------ *)
(** ** When a qualifying import succeeds *)

(** A lap time the importer stores without raising: missing, empty, or a
    literal that [float] reads. *)
Definition lap_time_parses (q : option string) : bool :=
  match q with
  | Some s => if str_truthy s then is_some (py_float s) else true
  | None => true
  end.

(** An entry of [results] with the two keys the importer reads with
    [d[k]], and lap times it can store. *)
Definition valid_result (rd : ResultData.dict) : bool :=
  is_some (ResultData.code rd) && is_some (ResultData.position rd)
  && lap_time_parses (ResultData.Q1 rd)
  && lap_time_parses (ResultData.Q2 rd)
  && lap_time_parses (ResultData.Q3 rd).

Lemma runs_lap_time_of q : lap_time_parses q = true -> runs (lap_time_of q).
Proof.
  unfold lap_time_parses, lap_time_of. destruct q as [s |];
    [| intros _; apply runs_ret].
  destruct (str_truthy s); [| intros _; apply runs_ret].
  destruct (py_float s); [intros _; apply runs_ret | discriminate].
Qed.

Lemma runs_save_segment rid tel seg : runs (save_segment rid tel seg).
Proof.
  unfold save_segment.
  destruct (SegmentData.frames (dict_get_default seg empty_segment tel));
    [apply runs_ret |].
  unfold add_qualifying_telemetry. run_steps.
Qed.

Lemma runs_save_result sid qd rd :
  valid_result rd = true -> runs (save_result sid qd rd).
Proof.
  unfold valid_result. rewrite !andb_true_iff.
  intros [[[[Hc Hp] H1] H2] H3]. unfold save_result.
  destruct (ResultData.code rd) as [code |]; [| discriminate].
  destruct (ResultData.position rd) as [position |]; [| discriminate].
  destruct (or_default default_color (ResultData.color rd)) as [[r g] b].
  simpl subscript. unfold add_driver, add_qualifying_result, flush.
  apply runs_bind; [apply runs_ret | intros ?].
  apply runs_bind; [run_steps | intros ?].
  apply runs_bind; [apply runs_storage_call | intros ?].
  apply runs_bind; [apply runs_ret | intros ?].
  apply runs_bind; [apply runs_lap_time_of; exact H1 | intros ?].
  apply runs_bind; [apply runs_lap_time_of; exact H2 | intros ?].
  apply runs_bind; [apply runs_lap_time_of; exact H3 | intros ?].
  apply runs_bind; [run_steps | intros ?].
  apply runs_bind; [apply runs_storage_call | intros ?].
  apply runs_for_each. intros seg _. apply runs_save_segment.
Qed.

(** X16: when a qualifying import succeeds.  Under a key that is not
    stored, [save_qualifying_telemetry] can return an identifier only when
    every entry of [results] has its ['code'] and its ['position'],
    whatever the storage faults; and it does return one, when no storage
    fault occurs, for a payload of numbers the store holds, under a key of
    64-bit integers, whose entries have both keys and whose lap times are
    missing, empty or plain decimal literals [[sign] digits [. digits]]. *)
Theorem qualifying_import_success_conditions db year round_number
    session_type info qd :
  check_session_exists db year round_number session_type = false ->
  (forall plan,
     fst (save_qualifying_telemetry plan db year round_number session_type
            info qd) <> None ->
     forall rd, In rd (QualiData.results qd) ->
                ResultData.code rd <> None /\
                ResultData.position rd <> None) /\
  (forallb valid_result (QualiData.results qd) = true ->
   storable_key year round_number = true ->
   storable_quali qd = true ->
   fst (save_qualifying_telemetry [] db year round_number session_type info
          qd) <> None).
Proof.
  unfold check_session_exists. intros Hc.
  destruct (find_session db year round_number session_type) as [s |] eqn:Ef;
    [discriminate |]. clear Hc.
  unfold save_qualifying_telemetry. split.
  - intros plan. rewrite save_qualifying_body_fresh by exact Ef.
    simpl working. simpl committed. simpl faults.
    match goal with
    | |- context [ (flush ;; ?c ;; commit ;; ret ?i) ?u ] =>
        destruct ((flush ;; c ;; commit ;; ret i) u) as [u' [e | sid]] eqn:E
    end.
    + intros H. exfalso. apply H. reflexivity.
    + intros _ rd Hrd. apply bind_inr in E. destruct E as (u1 & y & _ & E).
      apply bind_inr in E. destruct E as (u2 & z & E & _).
      destruct (for_each_inr _ _ _ E rd Hrd) as (ua & ub & Ea).
      apply save_result_inr in Ea. cbv zeta in Ea.
      destruct Ea as (H1 & H2 & _). auto.
  - intros Hv _ _. rewrite save_qualifying_body_fresh by exact Ef.
    simpl working. simpl committed. simpl faults.
    assert (Hruns : runs (flush ;;
                          for_each (QualiData.results qd)
                            (save_result
                               (next_id (map Session.id (sessions db))) qd) ;;
                          commit ;;
                          ret (next_id (map Session.id (sessions db))))).
    { apply runs_bind; [apply runs_storage_call | intros _].
      apply runs_bind.
      - apply runs_for_each. intros rd Hrd. apply runs_save_result.
        rewrite forallb_forall in Hv. auto.
      - intros _. apply runs_bind; [apply runs_commit | intros _].
        apply runs_ret. }
    match goal with
    | |- context [ _ ?u ] =>
        match type of u with
        | UnitOfWork => destruct (Hruns u eq_refl) as (u' & a & E & _)
        end
    end.
    rewrite E. discriminate.
Qed.

Lemma qualifying_import_success_conditions_witness :
  (forall plan,
     fst (save_qualifying_telemetry plan sample_store 2024 5 "Q" sample_info
            plain_quali) <> None ->
     forall rd, In rd (QualiData.results plain_quali) ->
                ResultData.code rd <> None /\
                ResultData.position rd <> None) /\
  fst (save_qualifying_telemetry [] sample_store 2024 5 "Q" sample_info
         plain_quali) <> None.
Proof.
  destruct (@qualifying_import_success_conditions sample_store 2024 5 "Q"
              sample_info plain_quali eq_refl) as [Honly Hruns].
  split; [exact Honly |].
  apply Hruns; reflexivity.
Defined.
(* ------------------------------------------------------------------ *)
(** ** The track statuses across a race import and export *)











(** After the last batch, everything is committed. *)
Lemma batches_end_committed {A} (c : A -> M unit) l : forall u u' x,
  l <> [] ->
  for_each l (fun i => c i ;; commit) u = (u', inr x) ->
  committed u' = working u'.
Proof.
  induction l as [| a r IH]; intros u u' x Hl E; [contradiction |].
  cbn [for_each] in E. apply bind_inr in E.
  destruct E as (u1 & y & E1 & E2).
  destruct r as [| b r'].
  - cbn [for_each] in E2. apply ret_inr in E2. destruct E2 as [-> _].
    apply bind_inr in E1. destruct E1 as (ub & z & _ & Ec).
    apply commit_inr in Ec. destruct Ec as [-> ->]. reflexivity.
  - eapply IH; [discriminate | exact E2].
Qed.






(* ------------------------------------------------------------------ *)
(** ** The catalogue after an import *)

(** The entry of [get_all_sessions] for a session imported under a key
    with the metadata [info]: a missing name, country or date is the
    empty string. *)
Definition listed_entry (year round_number : Z) (session_type : string)
    (info : SessionInfo.dict) : CatalogEntry.dict :=
  CatalogEntry.mk year round_number session_type
    (or_default EmptyString (SessionInfo.event_name info))
    (Some (or_default EmptyString (SessionInfo.country info)))
    (Some (or_default EmptyString (SessionInfo.date info))).

Lemma catalogue_with_session db db' new :
  sessions db' = sessions db ++ [new] ->
  Permutation (get_all_sessions db')
    (catalog_entry new :: get_all_sessions db).
Proof.
  intros Hs. unfold get_all_sessions. rewrite Hs.
  change (catalog_entry new :: map catalog_entry
                                 (order_by catalog_le (sessions db)))
    with (map catalog_entry (new :: order_by catalog_le (sessions db))).
  apply Permutation_map.
  eapply Permutation_trans; [apply order_by_perm |].
  eapply Permutation_trans; [apply Permutation_app_comm |]. simpl.
  apply perm_skip. apply Permutation_sym. apply order_by_perm.
Qed.

Lemma race_import_sessions plan db year round_number session_type info data
    sid db' :
  find_session db year round_number session_type = None ->
  TelemetryData.frames data <> [] ->
  save_race_telemetry plan db year round_number session_type info data
  = (Some sid, db') ->
  sessions db'
  = sessions db
    ++ [race_session year round_number session_type info data
          (next_id (map Session.id (sessions db)))].
Proof.
  intros Ef Hne Hsave. unfold save_race_telemetry in Hsave.
  rewrite save_race_body_fresh in Hsave by exact Ef.
  simpl working in Hsave. simpl committed in Hsave. simpl faults in Hsave.
  set (i := next_id (map Session.id (sessions db))) in *.
  set (new := race_session year round_number session_type info data i) in *.
  set (u1 := mkUnit db (with_session new db) plan) in *.
  assert (HP : preserves (sessions_kept db (sessions db ++ [new]))
                 (flush ;; save_race_rows i data ;; ret i)).
  { apply preserves_bind.
    - apply preserves_flush. apply sessions_kept_blind.
    - intros _. apply preserves_bind.
      + apply preserves_save_race_rows.
        * apply sessions_kept_blind.
        * intros f Hf. apply sessions_kept_update. exact Hf.
        * apply sessions_kept_commit.
      + intros _. apply preserves_ret. }
  specialize (HP u1 (conj eq_refl (or_introl eq_refl))).
  destruct ((flush ;; save_race_rows i data ;; ret i) u1)
    as [u [e | sid']] eqn:E; [discriminate |].
  inversion Hsave; subst sid' db'. clear Hsave. simpl in HP.
  destruct HP as [Hw _].
  apply bind_inr in E. destruct E as (ua & ya & _ & E).
  apply bind_inr in E. destruct E as (ub & yb & Eb & E).
  apply ret_inr in E. destruct E as [-> ->].
  unfold save_race_rows in Eb.
  apply bind_inr in Eb. destruct Eb as (uc & dm & _ & Eb).
  apply bind_inr in Eb. destruct Eb as (ud & yd & _ & Eb).
  unfold save_batches in Eb.
  apply batches_end_committed in Eb.
  - unfold close_session. rewrite Eb. exact Hw.
  - destruct (TelemetryData.frames data) as [| first rest];
      [contradiction |].
    destruct (@py_range_starts_at_zero (List.length (first :: rest))
                batch_size) as [r' ->];
      [simpl; lia | unfold batch_size; lia | discriminate].
Qed.

Lemma qualifying_import_sessions plan db year round_number session_type
    info qd sid db' :
  find_session db year round_number session_type = None ->
  save_qualifying_telemetry plan db year round_number session_type info qd
  = (Some sid, db') ->
  sessions db'
  = sessions db
    ++ [qualifying_session year round_number session_type info
          (next_id (map Session.id (sessions db)))].
Proof.
  intros Ef Hsave. unfold save_qualifying_telemetry in Hsave.
  rewrite save_qualifying_body_fresh in Hsave by exact Ef.
  simpl working in Hsave. simpl committed in Hsave. simpl faults in Hsave.
  set (i := next_id (map Session.id (sessions db))) in *.
  set (new := qualifying_session year round_number session_type info i)
    in *.
  set (u1 := mkUnit db (with_session new db) plan) in *.
  destruct ((flush ;; for_each (QualiData.results qd) (save_result i qd) ;;
             commit ;; ret i) u1) as [u [e | sid']] eqn:E;
    [discriminate |].
  inversion Hsave; subst sid' db'. clear Hsave.
  assert (H1 : sessions_kept db (sessions db ++ [new]) u1).
  { split; simpl; auto. }
  apply bind_inr in E. destruct E as (ua & ya & Ea & E).
  pose proof (@preserves_flush _ (@sessions_kept_blind db _) u1 H1) as Ha.
  rewrite Ea in Ha. simpl in Ha.
  apply bind_inr in E. destruct E as (ub & yb & Eb & E).
  pose proof (@preserves_quali_results _ (@sessions_kept_blind db _)
                (@sessions_kept_update db _) i qd (QualiData.results qd)
                ua Ha) as Hb.
  rewrite Eb in Hb. simpl in Hb.
  apply bind_inr in E. destruct E as (uc & yc & Ec & E).
  apply ret_inr in E. destruct E as [-> ->].
  apply commit_inr in Ec. destruct Ec as [Hc _].
  destruct Hb as [Hw _]. unfold close_session. rewrite Hc. exact Hw.
Qed.

(** X18: an imported session is listed.  After a successful import under
    a key that was not stored (a race import of at least one frame, or a
    qualifying import), [get_all_sessions] returns the entries it returned
    before and one more: the entry of the key, with the event name, the
    country and the date of the metadata, the empty string for a missing
    one. *)
Theorem imported_session_is_listed plan db year round_number session_type
    info data qd :
  check_session_exists db year round_number session_type = false ->
  (forall sid db',
     TelemetryData.frames data <> [] ->
     save_race_telemetry plan db year round_number session_type info data
     = (Some sid, db') ->
     Permutation (get_all_sessions db')
       (listed_entry year round_number session_type info
        :: get_all_sessions db)) /\
  (forall sid db',
     save_qualifying_telemetry plan db year round_number session_type info
       qd = (Some sid, db') ->
     Permutation (get_all_sessions db')
       (listed_entry year round_number session_type info
        :: get_all_sessions db)).
Proof.
  unfold check_session_exists. intros Hc.
  destruct (find_session db year round_number session_type) as [s |] eqn:Ef;
    [discriminate |]. clear Hc. split.
  - intros sid db' Hne Hsave.
    exact (catalogue_with_session _ _ _
             (race_import_sessions _ _ _ _ _ _ _ Ef Hne Hsave)).
  - intros sid db' Hsave.
    exact (catalogue_with_session _ _ _
             (@qualifying_import_sessions _ _ _ _ _ _ _ _ _ Ef Hsave)).
Qed.

Lemma imported_session_is_listed_witness :
  (forall sid db',
     TelemetryData.frames sample_race <> [] ->
     save_race_telemetry [] plain_store 2024 6 "R" sample_info sample_race
     = (Some sid, db') ->
     Permutation (get_all_sessions db')
       (listed_entry 2024 6 "R" sample_info :: get_all_sessions plain_store))
  /\
  (forall sid db',
     save_qualifying_telemetry [] plain_store 2024 6 "R" sample_info
       plain_quali = (Some sid, db') ->
     Permutation (get_all_sessions db')
       (listed_entry 2024 6 "R" sample_info :: get_all_sessions plain_store)).
Proof.
  apply (@imported_session_is_listed [] plain_store 2024 6 "R" sample_info
           sample_race plain_quali).
  reflexivity.
Defined.
(* ------------------------------------------------------------------ *)
(** ** The telemetry of a qualifying session across import and export *)

(** What the exporter rebuilds from an imported segment: the frames, the
    speeds, the compound; the sector times and the DRS zones, empty when
    they were missing; no track statuses. *)
Definition export_segment (sd : SegmentData.dict) : SegmentData.dict :=
  SegmentData.mk (SegmentData.frames sd) []
    (Some (or_default [] (SegmentData.drs_zones sd)))
    (SegmentData.max_speed sd) (SegmentData.min_speed sd)
    (Some (or_default empty_sector_times (SegmentData.sector_times sd)))
    (SegmentData.compound sd).

(** The segments of a driver that come back: those of [Q1], [Q2], [Q3]
    that have frames. *)
Definition export_segments (tel : pydict string SegmentData.dict)
    : pydict string SegmentData.dict :=
  flat_map
    (fun seg =>
       let sd := dict_get_default seg empty_segment tel in
       match SegmentData.frames sd with
       | [] => []
       | _ :: _ => [(seg, export_segment sd)]
       end)
    ["Q1"; "Q2"; "Q3"]%string.

(** [quali_data.get('telemetry', {}).get(driver_code, {})] for the driver
    of an entry of [results]. *)
Definition payload_segments (qd : QualiData.dict) (rd : ResultData.dict)
    : pydict string SegmentData.dict :=
  DriverSegments.segments
    (dict_get_default (or_default EmptyString (ResultData.code rd))
       empty_driver_segments (QualiData.telemetry qd)).

Definition export_driver_segments (qd : QualiData.dict)
    (rd : ResultData.dict) : DriverSegments.dict :=
  DriverSegments.mk (ResultData.full_name rd)
    (export_segments (payload_segments qd rd)).

(** The [telemetry] of the export: one entry per driver code, written in
    the order of the positions (a later entry of the same code replaces
    the earlier one). *)
Definition export_telemetry (qd : QualiData.dict)
    : pydict string DriverSegments.dict :=
  fold_left
    (fun acc rd =>
       dict_set (or_default EmptyString (ResultData.code rd))
         (export_driver_segments qd rd) acc)
    (order_by result_le (QualiData.results qd)) [].

(** The dictionary the loop over [result.telemetry_data] builds. *)
Definition segment_dict (rows : list QualifyingTelemetry.row)
    : pydict string SegmentData.dict :=
  fold_left
    (fun d t =>
       dict_set (QualifyingTelemetry.segment t) (load_segment t) d)
    rows [].

Lemma load_segment_steps_dict l : forall d M m,
  fst (fst (fold_left load_segment_step l (d, M, m)))
  = fold_left
      (fun d t =>
         dict_set (QualifyingTelemetry.segment t) (load_segment t) d)
      l d.
Proof.
  induction l as [| t r IH]; intros d M m; simpl.
  - reflexivity.
  - apply IH.
Qed.

(** The row [save_segment] writes for a segment with frames. *)
Definition segment_row (i rid : Z) (seg : string) (sd : SegmentData.dict)
    : QualifyingTelemetry.row :=
  let st := or_default empty_sector_times (SegmentData.sector_times sd) in
  QualifyingTelemetry.mk i rid seg (SegmentData.frames sd)
    (SegmentData.max_speed sd) (SegmentData.min_speed sd)
    (SectorTimes.sector1 st) (SectorTimes.sector2 st)
    (SectorTimes.sector3 st) (SegmentData.compound sd)
    (Some (or_default [] (SegmentData.drs_zones sd))).

Definition segment_written (rid : Z) (tel : pydict string SegmentData.dict)
    (seg : string) (i : Z) : list QualifyingTelemetry.row :=
  let sd := dict_get_default seg empty_segment tel in
  match SegmentData.frames sd with
  | [] => []
  | _ :: _ => [segment_row i rid seg sd]
  end.

Lemma save_segment_written rid tel seg u u' x :
  save_segment rid tel seg u = (u', inr x) ->
  qualifying_telemetry (working u')
  = qualifying_telemetry (working u)
    ++ segment_written rid tel seg
         (next_id (map QualifyingTelemetry.id
                     (qualifying_telemetry (working u)))).
Proof.
  unfold save_segment, segment_written. cbv zeta.
  destruct (SegmentData.frames (dict_get_default seg empty_segment tel))
    as [| fr frs] eqn:Ef.
  - intros E. apply ret_inr in E. destruct E as [-> _].
    rewrite app_nil_r. reflexivity.
  - intros E. apply bind_inr in E. destruct E as (u1 & i & E1 & E2).
    rewrite add_qualifying_telemetry_run in E1. inversion E1; subst u1 i.
    apply ret_inr in E2. destruct E2 as [-> _].
    cbn [working with_qualifying_telemetry qualifying_telemetry].
    unfold segment_row. cbv zeta. rewrite Ef. reflexivity.
Qed.

Lemma segment_written_result rid tel seg i :
  Forall (fun t => QualifyingTelemetry.result_id t = rid)
    (segment_written rid tel seg i).
Proof.
  unfold segment_written. cbv zeta.
  destruct (SegmentData.frames (dict_get_default seg empty_segment tel));
    repeat constructor.
Qed.

Lemma load_segment_row i rid seg sd :
  load_segment (segment_row i rid seg sd) = export_segment sd.
Proof.
  unfold load_segment, export_segment, segment_row. simpl.
  destruct (or_default empty_sector_times (SegmentData.sector_times sd)).
  destruct (or_default [] (SegmentData.drs_zones sd)); reflexivity.
Qed.

Lemma segment_of_row i rid seg sd :
  QualifyingTelemetry.segment (segment_row i rid seg sd) = seg.
Proof. reflexivity. Qed.

(** The three turns of the loop over [['Q1', 'Q2', 'Q3']]. *)
Lemma save_segments_written rid tel u u' x :
  for_each ["Q1"; "Q2"; "Q3"]%string (save_segment rid tel) u
  = (u', inr x) ->
  exists rows,
    qualifying_telemetry (working u')
    = qualifying_telemetry (working u) ++ rows /\
    Forall (fun t => QualifyingTelemetry.result_id t = rid) rows /\
    segment_dict rows = export_segments tel.
Proof.
  cbn [for_each]. intros E.
  apply bind_inr in E. destruct E as (u1 & y1 & E1 & E).
  apply bind_inr in E. destruct E as (u2 & y2 & E2 & E).
  apply bind_inr in E. destruct E as (u3 & y3 & E3 & E).
  apply ret_inr in E. destruct E as [-> _].
  apply save_segment_written in E1, E2, E3.
  eexists. split; [| split].
  - rewrite E3, E2, E1, <- !app_assoc. reflexivity.
  - repeat (apply Forall_app; split); apply segment_written_result.
  - unfold segment_written, export_segments, segment_dict. cbv zeta.
    cbn [flat_map].
    destruct (SegmentData.frames
                (dict_get_default "Q1"%string empty_segment tel));
      destruct (SegmentData.frames
                  (dict_get_default "Q2"%string empty_segment tel));
      destruct (SegmentData.frames
                  (dict_get_default "Q3"%string empty_segment tel));
      cbn [app fold_left];
      rewrite ?segment_of_row, ?load_segment_row; reflexivity.
Qed.

(** The segment rows one entry of [results] adds. *)
Lemma save_result_telemetry sid qd rd u u' x :
  save_result sid qd rd u = (u', inr x) ->
  exists rows,
    qualifying_telemetry (working u')
    = qualifying_telemetry (working u) ++ rows /\
    Forall (fun t =>
              QualifyingTelemetry.result_id t
              = next_id (map QualifyingResult.id
                           (qualifying_results (working u)))) rows /\
    segment_dict rows = export_segments (payload_segments qd rd).
Proof.
  unfold save_result, payload_segments. intros E.
  apply bind_inr in E. destruct E as (u1 & c & E1 & E).
  apply subscript_inr in E1. destruct E1 as [Hc ->].
  destruct (or_default default_color (ResultData.color rd)) as [[r g] b].
  apply bind_inr in E. destruct E as (u2 & did & E2 & E).
  rewrite add_driver_run in E2. inversion E2; subst u2 did. clear E2.
  apply bind_inr in E. destruct E as (u3 & y & E3 & E).
  apply storage_call_inr in E3. simpl in E3. destruct E3 as [_ Hw3].
  apply bind_inr in E. destruct E as (u4 & p & E4 & E).
  apply subscript_inr in E4. destruct E4 as [_ ->].
  apply bind_inr in E. destruct E as (u5 & q1 & E5 & E).
  apply lap_time_of_inr in E5. destruct E5 as [-> _].
  apply bind_inr in E. destruct E as (u6 & q2 & E6 & E).
  apply lap_time_of_inr in E6. destruct E6 as [-> _].
  apply bind_inr in E. destruct E as (u7 & q3 & E7 & E).
  apply lap_time_of_inr in E7. destruct E7 as [-> _].
  apply bind_inr in E. destruct E as (u8 & rid & E8 & E).
  rewrite add_qualifying_result_run in E8. inversion E8; subst u8 rid.
  clear E8.
  apply bind_inr in E. destruct E as (u9 & z & E9 & E).
  apply storage_call_inr in E9. simpl in E9. destruct E9 as [_ Hw9].
  apply save_segments_written in E.
  destruct E as (rows & Hq & Hrid & Hdict).
  exists rows. rewrite Hq, Hw9, Hw3 in *. rewrite Hc. simpl.
  split; [reflexivity |]. split; [| exact Hdict].
  exact Hrid.
Qed.

(** A stored result row from which the exporter rebuilds the entry [rd]
    and the segments of its driver. *)
Definition result_exports (qd : QualiData.dict) (W : Database)
    (row : QualifyingResult.row) (rd : ResultData.dict) : Prop :=
  row_exports W row rd /\
  segment_dict
    (filter (fun t => (QualifyingTelemetry.result_id t
                       =? QualifyingResult.id row)%Z)
       (qualifying_telemetry W))
  = export_segments (payload_segments qd rd) /\
  (QualifyingResult.id row
   < next_id (map QualifyingResult.id (qualifying_results W)))%Z.

(** Every segment row belongs to a result row that is there. *)
Definition segments_refer (W : Database) : Prop :=
  Forall (fun t =>
            (QualifyingTelemetry.result_id t
             < next_id (map QualifyingResult.id (qualifying_results W)))%Z)
    (qualifying_telemetry W).

Lemma save_results_telemetry sid qd rds : forall u u' x rows done,
  for_each rds (save_result sid qd) u = (u', inr x) ->
  filter (fun r => (QualifyingResult.session_id r =? sid)%Z)
    (qualifying_results (working u)) = rows ->
  Forall2 (result_exports qd (working u)) rows done ->
  segments_refer (working u) ->
  exists rows',
    filter (fun r => (QualifyingResult.session_id r =? sid)%Z)
      (qualifying_results (working u')) = rows' /\
    Forall2 (result_exports qd (working u')) rows' (done ++ rds).
Proof.
  induction rds as [| rd rds IH]; simpl; intros u u' x rows done E Hf H2 Hr.
  - apply ret_inr in E. destruct E; subst u'. rewrite app_nil_r. eauto.
  - apply bind_inr in E. destruct E as (u1 & y & E1 & E2).
    pose proof (save_result_telemetry _ _ _ _ E1)
      as (segs & Hq & Hrid & Hdict).
    apply save_result_inr in E1. cbv zeta in E1.
    destruct E1 as (Hc & Hp & _ & _ & Hd & Hres).
    set (rid := next_id (map QualifyingResult.id
                           (qualifying_results (working u)))) in *.
    set (row := result_row sid rd
                  (Driver.id (result_driver sid rd
                     (next_id (map Driver.id (drivers (working u))))))
                  rid) in *.
    assert (Hnext : (rid < next_id (map QualifyingResult.id
                                      (qualifying_results (working u1))))%Z).
    { rewrite Hres, map_app. apply next_id_above.
      apply in_or_app. right. left. reflexivity. }
    assert (Hmono : (rid <= next_id (map QualifyingResult.id
                                       (qualifying_results (working u1))))%Z)
      by lia.
    specialize (IH u1 u' x (rows ++ [row]) (done ++ [rd]) E2).
    destruct IH as (rows' & If & I2).
    + rewrite Hres, filter_app, Hf. simpl. rewrite Z.eqb_refl. reflexivity.
    + apply Forall2_app.
      * eapply Forall2_impl; [| exact H2].
        intros row0 rd0 (He & Hs & Hlt). split; [| split].
        -- eapply row_exports_more_drivers; [exact Hd | exact He].
        -- rewrite Hq, filter_app.
           rewrite (@filter_nothing _ _ segs), app_nil_r; [exact Hs |].
           intros t Ht. rewrite Forall_forall in Hrid.
           rewrite (Hrid t Ht). apply Z.eqb_neq. fold rid. lia.
        -- fold rid in Hlt. lia.
      * constructor; [| constructor]. split; [| split].
        -- apply new_row_exports with (W := working u); assumption.
        -- rewrite Hq, filter_app.
           rewrite (@filter_nothing _ _ (qualifying_telemetry (working u))).
           ++ rewrite filter_everything; [exact Hdict |].
              eapply Forall_impl; [| exact Hrid]. intros t Ht. cbv beta.
              rewrite Ht. apply Z.eqb_refl.
           ++ intros t Ht. unfold segments_refer in Hr.
              rewrite Forall_forall in Hr. specialize (Hr t Ht).
              apply Z.eqb_neq. fold rid in Hr.
              change (QualifyingResult.id row) with rid. lia.
        -- exact Hnext.
    + unfold segments_refer. rewrite Hq. apply Forall_app. split.
      * eapply Forall_impl; [| exact Hr]. intros t Ht. cbv beta in *.
        fold rid in Ht. lia.
      * eapply Forall_impl; [| exact Hrid]. intros t Ht. cbv beta in *.
        rewrite Ht. exact Hnext.
    + rewrite <- app_assoc in I2. simpl in I2. eauto.
Qed.

(** What the exporter does with such rows. *)
Lemma load_results_telemetry qd db rows : forall rds acc,
  Forall2 (result_exports qd db) rows rds ->
  exists acc',
    try_fold rows acc (load_result db) = Some acc' /\
    ql_results acc' = ql_results acc ++ map export_result rds /\
    ql_telemetry acc'
    = fold_left
        (fun a rd =>
           dict_set (or_default EmptyString (ResultData.code rd))
             (export_driver_segments qd rd) a)
        rds (ql_telemetry acc).
Proof.
  induction rows as [| row rows IH]; intros rds acc H2;
    inversion H2 as [| ? rd ? rds' Hrow Hrest]; subst; simpl.
  - exists acc. rewrite app_nil_r. auto.
  - destruct Hrow as ((_ & d & Hf & He) & Hs & _).
    unfold load_result at 1. rewrite Hf.
    pose proof (load_segment_steps_dict
                  (filter (fun qt => (QualifyingTelemetry.result_id qt
                                      =? QualifyingResult.id row)%Z)
                     (qualifying_telemetry db))
                  [] (ql_max_speed acc) (ql_min_speed acc)) as Hdt.
    destruct (fold_left load_segment_step _ _) as [[dt mx] mn].
    simpl in Hdt. fold (segment_dict
                         (filter (fun qt => (QualifyingTelemetry.result_id qt
                                             =? QualifyingResult.id row)%Z)
                            (qualifying_telemetry db))) in Hdt.
    rewrite Hs in Hdt. subst dt.
    destruct (IH rds' (mkQualiLoad
                (ql_results acc ++ [load_result_entry d row])
                (dict_set (Driver.driver_code d)
                   (DriverSegments.mk (Driver.full_name d)
                      (export_segments (payload_segments qd rd)))
                   (ql_telemetry acc)) mx mn) Hrest)
      as (acc' & Et & Er & Ht).
    exists acc'. split; [exact Et |]. split.
    + rewrite Er. simpl. rewrite He, <- app_assoc. reflexivity.
    + rewrite Ht. simpl. unfold export_driver_segments.
      unfold load_result_entry, export_result in He.
      injection He as Hcode Hname _ _ _ _ _.
      rewrite <- Hcode, Hname. reflexivity.
Qed.

Lemma consistent_segments_refer db :
  db_consistent db = true -> segments_refer db.
Proof.
  intros Hc. unfold db_consistent in Hc. repeat rewrite andb_true_iff in Hc.
  destruct Hc as [_ Hq]. rewrite forallb_forall in Hq.
  apply Forall_forall. intros t Ht. apply refers_below. auto.
Qed.

(** X19: the telemetry of a qualifying session comes back as it went in.
    For a payload of numbers the store holds whose lap times are plain
    decimal literals of at most 15 digits (zero, or at least [0.0001] in
    magnitude): after a successful qualifying import under a key of 64-bit
    integers that was not stored, into a store with referential integrity,
    [load_qualifying_telemetry] returns the entries of [results] in the
    order of their positions and, for the driver of each entry, the
    segments among [Q1], [Q2], [Q3] that had frames: each with its frames,
    speeds and compound, its sector times and DRS zones (empty when they
    were missing) and no track statuses.  A segment without frames is not
    stored and does not come back. *)
Theorem qualifying_telemetry_round_trip plan db year round_number
    session_type info qd sid db' :
  db_consistent db = true ->
  check_session_exists db year round_number session_type = false ->
  storable_key year round_number = true ->
  storable_quali qd = true ->
  forallb short_lap_times (QualiData.results qd) = true ->
  save_qualifying_telemetry plan db year round_number session_type info qd
  = (Some sid, db') ->
  exists q,
    load_qualifying_telemetry db' year round_number session_type = Some q /\
    QualiData.results q
    = map export_result (order_by result_le (QualiData.results qd)) /\
    QualiData.telemetry q = export_telemetry qd.
Proof.
  unfold check_session_exists. intros Hcons Hc _ _ _ Hsave.
  destruct (find_session db year round_number session_type) as [s0 |] eqn:Ef;
    [discriminate |]. clear Hc.
  pose proof (@qualifying_import_sessions _ _ _ _ _ _ _ _ _ Ef Hsave)
    as Hsess.
  unfold save_qualifying_telemetry in Hsave.
  rewrite save_qualifying_body_fresh in Hsave by exact Ef.
  simpl working in Hsave. simpl committed in Hsave. simpl faults in Hsave.
  set (i := next_id (map Session.id (sessions db))) in *.
  set (new := qualifying_session year round_number session_type info i) in *.
  destruct ((flush ;; for_each (QualiData.results qd) (save_result i qd) ;;
             commit ;; ret i) (mkUnit db (with_session new db) plan))
    as [u [e | sid']] eqn:E; [discriminate |].
  inversion Hsave; subst sid' db'. clear Hsave.
  apply bind_inr in E. destruct E as (u1 & y1 & E1 & E).
  apply storage_call_inr in E1. simpl in E1. destruct E1 as [_ Hw1].
  apply bind_inr in E. destruct E as (u2 & y2 & E2 & E).
  apply bind_inr in E. destruct E as (u3 & y3 & E3 & E).
  apply ret_inr in E. destruct E as [-> ->].
  apply commit_inr in E3. destruct E3 as [Hc3 _].
  apply save_results_telemetry with (rows := []) (done := []) in E2.
  - destruct E2 as (rows & Hf & H2). simpl in H2.
    unfold close_session in *. rewrite Hc3 in *.
    unfold load_qualifying_telemetry.
    rewrite (@find_session_app_new _ _ _ _ _ _ Ef Hsess).
    unfold new at 1. rewrite qualifying_session_matches.
    change (Session.id new) with i. rewrite Hf.
    assert (H2s : Forall2 (result_exports qd (working u2))
                    (order_by (fun a b =>
                       (QualifyingResult.position a
                        <=? QualifyingResult.position b)%Z) rows)
                    (order_by result_le (QualiData.results qd))).
    { apply order_by_Forall2; [| exact H2].
      intros a b a' b' ((Ha & _) & _) ((Ha' & _) & _). unfold result_le.
      rewrite Ha, Ha'. reflexivity. }
    destruct (@load_results_telemetry qd (working u2) _ _
                (mkQualiLoad [] [] 0 0) H2s) as (acc & Et & Er & Htel).
    rewrite Et. eexists. split; [reflexivity |]. simpl. split.
    + exact Er.
    + exact Htel.
  - rewrite Hw1. simpl. fold i.
    apply consistent_no_results_of_new_session. exact Hcons.
  - constructor.
  - rewrite Hw1. apply consistent_segments_refer in Hcons. exact Hcons.
Qed.

(** The export of the qualifying session with plain lap times. *)
Lemma qualifying_telemetry_round_trip_witness :
  exists q,
    load_qualifying_telemetry plain_store 2024 5 "Q" = Some q /\
    QualiData.results q
    = map export_result (order_by result_le (QualiData.results plain_quali))
    /\
    QualiData.telemetry q = export_telemetry plain_quali.
Proof.
  apply (@qualifying_telemetry_round_trip [] sample_store 2024 5 "Q"
           sample_info plain_quali 2 plain_store).
  - reflexivity.
  - reflexivity.
  - reflexivity.
  - reflexivity.
  - reflexivity.
  - vm_compute. reflexivity.
Defined.
(* ------------------------------------------------------------------ *)
(** ** The driver colours across a race import and export *)

(** X20: the colours of a race come back for the drivers of the first
    frame, and for no other.  After a successful race import of at least
    one frame under a key that was not stored, into a store with
    referential integrity, the exported [driver_colors] has, for every
    driver code of the first frame, the colour that was supplied for it or
    the default colour; it has no entry for any other code, also when a
    colour was supplied for it. *)
Theorem race_driver_colors_round_trip plan db year round_number
    session_type info data sid db' first rest :
  db_consistent db = true ->
  check_session_exists db year round_number session_type = false ->
  TelemetryData.frames data = first :: rest ->
  save_race_telemetry plan db year round_number session_type info data
  = (Some sid, db') ->
  exists p,
    load_race_telemetry db' year round_number session_type = Some p /\
    forall code,
      dict_get code (TelemetryData.driver_colors p)
      = if known_driver (dict_keys (FrameData.drivers first)) code
        then Some (dict_get_default code default_color
                     (TelemetryData.driver_colors data))
        else None.
Proof.
  unfold check_session_exists. intros Hcons Hc Hframes Hsave.
  destruct (find_session db year round_number session_type) as [s0 |] eqn:Ef;
    [discriminate |]. clear Hc.
  destruct (@race_export_after_import _ _ _ _ _ _ _ _ _ _ _ Hcons Ef Hframes
              Hsave) as (p & Hload & _ & _ & _ & Hin & Hout & _).
  exists p. split; [exact Hload |]. intros code.
  destruct (known_driver (dict_keys (FrameData.drivers first)) code) eqn:Ek.
  - apply Hin. apply known_driver_spec. exact Ek.
  - apply Hout. intros Hk. apply known_driver_spec in Hk. congruence.
Qed.

Lemma race_driver_colors_round_trip_witness :
  exists p,
    load_race_telemetry late_driver_store 2024 6 "R" = Some p /\
    forall code,
      dict_get code (TelemetryData.driver_colors p)
      = if known_driver (dict_keys (FrameData.drivers (sample_frame 0 None)))
             code
        then Some (dict_get_default code default_color
                     (TelemetryData.driver_colors late_driver_race))
        else None.
Proof.
  apply (@race_driver_colors_round_trip [] sample_store 2024 6 "R"
           sample_info late_driver_race 2 late_driver_store
           (sample_frame 0 None)
           [FrameData.mk (Some 1%Q) (Some 1%Z) None
              [("VER"%string, sample_point 3 1 1);
               ("HAM"%string, sample_point 2 2 2);
               ("LEC"%string, sample_point 1 3 3)]]).
  - reflexivity.
  - reflexivity.
  - reflexivity.
  - vm_compute. reflexivity.
Defined.

(* ------------------------------------------------------------------ *)
(** ** The identifier a race import returns *)

Lemma race_without_frames_unchanged plan db year round_number session_type
    info data :
  TelemetryData.frames data = [] ->
  snd (save_race_telemetry plan db year round_number session_type info data)
  = db.
Proof.
  intros Hframes. unfold save_race_telemetry.
  destruct (find_session db year round_number session_type) as [s |] eqn:Ef.
  - rewrite save_race_body_existing with (s := s) by exact Ef. reflexivity.
  - rewrite save_race_body_fresh by exact Ef.
    simpl working. simpl committed. simpl faults.
    set (i := next_id (map Session.id (sessions db))).
    set (u1 := mkUnit db _ plan).
    assert (HP : preserves (committed_is db)
                   (flush ;; save_race_rows i data ;; ret i)).
    { apply preserves_bind.
      - apply preserves_flush. apply committed_is_blind.
      - intros _. apply preserves_bind; [| intros _; apply preserves_ret].
        unfold save_race_rows. rewrite Hframes.
        apply preserves_bind; [apply preserves_ret | intros dm].
        apply preserves_bind.
        + apply preserves_race_statuses. apply committed_is_update.
        + intros _. rewrite save_batches_nil. apply preserves_ret. }
    specialize (HP u1 eq_refl).
    destruct ((flush ;; save_race_rows i data ;; ret i) u1)
      as [u2 [e | sid]]; exact HP.
Qed.

(** X21: the identifier a race import returns under a new key names a
    stored session exactly when the payload had a frame.  When
    [save_race_telemetry] returns an identifier under a key that was not
    stored, [check_session_exists] reports the key afterwards if and only
    if the payload had at least one frame. *)
Theorem returned_race_session_is_stored_iff_frames plan db year round_number
    session_type info data sid db' :
  check_session_exists db year round_number session_type = false ->
  save_race_telemetry plan db year round_number session_type info data
  = (Some sid, db') ->
  (check_session_exists db' year round_number session_type = true <->
   TelemetryData.frames data <> []).
Proof.
  intros Hc Hsave. split.
  - intros Hst Hnil.
    pose proof (@race_without_frames_unchanged plan db year round_number
                  session_type info data Hnil) as Hdb.
    rewrite Hsave in Hdb. simpl in Hdb. subst db'. congruence.
  - intros Hne. unfold check_session_exists in *.
    destruct (find_session db year round_number session_type) as [s |]
      eqn:Ef; [discriminate |].
    pose proof (@race_import_sessions _ _ _ _ _ _ _ _ _ Ef Hne Hsave) as Hs.
    rewrite (@find_session_app_new _ _ _ _ _ _ Ef Hs).
    rewrite race_session_matches. reflexivity.
Qed.

Lemma returned_race_session_is_stored_iff_frames_witness :
  check_session_exists late_driver_store 2024 6 "R" = true <->
  TelemetryData.frames late_driver_race <> [].
Proof.
  apply (@returned_race_session_is_stored_iff_frames [] sample_store 2024 6
           "R" sample_info late_driver_race 2 late_driver_store).
  - reflexivity.
  - vm_compute. reflexivity.
Defined.

(* ------------------------------------------------------------------ *)
(** ** An export is a payload the importer reads *)






(* ------------------------------------------------------------------ *)
(** ** A race payload with a missing key *)

(** The payload cut after its first batch of frames. *)
Definition first_batch (data : TelemetryData.dict) : TelemetryData.dict :=
  TelemetryData.mk (firstn batch_size (TelemetryData.frames data))
    (TelemetryData.driver_colors data)
    (TelemetryData.track_statuses data)
    (TelemetryData.total_laps data).

(** Until [save_race_rows] has read every key of the track statuses and of
    the first batch of frames, it has committed nothing. *)
Lemma save_race_rows_before_commit sid data u :
  committed (fst (save_race_rows sid data u)) = committed u \/
  readable_race_payload (first_batch data) = true.
Proof.
  unfold save_race_rows.
  set (drv := match TelemetryData.frames data with
              | first_frame :: _ =>
                  for_fold (dict_keys (FrameData.drivers first_frame)) []
                    (save_driver sid (TelemetryData.driver_colors data))
              | [] => ret []
              end).
  assert (HPd : preserves (committed_is (committed u)) drv).
  { unfold drv. destruct (TelemetryData.frames data).
    - apply preserves_ret.
    - apply preserves_race_drivers.
      + apply committed_is_blind.
      + exact (@committed_is_update _). }
  specialize (HPd u eq_refl). unfold committed_is in HPd.
  unfold bind at 1.
  destruct (drv u) as [u1 [e | dm]] eqn:Ed; simpl in HPd;
    [left; exact HPd |].
  pose proof (@preserves_race_statuses (committed_is (committed u))
                (@committed_is_update _) sid
                (TelemetryData.track_statuses data) u1 HPd) as HPs.
  unfold committed_is in HPs. unfold bind at 1.
  destruct (for_each (TelemetryData.track_statuses data)
              (save_track_status sid) u1) as [u2 [e | y]] eqn:Es;
    simpl in HPs; [left; exact HPs |].
  assert (Hst : forallb valid_status (TelemetryData.track_statuses data)
                = true).
  { apply forallb_forall. intros sd Hsd.
    destruct (for_each_inr _ _ _ Es sd Hsd) as (ua & ub & Ea).
    eapply save_track_status_read. exact Ea. }
  destruct (TelemetryData.frames data) as [| first rest] eqn:Ef.
  - left. rewrite save_batches_nil. exact HPs.
  - destruct (@py_range_starts_at_zero (List.length (first :: rest))
                batch_size) as [r Hr];
      [simpl; lia | unfold batch_size; lia |].
    unfold save_batches. rewrite Hr. cbn [for_each].
    rewrite py_slice_first_batch.
    pose proof (@preserves_race_batch (committed_is (committed u))
                  (@committed_is_blind _) (@committed_is_update _)
                  sid dm (firstn batch_size (first :: rest)) u2 HPs) as HPb.
    unfold committed_is in HPb.
    unfold bind at 1. unfold bind at 1.
    destruct (for_each (firstn batch_size (first :: rest))
                (save_frame sid dm) u2) as [u3 [e | y3]] eqn:Eb;
      simpl in HPb; [left; exact HPb |].
    assert (Hfn : firstn batch_size (first :: rest)
                  = first :: firstn 99 rest) by reflexivity.
    right. unfold readable_race_payload, first_batch.
    cbn [TelemetryData.track_statuses TelemetryData.frames].
    rewrite Ef, Hst, Hfn. rewrite Hfn in Eb. rewrite andb_true_l.
    apply forallb_forall. intros f Hf.
    destruct (for_each_inr _ _ _ Eb f Hf) as (ua & ub & Ea).
    eapply save_frame_read; [| exact Ea].
    unfold drv in Ed. eapply save_drivers_known. exact Ed.
Qed.

(** C6 (as the code has it): a race payload in which a key that the
    importer reads with [d[k]] is missing (['status'] or ['start_time'] of
    a track status, ['t'] of a frame, ['x'] or ['y'] of a sample of a
    driver of the first frame), imported under a key that is not stored,
    makes the import report a failure, whatever the storage engine does.
    Nothing checks the payload before the writes: the failure is raised
    when the loop reaches the missing key.  When the key is missing from a
    track status or from one of the first [batch_size] frames, nothing has
    been committed by then and the rollback leaves the store as it was. *)
Theorem malformed_payload_fails_import plan db year round_number
    session_type info data :
  (forall s, In s (sessions db) ->
             session_matches year round_number session_type s = false) ->
  readable_race_payload data = false ->
  fst (save_race_telemetry plan db year round_number session_type info data)
  = None /\
  (readable_race_payload (first_batch data) = false ->
   snd (save_race_telemetry plan db year round_number session_type info data)
   = db).
Proof.
  intros Habsent Hbad. apply find_session_none in Habsent.
  unfold save_race_telemetry.
  rewrite save_race_body_fresh by exact Habsent.
  simpl working. simpl committed. simpl faults.
  set (i := next_id (map Session.id (sessions db))).
  set (u1 := mkUnit db _ plan).
  destruct ((flush ;; save_race_rows i data ;; ret i) u1)
    as [u2 [e | sid]] eqn:E.
  - split; [reflexivity |]. intros Hfirst. simpl.
    unfold bind at 1 in E.
    pose proof (@preserves_flush (committed_is db) (@committed_is_blind _)
                  u1 eq_refl) as HPf.
    unfold committed_is in HPf.
    destruct (flush u1) as [ua [e1 | y]]; simpl in HPf.
    + injection E as Hu _. rewrite <- Hu. exact HPf.
    + unfold bind at 1 in E.
      destruct (save_race_rows_before_commit i data ua) as [Hc | Hr];
        [| congruence].
      destruct (save_race_rows i data ua) as [ub [e2 | z]]; simpl in Hc.
      * injection E as Hu _. rewrite <- Hu, Hc. exact HPf.
      * discriminate E.
  - exfalso. apply bind_inr in E. destruct E as (u3 & y & _ & E).
    apply bind_inr in E. destruct E as (u4 & z & E & _).
    apply save_race_rows_read in E. congruence.
Qed.

(** A race whose second frame has a sample without ['x']. *)
Definition malformed_race : TelemetryData.dict :=
  TelemetryData.mk
    [sample_frame 0 None;
     FrameData.mk (Some 1%Q) (Some 1%Z) None
       [("VER"%string,
         DriverData.mk None (Some 12%Q) None None None None None None None
           None None None)]]
    [("VER"%string, (6, 0, 255)%Z)]
    [StatusData.mk (Some "4"%string) (Some 1%Q) None]
    (Some 78%Z).

Lemma malformed_payload_fails_import_witness :
  fst (save_race_telemetry [] sample_store 2024 6 "R" sample_info
         malformed_race) = None /\
  snd (save_race_telemetry [] sample_store 2024 6 "R" sample_info
         malformed_race) = sample_store.
Proof.
  destruct (@malformed_payload_fails_import [] sample_store 2024 6 "R"
              sample_info malformed_race) as [Hfails Hkept].
  - intros s Hs. simpl in Hs. destruct Hs as [<- | []]. reflexivity.
  - reflexivity.
  - split; [exact Hfails |]. apply Hkept. reflexivity.
Defined.
